(** * The check runner of the Checkly CLI

    A shallow embedding of
    [packages/cli/src/services/abstract-check-runner.ts]: the class
    [AbstractCheckRunner], which dispatches a batch of checks, arms one
    timer per check, correlates the result messages of the socket with the
    pending checks and reports the run through events.

    The class is event driven.  Its handlers ([processMessage], the timer
    callback of [setAllTimeouts], the listener of [allChecksFinished] and
    the segments of [run] between two [await]s) are functions on an
    explicit [State]; what the environment does (the socket connects, a
    message arrives, a timer expires, an asset is fetched) is a [Label],
    and [step] runs the handler that the label triggers. *)

From Stdlib Require Import ZArith List Permutation Ascii.
From stdpp Require Import gmap strings list fin_maps pretty.

Local Open Scope string_scope.
Local Open Scope list_scope.

(** ** JavaScript values

    Messages are parsed with [JSON.parse] and typed [any]; check
    descriptors are typed [any] as well.  Objects keep their properties in
    insertion order.  Numbers are integers: the runner only tests them for
    truthiness, and [this.timeout] is a whole number of seconds.  An
    integer stands for the Number of that value, as every integer up to
    [2^53] in absolute value is one. *)

#[local] Set Warnings "-register-all".

Inductive JsVal : Type :=
  | JUndefined
  | JNull
  | JBool (b : bool)
  | JNum (n : Z)
  | JStr (s : string)
  | JArr (items : list JsVal)
  | JObj (fields : list (string * JsVal)).

(** What a handler throws or a promise rejects with. *)
Inductive Thrown : Type :=
  | TypeError
  | Rejected (reason : string).

Inductive Outcome (A : Type) : Type :=
  | Returns (a : A)
  | Throws (e : Thrown).
Arguments Returns {A} a.
Arguments Throws {A} e.

Definition bindO {A B} (m : Outcome A) (k : A -> Outcome B) : Outcome B :=
  match m with
  | Returns a => k a
  | Throws e => Throws e
  end.

Notation "x <-! m ; k" := (bindO m (fun x => k))
  (at level 100, m at next level, right associativity,
   format "'[v' x  <-!  m ;  '/' k ']'").

Definition is_Returns {A} (m : Outcome A) : bool :=
  match m with Returns _ => true | Throws _ => false end.

(** [ToBoolean]. *)
Definition truthy (v : JsVal) : bool :=
  match v with
  | JUndefined | JNull => false
  | JBool b => b
  | JNum n => negb (n =? 0)%Z
  | JStr s => negb (String.eqb s "")
  | JArr _ | JObj _ => true
  end.

Fixpoint own_prop (name : string) (fields : list (string * JsVal)) : JsVal :=
  match fields with
  | [] => JUndefined
  | (k, v) :: rest => if String.eqb k name then v else own_prop name rest
  end.

(** [v.name] for the property names the runner reads; reading a property
    of [undefined] or [null] throws. *)
Definition get_prop (v : JsVal) (name : string) : Outcome JsVal :=
  match v with
  | JUndefined | JNull => Throws TypeError
  | JBool _ | JNum _ => Returns JUndefined
  | JStr s =>
      Returns (if String.eqb name "length"
               then JNum (Z.of_nat (String.length s)) else JUndefined)
  | JArr items =>
      Returns (if String.eqb name "length"
               then JNum (Z.of_nat (length items)) else JUndefined)
  | JObj fields => Returns (own_prop name fields)
  end.

Fixpoint put_prop (name : string) (x : JsVal) (fields : list (string * JsVal))
  : list (string * JsVal) :=
  match fields with
  | [] => [(name, x)]
  | (k, v) :: rest =>
      if String.eqb k name then (k, x) :: rest else (k, v) :: put_prop name x rest
  end.

(** [v.name = x].  The runner only assigns to [result] after it has read
    [result.assets], so [v] is an object of the message there. *)
Definition set_prop (v : JsVal) (name : string) (x : JsVal) : JsVal :=
  match v with
  | JObj fields => JObj (put_prop name x fields)
  | _ => v
  end.

(** ** Events *)

Inductive Event : Type :=
  | CHECK_REGISTERED (check : JsVal)
  | CHECK_INPROGRESS (check : JsVal)
  | CHECK_FAILED (check message : JsVal)
  | CHECK_SUCCESSFUL (check result : JsVal)
  | CHECK_FINISHED (check : JsVal)
  | RUN_STARTED (testSessionId : option string)
                (testResultIds : option (gmap string string))
  | RUN_FINISHED (testSessionId : option string)
  | ERROR (err : Thrown).

Definition is_check_event (e : Event) : bool :=
  match e with
  | CHECK_REGISTERED _ | CHECK_INPROGRESS _ | CHECK_FAILED _ _
  | CHECK_SUCCESSFUL _ _ | CHECK_FINISHED _ => true
  | _ => false
  end.

Definition is_RUN_FINISHED (e : Event) : bool :=
  match e with RUN_FINISHED _ => true | _ => false end.

(** The descriptors of the checks reported finished, in order. *)
Fixpoint finished_checks (log : list Event) : list JsVal :=
  match log with
  | [] => []
  | CHECK_FINISHED c :: rest => c :: finished_checks rest
  | _ :: rest => finished_checks rest
  end.

(** ** Numbers as text

    [`${x}`] for a Number [x] that is an integer.  Below [2^53] the
    digits of the integer are printed.  A Number from [2^53] on is printed
    with the fewest digits that still denote it, zeros making up the rest
    of its length, and in exponent notation from [10^21] on. *)

(** The Number nearest to the integer [v > 0]: 53 significant bits, ties
    to even. *)
Definition nearest_Number (v : Z) : Z :=
  let e := (Z.log2 v - 52)%Z in
  if (e <=? 0)%Z then v
  else
    let q := Z.shiftr v e in
    let r := Z.land v (Z.ones e) in
    let half := Z.shiftl 1 (e - 1) in
    let q' := if (half <? r)%Z || ((r =? half)%Z && Z.odd q)
              then (q + 1)%Z else q in
    Z.shiftl q' e.

Definition digits (v : Z) : Z := Z.of_nat (String.length (pretty v)).

(** The fewest digits [s], at least [k], with [s * 10^e] denoting the
    Number [x] of [n] digits: the pair [(s, e)]. *)
Fixpoint shortest (fuel : nat) (k n x : Z) : Z * Z :=
  match fuel with
  | O => (x, 0%Z)
  | S fuel' =>
      if (n <=? k)%Z then (x, 0%Z)
      else
        let p := (10 ^ (n - k))%Z in
        let lo := (x / p)%Z in
        let ok_lo := (nearest_Number (lo * p) =? x)%Z in
        let ok_hi := (nearest_Number ((lo + 1) * p) =? x)%Z in
        if ok_lo && (negb ok_hi || (x - lo * p <=? (lo + 1) * p - x)%Z)
        then (lo, (n - k)%Z)
        else if ok_hi then ((lo + 1)%Z, (n - k)%Z)
        else shortest fuel' (k + 1)%Z n x
  end.

Fixpoint strip_zeros (fuel : nat) (s e : Z) : Z * Z :=
  match fuel with
  | O => (s, e)
  | S fuel' =>
      if (s mod 10 =? 0)%Z && negb (s =? 0)%Z
      then strip_zeros fuel' (s / 10)%Z (e + 1)%Z
      else (s, e)
  end.

Fixpoint zeros (n : nat) : string :=
  match n with
  | O => ""
  | S n' => "0" ++ zeros n'
  end.

Definition large_toString (x : Z) : string :=
  let n := digits x in
  let '(s0, e0) := shortest (Z.to_nat n) 1 n x in
  let '(s, e) := strip_zeros (Z.to_nat n) s0 e0 in
  let k := digits s in
  if (k + e <=? 21)%Z then pretty s ++ zeros (Z.to_nat e)
  else
    match pretty s with
    | String d rest =>
        String d (if String.eqb rest "" then "" else "." ++ rest)
          ++ "e+" ++ pretty (k + e - 1)%Z
    | EmptyString => ""
    end.

Definition Number_toString (x : Z) : string :=
  if (Z.abs x <? 2 ^ 53)%Z then pretty x
  else if (2 ^ 1024 <=? Z.abs x)%Z
       then (if (x <? 0)%Z then "-Infinity" else "Infinity")
       else (if (x <? 0)%Z then "-" else "") ++ large_toString (Z.abs x).

(** ** The runner and its runtime *)

(** A [NodeJS.Timeout]: the handle [setTimeout] returns.  The only
    [setTimeout] of the class is in [setAllTimeouts]; its callback closes
    over [checkRunId] and [check]. *)
Record Timeout : Type := mkTimeout {
  timer_id : nat;
  timer_delay : Z;
  timer_checkRunId : string;
  timer_check : JsVal;
}.

(** The closure of the [CHECK_FINISHED] listener of [allChecksFinished]. *)
Record Tracker : Type := mkTracker {
  finishedCheckCount : nat;
  numChecks : nat;
}.

(** A task of the queue: [() => this.processMessage(checkRunId, subtopic,
    message)]. *)
Record Job : Type := mkJob {
  job_checkRunId : string;
  job_subtopic : string;
  job_message : JsVal;
}.

(** A [processMessage] suspended in its [run-end] branch, after
    [disableTimeout] and before the assets are fetched. *)
Record Suspended : Type := mkSuspended {
  susp_check : JsVal;
  susp_message : JsVal;
}.

(** Where [run] stands: the [await] it is suspended at.  [Exited]: the
    process has ended on the rejection [err] of a promise that nobody
    handles. *)
Inductive Phase : Type :=
  | Connecting
  | Subscribing
  | Scheduling
  | Awaiting (testSessionId : option string)
  | Returned
  | Exited (err : Thrown).

(** Calls to the collaborators of the runner. *)
Inductive Call : Type :=
  | CallSubscribe (topic : string)
  | CallScheduleChecks (checkRunSuiteId : string)
  | CallSocketEnd.

Record State : Type := mkState {
  (* the fields of AbstractCheckRunner *)
  checks : option (gmap string JsVal);
  timeouts : gmap string Timeout;
  accountId : string;
  timeout : Z;
  verbose : bool;
  (* this.queue: a PQueue with concurrency 1 *)
  queue : list Job;
  queueStarted : bool;
  inflight : option Suspended;
  (* the EventEmitter: what was emitted, and the listener of this class *)
  emitted : list Event;
  listener : option Tracker;
  (* how many times the promise of allChecksFinished was resolved *)
  resolutions : nat;
  (* the timers of the runtime that are armed *)
  timers : gmap nat Timeout;
  nextTimer : nat;
  (* the activation of run() *)
  phase : Phase;
  checkRunSuiteId : string;
  calls : list Call;
}.

Definition set_checks (x : option (gmap string JsVal)) (s : State) : State :=
  mkState x (timeouts s) (accountId s) (timeout s) (verbose s) (queue s)
    (queueStarted s) (inflight s) (emitted s) (listener s) (resolutions s)
    (timers s) (nextTimer s) (phase s) (checkRunSuiteId s) (calls s).

Definition set_timeouts (x : gmap string Timeout) (s : State) : State :=
  mkState (checks s) x (accountId s) (timeout s) (verbose s) (queue s)
    (queueStarted s) (inflight s) (emitted s) (listener s) (resolutions s)
    (timers s) (nextTimer s) (phase s) (checkRunSuiteId s) (calls s).

Definition set_queue (x : list Job) (s : State) : State :=
  mkState (checks s) (timeouts s) (accountId s) (timeout s) (verbose s) x
    (queueStarted s) (inflight s) (emitted s) (listener s) (resolutions s)
    (timers s) (nextTimer s) (phase s) (checkRunSuiteId s) (calls s).

Definition set_queueStarted (x : bool) (s : State) : State :=
  mkState (checks s) (timeouts s) (accountId s) (timeout s) (verbose s) (queue s)
    x (inflight s) (emitted s) (listener s) (resolutions s)
    (timers s) (nextTimer s) (phase s) (checkRunSuiteId s) (calls s).

Definition set_inflight (x : option Suspended) (s : State) : State :=
  mkState (checks s) (timeouts s) (accountId s) (timeout s) (verbose s) (queue s)
    (queueStarted s) x (emitted s) (listener s) (resolutions s)
    (timers s) (nextTimer s) (phase s) (checkRunSuiteId s) (calls s).

Definition set_emitted (x : list Event) (s : State) : State :=
  mkState (checks s) (timeouts s) (accountId s) (timeout s) (verbose s) (queue s)
    (queueStarted s) (inflight s) x (listener s) (resolutions s)
    (timers s) (nextTimer s) (phase s) (checkRunSuiteId s) (calls s).

Definition set_listener (x : option Tracker) (s : State) : State :=
  mkState (checks s) (timeouts s) (accountId s) (timeout s) (verbose s) (queue s)
    (queueStarted s) (inflight s) (emitted s) x (resolutions s)
    (timers s) (nextTimer s) (phase s) (checkRunSuiteId s) (calls s).

Definition set_resolutions (x : nat) (s : State) : State :=
  mkState (checks s) (timeouts s) (accountId s) (timeout s) (verbose s) (queue s)
    (queueStarted s) (inflight s) (emitted s) (listener s) x
    (timers s) (nextTimer s) (phase s) (checkRunSuiteId s) (calls s).

Definition set_timers (x : gmap nat Timeout) (s : State) : State :=
  mkState (checks s) (timeouts s) (accountId s) (timeout s) (verbose s) (queue s)
    (queueStarted s) (inflight s) (emitted s) (listener s) (resolutions s)
    x (nextTimer s) (phase s) (checkRunSuiteId s) (calls s).

Definition set_nextTimer (x : nat) (s : State) : State :=
  mkState (checks s) (timeouts s) (accountId s) (timeout s) (verbose s) (queue s)
    (queueStarted s) (inflight s) (emitted s) (listener s) (resolutions s)
    (timers s) x (phase s) (checkRunSuiteId s) (calls s).

Definition set_phase (x : Phase) (s : State) : State :=
  mkState (checks s) (timeouts s) (accountId s) (timeout s) (verbose s) (queue s)
    (queueStarted s) (inflight s) (emitted s) (listener s) (resolutions s)
    (timers s) (nextTimer s) x (checkRunSuiteId s) (calls s).

Definition set_checkRunSuiteId (x : string) (s : State) : State :=
  mkState (checks s) (timeouts s) (accountId s) (timeout s) (verbose s) (queue s)
    (queueStarted s) (inflight s) (emitted s) (listener s) (resolutions s)
    (timers s) (nextTimer s) (phase s) x (calls s).

Definition set_calls (x : list Call) (s : State) : State :=
  mkState (checks s) (timeouts s) (accountId s) (timeout s) (verbose s) (queue s)
    (queueStarted s) (inflight s) (emitted s) (listener s) (resolutions s)
    (timers s) (nextTimer s) (phase s) (checkRunSuiteId s) x.

(** [new AbstractCheckRunner(accountId, timeout, verbose)], and [run]
    called on it: suspended at [await SocketClient.connect()]. *)
Definition constructor (accountId : string) (timeout : Z) (verbose : bool) : State :=
  {| checks := None; timeouts := ∅; accountId := accountId; timeout := timeout;
     verbose := verbose; queue := []; queueStarted := false; inflight := None;
     emitted := []; listener := None; resolutions := 0;
     timers := ∅; nextTimer := 0;
     phase := Connecting; checkRunSuiteId := ""; calls := [] |}.

(** *** The event emitter *)

(** The listener [allChecksFinished] registers for [CHECK_FINISHED]. *)
Definition on_CHECK_FINISHED (s : State) : State :=
  match listener s with
  | None => s
  | Some tr =>
      let count := S (finishedCheckCount tr) in
      let s1 := set_listener (Some (mkTracker count (numChecks tr))) s in
      if Nat.eqb count (numChecks tr)
      then set_resolutions (S (resolutions s1)) s1
      else s1
  end.

(** [this.emit(event, ...)]: the listeners of the consumer see the event
    (it joins [emitted]), and the listener of the class runs. *)
Definition emit (e : Event) (s : State) : State :=
  let s1 := set_emitted (emitted s ++ [e]) s in
  match e with
  | CHECK_FINISHED _ => on_CHECK_FINISHED s1
  | _ => s1
  end.

(** *** Timers *)

Definition TIMEOUT_MAX : Z := 2 ^ 31 - 1.

(** The delay Node arms a timer with: a delay above [TIMEOUT_MAX] or
    below 1 is set to 1.  (The product [this.timeout * 1000] is exact
    wherever it is a delay Node accepts.) *)
Definition timer_after (delay : Z) : Z :=
  if (1 <=? delay)%Z && (delay <=? TIMEOUT_MAX)%Z then delay else 1%Z.

Definition setTimeout (checkRunId : string) (check : JsVal) (delay : Z)
    (s : State) : Timeout * State :=
  let t := mkTimeout (nextTimer s) (timer_after delay) checkRunId check in
  (t, set_nextTimer (S (nextTimer s)) (set_timers (<[nextTimer s := t]> (timers s)) s)).

(** [clearTimeout(t)]; [t] is [undefined] when the map had no entry. *)
Definition clearTimeout (t : option Timeout) (s : State) : State :=
  match t with
  | Some t => set_timers (delete (timer_id t) (timers s)) s
  | None => s
  end.

Definition disableTimeout (checkRunId : string) (s : State) : State :=
  let t := timeouts s !! checkRunId in
  let s1 := clearTimeout t s in
  set_timeouts (delete checkRunId (timeouts s1)) s1.

Definition disableAllTimeouts (s : State) : State :=
  match checks s with
  | None => s
  | Some cs =>
      foldl (fun s1 entry => disableTimeout (fst entry) s1) s (map_to_list cs)
  end.

Definition timeout_message (s : State) : JsVal :=
  JStr ("Reached timeout of " ++ Number_toString (timeout s)
        ++ " seconds waiting for check result.").

(** The callback [setAllTimeouts] hands to [setTimeout]. *)
Definition timeout_callback (checkRunId : string) (check : JsVal) (s : State) : State :=
  let s1 := set_timeouts (delete checkRunId (timeouts s)) s in
  let s2 := emit (CHECK_FAILED check (timeout_message s1)) s1 in
  emit (CHECK_FINISHED check) s2.

(** The body of the [forEach] of [setAllTimeouts], for one entry
    [[checkRunId, check]] of [this.checks].  The entries are visited in
    the order of [map_to_list]; the order in which the timers of a run are
    created shows in their handles only. *)
Definition arm_timeout (s : State) (entry : string * JsVal) : State :=
  let '(t, s1) := setTimeout (fst entry) (snd entry) (timeout s * 1000) s in
  set_timeouts (<[fst entry := t]> (timeouts s1)) s1.

Definition setAllTimeouts (s : State) : Outcome State :=
  match checks s with
  | None => Throws TypeError
  | Some cs => Returns (foldl arm_timeout s (map_to_list cs))
  end.

(** [allChecksFinished]: the promise is part of the state ([listener] and
    [resolutions]). *)
Definition allChecksFinished (s : State) : Outcome State :=
  match checks s with
  | None => Throws TypeError
  | Some cs =>
      let numChecks := size cs in
      if Nat.eqb numChecks 0
      then Returns (set_resolutions (S (resolutions s)) s)
      else Returns (set_listener (Some (mkTracker 0 numChecks)) s)
  end.

(** ** [processMessage] *)

(** The asset service ([assets] of [../rest/api]); every call may reject. *)
Record Assets : Type := mkAssets {
  getLogs : JsVal -> JsVal -> Outcome JsVal;
  getCheckRunData : JsVal -> JsVal -> Outcome JsVal;
  getAssetsLink : JsVal -> JsVal -> Outcome JsVal;
}.

(** The constants destructured from [result.assets]. *)
Record AssetRefs : Type := mkAssetRefs {
  region : JsVal;
  logPath : JsVal;
  checkRunDataPath : JsVal;
  playwrightTestTraceFiles : JsVal;
  playwrightTestVideoFiles : JsVal;
}.

Definition read_assets (result : JsVal) : Outcome AssetRefs :=
  a <-! get_prop result "assets";
  region <-! get_prop a "region";
  logPath <-! get_prop a "logPath";
  checkRunDataPath <-! get_prop a "checkRunDataPath";
  traces <-! get_prop a "playwrightTestTraceFiles";
  videos <-! get_prop a "playwrightTestVideoFiles";
  Returns (mkAssetRefs region logPath checkRunDataPath traces videos).

(** [this.verbose || result.hasFailures] *)
Definition wants_artifacts (verbose : bool) (result : JsVal) : Outcome bool :=
  if verbose then Returns true
  else hasFailures <-! get_prop result "hasFailures";
       Returns (truthy hasFailures).

(** Lines 126-128. *)
Definition fetch_logs (o : Assets) (verbose : bool) (a : AssetRefs)
    (result : JsVal) : Outcome JsVal :=
  if truthy (logPath a) then
    wanted <-! wants_artifacts verbose result;
    if (wanted : bool)
    then logs <-! getLogs o (region a) (logPath a);
         Returns (set_prop result "logs" logs)
    else Returns result
  else Returns result.

(** Lines 129-131. *)
Definition fetch_checkRunData (o : Assets) (verbose : bool) (a : AssetRefs)
    (result : JsVal) : Outcome JsVal :=
  if truthy (checkRunDataPath a) then
    wanted <-! wants_artifacts verbose result;
    if (wanted : bool)
    then data <-! getCheckRunData o (region a) (checkRunDataPath a);
         Returns (set_prop result "checkRunData" data)
    else Returns result
  else Returns result.

(** [Promise.all]: the values in order, or the first rejection. *)
Fixpoint promise_all {A} (ps : list (Outcome A)) : Outcome (list A) :=
  match ps with
  | [] => Returns []
  | p :: rest =>
      match p, promise_all rest with
      | Returns a, Returns l => Returns (a :: l)
      | Throws e, _ => Throws e
      | _, Throws e => Throws e
      end
  end.

(** [files && files.length] *)
Definition has_items (files : JsVal) : bool :=
  truthy files &&
  match get_prop files "length" with
  | Returns n => truthy n
  | Throws _ => false
  end.

(** [await Promise.all(files.map((t) => assets.getAssetsLink(region, t)))]:
    only an array has [map]. *)
Definition resolve_links (o : Assets) (region files : JsVal) : Outcome JsVal :=
  match files with
  | JArr items =>
      urls <-! promise_all (map (getAssetsLink o region) items);
      Returns (JArr urls)
  | _ => Throws TypeError
  end.

Definition attach_links (o : Assets) (region : JsVal) (name : string)
    (files result : JsVal) : Outcome JsVal :=
  if has_items files
  then urls <-! resolve_links o region files;
       Returns (set_prop result name urls)
  else Returns result.

(** Lines 133-146, the [try] with its empty [catch]: what was attached
    before the failure stays attached. *)
Definition enrich_links (o : Assets) (a : AssetRefs) (result : JsVal) : JsVal :=
  match get_prop result "hasFailures" with
  | Throws _ => result
  | Returns hasFailures =>
      if truthy hasFailures
      then
        match attach_links o (region a) "traceFilesUrls"
                (playwrightTestTraceFiles a) result with
        | Throws _ => result
        | Returns r1 =>
            match attach_links o (region a) "videoFilesUrls"
                    (playwrightTestVideoFiles a) r1 with
            | Throws _ => r1
            | Returns r2 => r2
            end
        end
      else result
  end.

(** Lines 118-146: the result as it is reported, or what is thrown. *)
Definition enrich (o : Assets) (verbose : bool) (message : JsVal) : Outcome JsVal :=
  result <-! get_prop message "result";
  a <-! read_assets result;
  r1 <-! fetch_logs o verbose a result;
  r2 <-! fetch_checkRunData o verbose a r1;
  Returns (enrich_links o a r2).

(** Lines 118-149: the [run-end] branch after [disableTimeout]. *)
Definition report_run_end (o : Assets) (p : Suspended) (s : State)
  : Outcome unit * State :=
  match enrich o (verbose s) (susp_message p) with
  | Returns result =>
      let s1 := emit (CHECK_SUCCESSFUL (susp_check p) result) s in
      (Returns tt, emit (CHECK_FINISHED (susp_check p)) s1)
  | Throws e => (Throws e, s)
  end.

Inductive Progress : Type :=
  | Done (r : Outcome unit)
  | Await (p : Suspended).

(** [this.checks!.get(checkRunId)] on the map of the checks. *)
Definition get_check (cs : gmap string JsVal) (checkRunId : string) : JsVal :=
  default JUndefined (cs !! checkRunId).

(** [processMessage] up to the first point where it can be suspended. *)
Definition processMessage_begin (checkRunId subtopic : string) (message : JsVal)
    (s : State) : Progress * State :=
  match timeouts s !! checkRunId with
  | None => (Done (Returns tt), s)
  | Some _ =>
      match checks s with
      | None => (Done (Throws TypeError), s)
      | Some cs =>
          let check := get_check cs checkRunId in
          if String.eqb subtopic "run-start" then
            (Done (Returns tt), emit (CHECK_INPROGRESS check) s)
          else if String.eqb subtopic "run-end" then
            (Await (mkSuspended check message), disableTimeout checkRunId s)
          else if String.eqb subtopic "error" then
            let s1 := disableTimeout checkRunId s in
            let s2 := emit (CHECK_FAILED check message) s1 in
            (Done (Returns tt), emit (CHECK_FINISHED check) s2)
          else (Done (Returns tt), s)
      end
  end.

(** [processMessage], run to its end against the asset service [o]: what
    it returns or throws, and the state it leaves. *)
Definition processMessage (o : Assets) (checkRunId subtopic : string)
    (message : JsVal) (s : State) : Outcome unit * State :=
  match processMessage_begin checkRunId subtopic message s with
  | (Done r, s1) => (r, s1)
  | (Await p, s1) => report_run_end o p s1
  end.

(** ** The queue

    [this.queue] is a [PQueue] of [concurrency: 1], not started when it
    is made.  [queue.add] puts a task at the end of the queue.  The
    queue, when it is started and no task of it is running, calls the
    task at its head; the task runs, in the turn of whoever made the
    queue call it, until it returns, throws or reaches an [await]. *)

(** [result.hasFailures] as a condition. *)
Definition has_failures (result : JsVal) : bool :=
  match get_prop result "hasFailures" with
  | Returns v => truthy v
  | Throws _ => false
  end.

(** Lines 135-141: the links of [files] are asked for. *)
Definition links_requested (files : JsVal) : bool :=
  has_items files && match files with JArr _ => true | _ => false end.

(** Lines 118-146 reach an [await]: a request goes to the asset service.
    When the links of the traces cannot be asked for ([files.map] is not
    there), the [catch] skips those of the videos. *)
Definition requests_assets (verbose : bool) (message : JsVal) : bool :=
  match get_prop message "result" with
  | Returns result =>
      match read_assets result with
      | Returns a =>
          let wanted := verbose || has_failures result in
          (truthy (logPath a) && wanted)
          || (truthy (checkRunDataPath a) && wanted)
          || (has_failures result
              && (links_requested (playwrightTestTraceFiles a)
                  || (negb (has_items (playwrightTestTraceFiles a))
                      && links_requested (playwrightTestVideoFiles a))))
      | Throws _ => false
      end
  | Throws _ => false
  end.

(** The asset service of a handler that makes no request: what it would
    answer is never looked at. *)
Definition unasked : Assets :=
  mkAssets (fun _ _ => Throws (Rejected "unasked"))
           (fun _ _ => Throws (Rejected "unasked"))
           (fun _ _ => Throws (Rejected "unasked")).

(** What the promise of a task is rejected with, if it is. *)
Definition thrown {A} (r : Outcome A) : option Thrown :=
  match r with
  | Returns _ => None
  | Throws e => Some e
  end.

(** The queue calls the task [job]: [processMessage] up to the point
    where it can be suspended. *)
Definition call_task (job : Job) (s : State) : option Thrown * State :=
  match processMessage_begin (job_checkRunId job) (job_subtopic job)
          (job_message job) s with
  | (Done r, s1) => (thrown r, s1)
  | (Await p, s1) => (None, set_inflight (Some p) s1)
  end.

(** The handler that is suspended goes on, to its end, the asset service
    answering as [o] says. *)
Definition resume_task (o : Assets) (s : State) : option Thrown * State :=
  match inflight s with
  | Some p =>
      let '(r, s1) := report_run_end o p (set_inflight None s) in
      (thrown r, s1)
  | None => (None, s)
  end.

(** The task [job], called when no task is running, until it returns,
    throws or awaits the asset service: a [run-end] handler that makes no
    request runs to its end at once. *)
Definition run_task (job : Job) (s : State) : option Thrown * State :=
  let '(r, s1) := call_task job s in
  match inflight s1 with
  | Some p =>
      if requests_assets (verbose s1) (susp_message p)
      then (r, s1)
      else resume_task unasked s1
  | None => (r, s1)
  end.

(** [_tryToStartAnother] of the queue. *)
Definition start_another (s : State) : option Thrown * State :=
  match queueStarted s, inflight s, queue s with
  | true, None, job :: rest => run_task job (set_queue rest s)
  | _, _, _ => (None, s)
  end.

(** [this.queue.start()]: the first task of the queue, if there is one,
    is called before [start] returns. *)
Definition queue_start (s : State) : option Thrown * State :=
  if queueStarted s then (None, s)
  else start_another (set_queueStarted true s).

(** *** A task that throws

    What a task throws rejects the promise of [queue.add], which nobody
    handles.  The queue goes on at once with the tasks it holds, as long
    as they return or throw without awaiting the asset service: these are
    microtasks.  When they are done, Node finds the rejection unhandled
    and ends the process. *)

(** The tasks of the queue that run before the process ends.  Each round
    takes one task off the queue, and a round does nothing once a handler
    awaits the asset service or the queue is empty. *)
Definition run_queue (s : State) : State :=
  Nat.iter (length (queue s)) (fun s1 => snd (start_another s1)) s.

(** The end of the process: its timers do not fire and its objects are
    gone.  What it has emitted, and the calls it has made, remain. *)
Definition process_exit (e : Thrown) (s : State) : State :=
  set_phase (Exited e)
    (set_inflight None (set_queue [] (set_timers ∅ (set_timeouts ∅ s)))).

(** The end of a turn in which a task has run. *)
Definition settle (r : option Thrown * State) : State :=
  match r with
  | (None, s) => s
  | (Some e, s) => process_exit e (run_queue s)
  end.

(** ** [run] *)

Record Scheduled : Type := mkScheduled {
  sched_testSessionId : option string;
  sched_testResultIds : option (gmap string string);
  sched_checks : gmap string JsVal;
}.

(** The [catch] and [finally] of [run]. *)
Definition run_catch (err : Thrown) (s : State) : State :=
  emit (ERROR err) (disableAllTimeouts s).

Definition run_finally (socketClient : bool) (s : State) : State :=
  set_phase Returned
    (if socketClient then set_calls (calls s ++ [CallSocketEnd]) s else s).

Definition subscription_topic (s : State) : string :=
  "account/" ++ accountId s ++ "/ad-hoc-check-results/"
    ++ checkRunSuiteId s ++ "/+/+".

(** Lines 70-82: from the answer of [scheduleChecks] to
    [await allChecksFinished], with what the task called by
    [queue.start()] has thrown. *)
Definition run_start_checks (r : Scheduled) (s : State)
  : Outcome (option Thrown * State) :=
  let s1 := set_checks (Some (sched_checks r)) s in
  s2 <-! setAllTimeouts s1;
  s3 <-! allChecksFinished s2;
  let '(task, s4) := queue_start s3 in
  let s5 := emit (RUN_STARTED (sched_testSessionId r) (sched_testResultIds r)) s4 in
  Returns (task, set_phase (Awaiting (sched_testSessionId r)) s5).

(** ** The environment *)

Inductive Label : Type :=
  (* SocketClient.connect() settles; uuid.v4() returns [v4] *)
  | Connected (r : Outcome unit) (v4 : string)
  (* socketClient.subscribe(...) settles *)
  | Subscribed (r : Outcome unit)
  (* this.scheduleChecks(checkRunSuiteId) settles *)
  | Dispatched (r : Outcome Scheduled)
  (* the socket delivers a message on the topic
     account/{accountId}/ad-hoc-check-results/{suite}/{checkRunId}/{subtopic};
     [message] is what JSON.parse made of its payload *)
  | Arrive (checkRunId subtopic : string) (message : JsVal)
  (* the queue starts another task: on [queue.add] when no task is
     running, and when a task has settled *)
  | Next
  (* the asset calls of the suspended task settle as [o] says *)
  | Fetched (o : Assets)
  (* the timer [id] expires *)
  | Expire (id : nat)
  (* the continuation of [await allChecksFinished] runs *)
  | Resume.

(** The ['message'] listener is on the socket from
    [configureResultListener] until the socket is ended. *)
Definition listening (s : State) : bool :=
  match phase s with
  | Subscribing | Scheduling | Awaiting _ => true
  | Connecting | Returned | Exited _ => false
  end.

(** One step of the run.  A label that finds nothing to do (an answer
    [run] does not wait for, a message when the socket is closed, a timer
    that is not armed) leaves the state as it is. *)
Definition step (l : Label) (s : State) : State :=
  match l, phase s with
  | Connected (Returns _) v4, Connecting =>
      let s1 := set_checkRunSuiteId v4 s in
      set_phase Subscribing
        (set_calls (calls s1 ++ [CallSubscribe (subscription_topic s1)]) s1)
  | Connected (Throws e) _, Connecting =>
      run_finally false (run_catch e s)
  | Subscribed (Returns _), Subscribing =>
      set_phase Scheduling
        (set_calls (calls s ++ [CallScheduleChecks (checkRunSuiteId s)]) s)
  | Subscribed (Throws e), Subscribing =>
      run_finally true (run_catch e s)
  | Dispatched (Returns r), Scheduling =>
      match run_start_checks r s with
      | Returns started => settle started
      | Throws e => run_finally true (run_catch e (set_checks (Some (sched_checks r)) s))
      end
  | Dispatched (Throws e), Scheduling =>
      run_finally true (run_catch e s)
  | Arrive checkRunId subtopic message, _ =>
      if listening s
      then set_queue (queue s ++ [mkJob checkRunId subtopic message]) s
      else s
  | Next, _ => settle (start_another s)
  | Fetched o, _ => settle (resume_task o s)
  | Expire id, _ =>
      match timers s !! id with
      | Some t =>
          timeout_callback (timer_checkRunId t) (timer_check t)
            (set_timers (delete id (timers s)) s)
      | None => s
      end
  | Resume, Awaiting testSessionId =>
      if Nat.ltb 0 (resolutions s)
      then run_finally true (emit (RUN_FINISHED testSessionId) s)
      else s
  | _, _ => s
  end.

Definition exec (ls : list Label) (s : State) : State :=
  foldl (fun s1 l => step l s1) s ls.

(** The states a run can be in. *)
Definition reachable (s : State) : Prop :=
  exists accountId timeout verbose ls,
    s = exec ls (constructor accountId timeout verbose).

(** ** Invariants of a run *)

(** The registry [this.timeouts] and the armed timers of the runtime
    describe each other: an entry is the handle of an armed timer whose
    callback is for that check, and every armed timer is in the registry. *)
Record registry_ok (s : State) : Prop := mk_registry_ok {
  entry_armed : forall k t, timeouts s !! k = Some t ->
    timers s !! timer_id t = Some t
    /\ timer_checkRunId t = k
    /\ timer_delay t = timer_after (timeout s * 1000);
  entry_check : forall k t, timeouts s !! k = Some t ->
    exists cs, checks s = Some cs /\ cs !! k = Some (timer_check t);
  timer_entry : forall id t, timers s !! id = Some t ->
    timer_id t = id /\ timeouts s !! timer_checkRunId t = Some t;
}.

(** Before [scheduleChecks] has answered, nothing has happened yet. *)
Definition setting_up (s : State) : Prop :=
  phase s = Connecting \/ phase s = Subscribing \/ phase s = Scheduling.

Record pristine (s : State) : Prop := mk_pristine {
  pristine_checks : checks s = None;
  pristine_timeouts : timeouts s = ∅;
  pristine_timers : timers s = ∅;
  pristine_emitted : emitted s = [];
  pristine_inflight : inflight s = None;
  pristine_queueStarted : queueStarted s = false;
  pristine_listener : listener s = None;
  pristine_resolutions : resolutions s = 0;
  pristine_calls : phase s = Connecting -> calls s = [];
}.

(** A run that failed while it was set up. *)
Record failed (e : Thrown) (s : State) : Prop := mk_failed {
  failed_phase : phase s = Returned;
  failed_emitted : emitted s = [ERROR e];
  failed_timeouts : timeouts s = ∅;
  failed_timers : timers s = ∅;
  failed_inflight : inflight s = None;
  failed_queueStarted : queueStarted s = false;
  failed_checks : checks s = None;
}.

(** The state of the completion tracker for [n] checks of which [count]
    are finished. *)
Definition tracker_ok (n count : nat) (s : State) : Prop :=
  if Nat.eqb n 0
  then listener s = None /\ resolutions s = 1
  else listener s = Some (mkTracker count n)
       /\ resolutions s = (if Nat.leb n count then 1 else 0).

(** The checks [cs] are dispatched, and those of [fin] are finished, in
    that order. *)
Record progress (cs : gmap string JsVal) (fin : list string) (s : State)
  : Prop := mk_progress {
  progress_checks : checks s = Some cs;
  progress_nodup : NoDup fin;
  progress_done : forall k, k ∈ fin -> is_Some (cs !! k) /\ timeouts s !! k = None;
  progress_finished : finished_checks (emitted s) = map (get_check cs) fin;
  progress_inflight : forall p, inflight s = Some p ->
    exists k, (k ∉ fin) /\ timeouts s !! k = None /\ cs !! k = Some (susp_check p);
  progress_tracker : tracker_ok (size cs) (length fin) s;
}.

(** Lines 70-79 and the start of the queue, on a run [s] that is set up:
    [s3] is the state in which [queue.start()] calls the first task. *)
Record dispatched (r : Scheduled) (s s3 : State) : Prop := mk_dispatched {
  dispatched_registry : registry_ok s3;
  dispatched_progress : progress (sched_checks r) [] s3;
  dispatched_armed : forall k,
    is_Some (sched_checks r !! k) <-> is_Some (timeouts s3 !! k);
  dispatched_checks : checks s3 = Some (sched_checks r);
  dispatched_emitted : emitted s3 = [];
  dispatched_inflight : inflight s3 = None;
  dispatched_queueStarted : queueStarted s3 = true;
  dispatched_queue : queue s3 = queue s;
  dispatched_phase : phase s3 = phase s;
  dispatched_calls : calls s3 = calls s;
  dispatched_timeout : timeout s3 = timeout s;
  dispatched_verbose : verbose s3 = verbose s;
  dispatched_accountId : accountId s3 = accountId s;
  dispatched_checkRunSuiteId : checkRunSuiteId s3 = checkRunSuiteId s;
  dispatched_resolutions :
    resolutions s3 = (if Nat.eqb (size (sched_checks r)) 0 then 1 else 0);
  dispatched_listener :
    listener s3 = (if Nat.eqb (size (sched_checks r)) 0 then None
                   else Some (mkTracker 0 (size (sched_checks r))));
}.

(** The events of the checks dispatched: [RUN_STARTED] for the session
    [sid], events of checks after it, and before it the events of the
    task that [queue.start()] has called. *)
Definition started_log (sid : option string) (log : list Event) : Prop :=
  exists rids pre evs,
    log = pre ++ RUN_STARTED sid rids :: evs
    /\ forallb is_check_event pre = true
    /\ forallb is_check_event evs = true.

(** [run] awaits the completion of the checks. *)
Definition running (s : State) : Prop :=
  exists sid cs fin,
    phase s = Awaiting sid
    /\ progress cs fin s
    /\ started_log sid (emitted s).

(** [run] has reported the end of the run. *)
Definition finished (s : State) : Prop :=
  exists sid cs fin log,
    phase s = Returned
    /\ progress cs fin s
    /\ emitted s = log ++ [RUN_FINISHED sid]
    /\ started_log sid log
    /\ length fin = size cs
    /\ resolutions s = 1
    /\ timeouts s = ∅ /\ timers s = ∅ /\ inflight s = None.

(** The process has ended while [run] awaited the completion of the
    checks. *)
Definition exited (e : Thrown) (s : State) : Prop :=
  exists sid cs fin,
    phase s = Exited e
    /\ progress cs fin s
    /\ started_log sid (emitted s)
    /\ timeouts s = ∅ /\ timers s = ∅ /\ inflight s = None /\ queue s = [].

Record Inv (s : State) : Prop := mk_Inv {
  inv_registry : registry_ok s;
  inv_setting_up : setting_up s -> pristine s;
  inv_awaiting : forall sid, phase s = Awaiting sid -> running s;
  inv_returned : phase s = Returned -> (exists e, failed e s) \/ finished s;
  inv_exited : forall e, phase s = Exited e -> exited e s;
}.

(** [run] awaits a promise that is resolved while nothing is pending. *)
Record idle (sid : option string) (log : list Event) (s : State) : Prop := mk_idle {
  idle_phase : phase s = Awaiting sid;
  idle_emitted : emitted s = log;
  idle_resolved : 0 < resolutions s;
  idle_timeouts : timeouts s = ∅;
  idle_timers : timers s = ∅;
  idle_inflight : inflight s = None;
}.

(** ** Notions the properties are stated with *)

(** The asset service answers the requests for the logs and for the
    check-run data that [processMessage] makes for this result. *)
Definition artifacts_available (o : Assets) (verbose : bool) (a : AssetRefs)
    (result : JsVal) : Prop :=
  (truthy (logPath a) && (verbose || has_failures result) = true ->
   is_Returns (getLogs o (region a) (logPath a)) = true)
  /\ (truthy (checkRunDataPath a) && (verbose || has_failures result) = true ->
      is_Returns (getCheckRunData o (region a) (checkRunDataPath a)) = true).

(** The step [l] is a failure, with [e], of what [run] awaits in [s]:
    the connection, the subscription or the dispatch. *)
Definition setup_failure (l : Label) (e : Thrown) (s : State) : Prop :=
  (phase s = Connecting /\ exists v4, l = Connected (Throws e) v4)
  \/ (phase s = Subscribing /\ l = Subscribed (Throws e))
  \/ (phase s = Scheduling /\ l = Dispatched (Throws e)).

Definition is_Resume (l : Label) : bool :=
  match l with Resume => true | _ => false end.

Definition is_ERROR (e : Event) : bool :=
  match e with ERROR _ => true | _ => false end.

Definition is_CallScheduleChecks (c : Call) : bool :=
  match c with CallScheduleChecks _ => true | _ => false end.

(** [CHECK_FINISHED] events nobody expects, for the descriptors [cks]. *)
Definition spurious (cks : list JsVal) (s : State) : State :=
  foldl (fun s1 c => emit (CHECK_FINISHED c) s1) s cks.

(** ** A run of two checks *)

Definition demo_checks : gmap string JsVal :=
  <["a" := JStr "A"]> (<["b" := JStr "B"]> ∅).

Definition demo_setup : list Label :=
  [Connected (Returns tt) "suite"; Subscribed (Returns tt);
   Dispatched (Returns (mkScheduled (Some "session") None demo_checks))].

(** Both checks dispatched, their timers armed: 5 seconds. *)
Definition demo_state : State := exec demo_setup (constructor "acc" 5 false).

Definition timer_a : Timeout := mkTimeout 0 5000 "a" (JStr "A").
Definition timer_b : Timeout := mkTimeout 1 5000 "b" (JStr "B").

Definition assets_up : Assets :=
  mkAssets (fun _ _ => Returns (JStr "log lines"))
           (fun _ _ => Returns (JStr "check run data"))
           (fun _ path => Returns path).

Definition assets_logs_down : Assets :=
  mkAssets (fun _ _ => Throws (Rejected "getLogs: 503"))
           (fun _ _ => Returns (JStr "check run data"))
           (fun _ path => Returns path).

Definition assets_data_down : Assets :=
  mkAssets (fun _ _ => Returns (JStr "log lines"))
           (fun _ _ => Throws (Rejected "getCheckRunData: 503"))
           (fun _ path => Returns path).

Definition assets_links_down : Assets :=
  mkAssets (fun _ _ => Returns (JStr "log lines"))
           (fun _ _ => Returns (JStr "check run data"))
           (fun _ _ => Throws (Rejected "getAssetsLink: 404")).

Definition result_passed : JsVal :=
  JObj [("hasFailures", JBool false);
        ("assets", JObj [("region", JStr "eu-west-1")])].

Definition assets_failed : JsVal :=
  JObj [("region", JStr "eu-west-1");
        ("logPath", JStr "logs/a.txt");
        ("checkRunDataPath", JStr "data/a.json");
        ("playwrightTestTraceFiles", JArr [JStr "traces/a.zip"]);
        ("playwrightTestVideoFiles", JArr [JStr "videos/a.webm"])].

Definition result_failed : JsVal :=
  JObj [("hasFailures", JBool true); ("assets", assets_failed)].

Definition refs_failed : AssetRefs :=
  mkAssetRefs (JStr "eu-west-1") (JStr "logs/a.txt") (JStr "data/a.json")
    (JArr [JStr "traces/a.zip"]) (JArr [JStr "videos/a.webm"]).

Definition refs_passed : AssetRefs :=
  mkAssetRefs (JStr "eu-west-1") JUndefined JUndefined JUndefined JUndefined.

(** A result with three trace files and one video. *)
Definition assets_traces : JsVal :=
  JObj [("region", JStr "eu-west-1");
        ("playwrightTestTraceFiles",
         JArr [JStr "traces/1.zip"; JStr "traces/2.zip"; JStr "traces/3.zip"]);
        ("playwrightTestVideoFiles", JArr [JStr "videos/1.webm"])].

Definition result_traces : JsVal :=
  JObj [("hasFailures", JBool true); ("assets", assets_traces)].

Definition refs_traces : AssetRefs :=
  mkAssetRefs (JStr "eu-west-1") JUndefined JUndefined
    (JArr [JStr "traces/1.zip"; JStr "traces/2.zip"; JStr "traces/3.zip"])
    (JArr [JStr "videos/1.webm"]).

Definition message_traces : JsVal := JObj [("result", result_traces)].

(** An asset service that has no link for the file [missing]. *)
Definition assets_without (missing : string) : Assets :=
  mkAssets (fun _ _ => Returns (JStr "log lines"))
           (fun _ _ => Returns (JStr "check run data"))
           (fun _ path =>
              match path with
              | JStr file =>
                  if String.eqb file missing
                  then Throws (Rejected "getAssetsLink: 404")
                  else Returns (JStr ("https://assets/" ++ file))
              | _ => Returns path
              end).

Definition message_passed : JsVal := JObj [("result", result_passed)].
Definition message_failed : JsVal := JObj [("result", result_failed)].

Definition demo_started : Event := RUN_STARTED (Some "session") None.

(** The run up to the dispatch. *)
Definition demo_subscribed : State :=
  exec [Connected (Returns tt) "suite"; Subscribed (Returns tt)]
    (constructor "acc" 5 false).

(** Check ["a"] passes, check ["b"] never answers. *)
Definition demo_events : list Label :=
  [Arrive "a" "run-end" message_passed; Next; Fetched assets_up;
   Expire 1; Resume].

Definition demo_final : State := exec demo_events demo_state.

(** The result of check ["a"] arrives while the dispatch is awaited;
    check ["b"] never answers. *)
Definition demo_early_setup : list Label :=
  [Connected (Returns tt) "suite"; Subscribed (Returns tt);
   Arrive "a" "run-end" message_passed;
   Dispatched (Returns (mkScheduled (Some "session") None demo_checks))].

Definition demo_early_final : State :=
  exec (demo_early_setup ++ [Expire 1; Resume]) (constructor "acc" 5 false).

(** ** The listener of [configureResultListener] *)

(** [s.split(sep)] for a separator of one character. *)
Fixpoint split_on (sep : Ascii.ascii) (s : string) : list string :=
  match s with
  | EmptyString => [EmptyString]
  | String c rest =>
      if Ascii.eqb c sep then EmptyString :: split_on sep rest
      else match split_on sep rest with
           | head :: tail => String c head :: tail
           | [] => [String c EmptyString]
           end
  end.

(** The character [sep] occurs in [s]. *)
Fixpoint has_char (sep : Ascii.ascii) (s : string) : bool :=
  match s with
  | EmptyString => false
  | String c rest => Ascii.eqb c sep || has_char sep rest
  end.

(** Lines 98-103: the task the listener hands to the queue for a message
    on [topic], [message] being the parsed payload.  [None] stands for a
    task whose [checkRunId] or [subtopic] is [undefined] (the topic has
    fewer than six levels): [processMessage] then finds no timer, or no
    branch, and returns. *)
Definition message_job (topic : string) (message : JsVal) : option Job :=
  let topicComponents := split_on "/"%char topic in
  match topicComponents !! 4, topicComponents !! 5 with
  | Some checkRunId, Some subtopic => Some (mkJob checkRunId subtopic message)
  | _, _ => None
  end.

(** The topic a result of the run comes on: the topic of the
    subscription, with [checkRunId] and [subtopic] for its two [+]. *)
Definition result_topic (s : State) (checkRunId subtopic : string) : string :=
  "account/" ++ accountId s ++ "/ad-hoc-check-results/"
    ++ checkRunSuiteId s ++ "/" ++ checkRunId ++ "/" ++ subtopic.

(** The ['message'] listener on a state: [queue.add]. *)
Definition on_message (topic : string) (message : JsVal) (s : State) : State :=
  match message_job topic message with
  | Some job =>
      step (Arrive (job_checkRunId job) (job_subtopic job) (job_message job)) s
  | None => s
  end.

(** ** What the handlers of messages and timers leave alone *)

(** The labels that run a handler of a message or of a timer. *)
Definition is_handler (l : Label) : bool :=
  match l with
  | Arrive _ _ _ | Next | Fetched _ | Expire _ => true
  | _ => false
  end.

(** [s'] is at the same point of the same run as [s]. *)
Record same_run (s s' : State) : Prop := mk_same_run {
  same_phase : phase s' = phase s;
  same_calls : calls s' = calls s;
  same_accountId : accountId s' = accountId s;
  same_checkRunSuiteId : checkRunSuiteId s' = checkRunSuiteId s;
  same_checks : checks s' = checks s;
  same_timeout : timeout s' = timeout s;
  same_verbose : verbose s' = verbose s;
}.

(** The calls [run] has made, by the point it has reached: the
    subscription, then the dispatch for the same suite, and the end of the
    socket last, when there is a socket.  A process that has ended before
    [run] returned has not ended the socket. *)
Definition calls_shape (s : State) : Prop :=
  match phase s with
  | Connecting => calls s = []
  | Subscribing => calls s = [CallSubscribe (subscription_topic s)]
  | Scheduling | Awaiting _ | Exited _ =>
      calls s = [CallSubscribe (subscription_topic s);
                 CallScheduleChecks (checkRunSuiteId s)]
  | Returned =>
      calls s = []
      \/ calls s = [CallSubscribe (subscription_topic s); CallSocketEnd]
      \/ calls s = [CallSubscribe (subscription_topic s);
                    CallScheduleChecks (checkRunSuiteId s); CallSocketEnd]
  end.

(** ** The events of a run *)

(** What one handler emits for a check: the check is in progress, or it
    is reported failed or successful and, right after, finished. *)
Inductive report : list Event -> Prop :=
  | report_in_progress c : report [CHECK_INPROGRESS c]
  | report_failed c message :
      report [CHECK_FAILED c message; CHECK_FINISHED c]
  | report_successful c result :
      report [CHECK_SUCCESSFUL c result; CHECK_FINISHED c].

Inductive reports : list Event -> Prop :=
  | reports_nil : reports []
  | reports_snoc log chunk : reports log -> report chunk -> reports (log ++ chunk).

(** The events of the checks dispatched: [RUN_STARTED] for the session
    [sid], then what the handlers report; before [RUN_STARTED] there is
    what the task called by [queue.start()] has reported, if it has. *)
Definition started_shape (sid : option string) (log : list Event) : Prop :=
  exists rids first body,
    log = first ++ RUN_STARTED sid rids :: body
    /\ (first = [] \/ report first)
    /\ reports body.

(** The events of a run, by the point [run] has reached. *)
Definition log_shape (s : State) : Prop :=
  match phase s with
  | Connecting | Subscribing | Scheduling => emitted s = []
  | Awaiting sid => started_shape sid (emitted s)
  | Returned =>
      (exists e, emitted s = [ERROR e])
      \/ exists sid log,
           emitted s = log ++ [RUN_FINISHED sid] /\ started_shape sid log
  | Exited _ => exists sid, started_shape sid (emitted s)
  end.

(** The checks of the run ([this.checks], empty before the dispatch). *)
Definition run_checks (s : State) : gmap string JsVal := default ∅ (checks s).

(** ** The checks that are accounted for *)

Definition inflight_count (s : State) : nat :=
  match inflight s with Some _ => 1 | None => 0 end.

(** The checks reported finished, those with an entry in the registry,
    and the one whose [run-end] message is being handled. *)
Definition accounted (s : State) : nat :=
  length (finished_checks (emitted s)) + size (timeouts s) + inflight_count s.

(** The check an event is about. *)
Definition event_check (e : Event) : option JsVal :=
  match e with
  | CHECK_REGISTERED c | CHECK_INPROGRESS c | CHECK_FAILED c _
  | CHECK_SUCCESSFUL c _ | CHECK_FINISHED c => Some c
  | _ => None
  end.

(** Every event of [log] that is about a check is about a check of
    [cs]. *)
Definition known_checks (cs : gmap string JsVal) (log : list Event) : Prop :=
  forall e c, e ∈ log -> event_check e = Some c -> exists k, cs !! k = Some c.

(** ** What the handlers do in a turn

    The queue is handed a list of tasks, calls a task, or lets the
    handler that is suspended go on; and so on. *)
Inductive handled : State -> State -> Prop :=
  | handled_refl s : handled s s
  | handled_queue q s s' : handled (set_queue q s) s' -> handled s s'
  | handled_call job s s' :
      inflight s = None -> handled (snd (call_task job s)) s' -> handled s s'
  | handled_resume o s s' :
      handled (snd (resume_task o s)) s' -> handled s s'.

(** * Properties *)

(** ** What the handlers leave alone *)

Create Rewrite HintDb runner.

Ltac frame_emit :=
  intros; unfold emit, on_CHECK_FINISHED;
  repeat match goal with
         | |- context [match ?e with _ => _ end] => destruct e; simpl
         end;
  reflexivity.

Lemma emit_emitted e s : emitted (emit e s) = emitted s ++ [e].
Proof. frame_emit. Qed.
Lemma emit_checks e s : checks (emit e s) = checks s.
Proof. frame_emit. Qed.
Lemma emit_timeouts e s : timeouts (emit e s) = timeouts s.
Proof. frame_emit. Qed.
Lemma emit_timers e s : timers (emit e s) = timers s.
Proof. frame_emit. Qed.
Lemma emit_timeout e s : timeout (emit e s) = timeout s.
Proof. frame_emit. Qed.
Lemma emit_verbose e s : verbose (emit e s) = verbose s.
Proof. frame_emit. Qed.
Lemma emit_inflight e s : inflight (emit e s) = inflight s.
Proof. frame_emit. Qed.
Lemma emit_phase e s : phase (emit e s) = phase s.
Proof. frame_emit. Qed.
Lemma emit_calls e s : calls (emit e s) = calls s.
Proof. frame_emit. Qed.
Lemma emit_queueStarted e s : queueStarted (emit e s) = queueStarted s.
Proof. frame_emit. Qed.

(** Only [CHECK_FINISHED] reaches the listener of the class. *)
Lemma emit_listener e s :
  (forall c, e <> CHECK_FINISHED c) ->
  listener (emit e s) = listener s /\ resolutions (emit e s) = resolutions s.
Proof. intros H. destruct e; try (split; reflexivity). destruct (H check eq_refl). Qed.

Lemma emit_CHECK_FINISHED_idle c s :
  listener s = None ->
  listener (emit (CHECK_FINISHED c) s) = None
  /\ resolutions (emit (CHECK_FINISHED c) s) = resolutions s.
Proof. intros H. unfold emit, on_CHECK_FINISHED. simpl. rewrite H. auto. Qed.

Lemma emit_CHECK_FINISHED_counts c s count n :
  listener s = Some (mkTracker count n) ->
  listener (emit (CHECK_FINISHED c) s) = Some (mkTracker (S count) n)
  /\ resolutions (emit (CHECK_FINISHED c) s)
     = resolutions s + (if Nat.eqb (S count) n then 1 else 0).
Proof.
  intros H. unfold emit, on_CHECK_FINISHED.
  cbn [listener set_emitted]. rewrite H. cbn [finishedCheckCount numChecks].
  destruct (Nat.eqb (S count) n); simpl; (split; [reflexivity | lia]).
Qed.

#[local] Hint Rewrite emit_emitted emit_checks emit_timeouts emit_timers
  emit_timeout emit_verbose emit_inflight emit_phase emit_calls
  emit_queueStarted : runner.

Lemma disableTimeout_timeouts k s :
  timeouts (disableTimeout k s) = delete k (timeouts s).
Proof. unfold disableTimeout, clearTimeout. destruct (timeouts s !! k); reflexivity. Qed.

Lemma disableTimeout_timers k s :
  timers (disableTimeout k s)
  = match timeouts s !! k with
    | Some t => delete (timer_id t) (timers s)
    | None => timers s
    end.
Proof. unfold disableTimeout, clearTimeout. destruct (timeouts s !! k); reflexivity. Qed.

Ltac frame_disable :=
  intros; unfold disableTimeout, clearTimeout;
  match goal with
  | |- context [timeouts ?s !! ?k] => destruct (timeouts s !! k)
  end; reflexivity.

Lemma disableTimeout_emitted k s : emitted (disableTimeout k s) = emitted s.
Proof. frame_disable. Qed.
Lemma disableTimeout_checks k s : checks (disableTimeout k s) = checks s.
Proof. frame_disable. Qed.
Lemma disableTimeout_timeout k s : timeout (disableTimeout k s) = timeout s.
Proof. frame_disable. Qed.
Lemma disableTimeout_verbose k s : verbose (disableTimeout k s) = verbose s.
Proof. frame_disable. Qed.
Lemma disableTimeout_inflight k s : inflight (disableTimeout k s) = inflight s.
Proof. frame_disable. Qed.
Lemma disableTimeout_listener k s : listener (disableTimeout k s) = listener s.
Proof. frame_disable. Qed.
Lemma disableTimeout_resolutions k s : resolutions (disableTimeout k s) = resolutions s.
Proof. frame_disable. Qed.
Lemma disableTimeout_phase k s : phase (disableTimeout k s) = phase s.
Proof. frame_disable. Qed.
Lemma disableTimeout_calls k s : calls (disableTimeout k s) = calls s.
Proof. frame_disable. Qed.
Lemma disableTimeout_queueStarted k s : queueStarted (disableTimeout k s) = queueStarted s.
Proof. frame_disable. Qed.

Lemma emit_accountId e s : accountId (emit e s) = accountId s.
Proof. frame_emit. Qed.
Lemma emit_checkRunSuiteId e s : checkRunSuiteId (emit e s) = checkRunSuiteId s.
Proof. frame_emit. Qed.
Lemma emit_queue e s : queue (emit e s) = queue s.
Proof. frame_emit. Qed.
Lemma emit_nextTimer e s : nextTimer (emit e s) = nextTimer s.
Proof. frame_emit. Qed.
Lemma disableTimeout_accountId k s : accountId (disableTimeout k s) = accountId s.
Proof. frame_disable. Qed.
Lemma disableTimeout_checkRunSuiteId k s :
  checkRunSuiteId (disableTimeout k s) = checkRunSuiteId s.
Proof. frame_disable. Qed.
Lemma disableTimeout_queue k s : queue (disableTimeout k s) = queue s.
Proof. frame_disable. Qed.
Lemma disableTimeout_nextTimer k s : nextTimer (disableTimeout k s) = nextTimer s.
Proof. frame_disable. Qed.

#[local] Hint Rewrite emit_accountId emit_checkRunSuiteId emit_queue
  emit_nextTimer disableTimeout_accountId disableTimeout_checkRunSuiteId
  disableTimeout_queue disableTimeout_nextTimer : runner.

#[local] Hint Rewrite disableTimeout_timeouts disableTimeout_emitted
  disableTimeout_checks disableTimeout_timeout disableTimeout_verbose
  disableTimeout_inflight disableTimeout_listener disableTimeout_resolutions
  disableTimeout_phase disableTimeout_calls disableTimeout_queueStarted : runner.

(** Read the fields of a state that setters, [emit] and [disableTimeout]
    were applied to. *)
Ltac fields :=
  repeat (progress
    (cbn [checks timeouts accountId timeout verbose queue queueStarted
          inflight emitted listener resolutions timers nextTimer phase
          checkRunSuiteId calls
          set_checks set_timeouts set_queue set_queueStarted set_inflight
          set_emitted set_listener set_resolutions set_timers set_nextTimer
          set_phase set_checkRunSuiteId set_calls];
     autorewrite with runner)).

(** ** JavaScript values *)

Lemma own_prop_put_prop_ne name name' x fields :
  name <> name' -> own_prop name' (put_prop name x fields) = own_prop name' fields.
Proof.
  intros Hne. induction fields as [|[k v] rest IH]; simpl.
  - destruct (String.eqb_spec name name'); congruence.
  - destruct (String.eqb_spec k name) as [->|Hk]; simpl.
    + destruct (String.eqb_spec name name'); congruence.
    + destruct (String.eqb_spec k name'); auto.
Qed.

Lemma own_prop_put_prop_eq name x fields :
  own_prop name (put_prop name x fields) = x.
Proof.
  induction fields as [|[k v] rest IH]; simpl.
  - now rewrite String.eqb_refl.
  - destruct (String.eqb_spec k name) as [->|Hk]; simpl.
    + now rewrite String.eqb_refl.
    + destruct (String.eqb_spec k name); congruence.
Qed.

(** Attaching an artifact leaves the other properties of the result as
    they are. *)
Lemma get_prop_set_prop_ne v name name' x :
  name <> name' -> get_prop (set_prop v name x) name' = get_prop v name'.
Proof.
  intros Hne. destruct v; simpl; try reflexivity.
  now rewrite own_prop_put_prop_ne.
Qed.

Lemma finished_checks_app l1 l2 :
  finished_checks (l1 ++ l2) = finished_checks l1 ++ finished_checks l2.
Proof.
  induction l1 as [|e l1 IH]; simpl; [reflexivity|].
  destruct e; simpl; rewrite ?IH; reflexivity.
Qed.

(** ** The registry and the timers *)

Lemma registry_ok_frame s s' :
  timeouts s' = timeouts s -> timers s' = timers s ->
  checks s' = checks s -> timeout s' = timeout s ->
  registry_ok s -> registry_ok s'.
Proof.
  intros Ht Hr Hc Hto [H1 H2 H3].
  split; rewrite ?Ht, ?Hr, ?Hc, ?Hto; assumption.
Qed.

(** Cancelling a timer and its firing both take the entry and the timer
    away together. *)
Lemma registry_ok_remove s s' k t :
  registry_ok s -> timeouts s !! k = Some t ->
  timeouts s' = delete k (timeouts s) ->
  timers s' = delete (timer_id t) (timers s) ->
  checks s' = checks s -> timeout s' = timeout s ->
  registry_ok s'.
Proof.
  intros [H1 H2 H3] Hk Ht Hr Hc Hto.
  split; rewrite ?Ht, ?Hr, ?Hc, ?Hto.
  - intros k' t' Hk'.
    apply lookup_delete_Some in Hk' as [Hne Hk'].
    destruct (H1 _ _ Hk') as (Ha & Hb & Hd).
    split; [|auto].
    rewrite lookup_delete_ne; [assumption|].
    intros Heq. destruct (H1 _ _ Hk) as (Ha' & Hb' & _).
    rewrite Heq in Ha'. congruence.
  - intros k' t' Hk'.
    apply lookup_delete_Some in Hk' as [Hne Hk']. eauto.
  - intros id t' Hid.
    apply lookup_delete_Some in Hid as [Hne Hid].
    destruct (H3 _ _ Hid) as [Ha Hb].
    split; [assumption|].
    rewrite lookup_delete_ne; [assumption|].
    intros Heq. rewrite <- Heq in Hb. congruence.
Qed.

Lemma registry_ok_disableTimeout k s :
  registry_ok s -> registry_ok (disableTimeout k s).
Proof.
  intros H. destruct (timeouts s !! k) as [t|] eqn:Hk.
  - apply (registry_ok_remove s _ k t); auto.
    + apply disableTimeout_timeouts.
    + rewrite disableTimeout_timers, Hk. reflexivity.
    + apply disableTimeout_checks.
    + apply disableTimeout_timeout.
  - apply (registry_ok_frame s); auto.
    + rewrite disableTimeout_timeouts. now apply delete_id.
    + rewrite disableTimeout_timers, Hk. reflexivity.
    + apply disableTimeout_checks.
    + apply disableTimeout_timeout.
Qed.

(** After [disableTimeout] no armed timer is left for the check. *)
Lemma disableTimeout_cancels k s :
  registry_ok s ->
  timeouts (disableTimeout k s) !! k = None
  /\ forall id t, timers (disableTimeout k s) !! id = Some t ->
                  timer_checkRunId t <> k.
Proof.
  intros H. split.
  - rewrite disableTimeout_timeouts. apply lookup_delete_eq.
  - intros id t Hid Heq.
    destruct (timer_entry _ (registry_ok_disableTimeout k s H) _ _ Hid) as [_ Hin].
    rewrite Heq, disableTimeout_timeouts, lookup_delete_eq in Hin. discriminate.
Qed.

Lemma timeout_callback_timeouts k c s :
  timeouts (timeout_callback k c s) = delete k (timeouts s).
Proof. unfold timeout_callback. now autorewrite with runner. Qed.

Lemma timeout_callback_timers k c s :
  timers (timeout_callback k c s) = timers s.
Proof. unfold timeout_callback. now autorewrite with runner. Qed.

Lemma timeout_callback_emitted k c s :
  emitted (timeout_callback k c s)
  = emitted s ++ [CHECK_FAILED c (timeout_message s); CHECK_FINISHED c].
Proof.
  unfold timeout_callback. autorewrite with runner. simpl.
  now rewrite <- app_assoc.
Qed.

(** *** Arming the timers *)

Section Arming.
Variable s0 : State.
Hypothesis no_entry : timeouts s0 = ∅.
Hypothesis no_timer : timers s0 = ∅.

Let armed (l : list (string * JsVal)) : State := foldl arm_timeout s0 l.

Lemma armed_snoc l entry : armed (l ++ [entry]) = arm_timeout (armed l) entry.
Proof. unfold armed. now rewrite foldl_app. Qed.

Lemma arm_timeout_frame s entry :
  checks (arm_timeout s entry) = checks s
  /\ timeout (arm_timeout s entry) = timeout s
  /\ emitted (arm_timeout s entry) = emitted s
  /\ listener (arm_timeout s entry) = listener s
  /\ resolutions (arm_timeout s entry) = resolutions s
  /\ inflight (arm_timeout s entry) = inflight s
  /\ phase (arm_timeout s entry) = phase s
  /\ calls (arm_timeout s entry) = calls s.
Proof. repeat split. Qed.

Lemma armed_frame l :
  checks (armed l) = checks s0
  /\ timeout (armed l) = timeout s0
  /\ emitted (armed l) = emitted s0
  /\ listener (armed l) = listener s0
  /\ resolutions (armed l) = resolutions s0
  /\ inflight (armed l) = inflight s0
  /\ phase (armed l) = phase s0
  /\ calls (armed l) = calls s0.
Proof.
  induction l as [|entry l IH] using rev_ind; [repeat split|].
  rewrite armed_snoc.
  destruct IH as (H1 & H2 & H3 & H4 & H5 & H6 & H7 & H8).
  destruct (arm_timeout_frame (armed l) entry)
    as (G1 & G2 & G3 & G4 & G5 & G6 & G7 & G8).
  repeat split; congruence.
Qed.

Lemma armed_spec l :
  NoDup l.*1 ->
  (forall k t, timeouts (armed l) !! k = Some t ->
     timers (armed l) !! timer_id t = Some t
     /\ timer_checkRunId t = k
     /\ timer_delay t = timer_after (timeout s0 * 1000)
     /\ (k, timer_check t) ∈ l)
  /\ (forall id t, timers (armed l) !! id = Some t ->
        timer_id t = id
        /\ timeouts (armed l) !! timer_checkRunId t = Some t
        /\ id < nextTimer (armed l))
  /\ (forall k c, (k, c) ∈ l -> is_Some (timeouts (armed l) !! k)).
Proof.
  induction l as [|[k c] l IH] using rev_ind; intros Hnd.
  - unfold armed; simpl. rewrite no_entry, no_timer.
    repeat split; intros *; rewrite ?lookup_empty; try discriminate.
    intros H. inversion H.
  - rewrite fmap_app in Hnd. apply NoDup_app in Hnd as (Hnd & Hfresh & _).
    destruct (IH Hnd) as (Ha & Hb & Hc). clear IH.
    assert (Hk : timeouts (armed l) !! k = None).
    { destruct (timeouts (armed l) !! k) as [t|] eqn:E; [|reflexivity].
      destruct (Ha _ _ E) as (_ & _ & _ & Hin).
      exfalso. apply (Hfresh k).
      - apply list_elem_of_fmap. now exists (k, timer_check t).
      - simpl. apply list_elem_of_here. }
    destruct (armed_frame l) as (_ & Hto & _).
    rewrite armed_snoc. unfold arm_timeout, setTimeout. simpl.
    set (t0 := mkTimeout _ _ _ _).
    split; [|split].
    + intros k' t'. rewrite lookup_insert.
      case_decide as Hkk.
      * intros [= <-]. subst k'. simpl.
        rewrite lookup_insert_eq. repeat split; auto.
        -- now rewrite Hto.
        -- apply elem_of_app. right. apply list_elem_of_here.
      * intros E. destruct (Ha _ _ E) as (Ha1 & Ha2 & Ha3 & Ha4).
        repeat split; auto.
        -- destruct (Hb _ _ Ha1) as (_ & _ & Hlt).
           rewrite lookup_insert_ne; [assumption | lia].
        -- apply elem_of_app. now left.
    + intros id t'. rewrite lookup_insert.
      case_decide as Hid.
      * intros [= <-]. subst id. simpl.
        rewrite lookup_insert_eq. repeat split; auto.
      * intros E. destruct (Hb _ _ E) as (Hb1 & Hb2 & Hb3).
        repeat split; auto.
        rewrite lookup_insert_ne; [assumption|].
        intros Heq. rewrite <- Heq in Hb2. congruence.
    + intros k' c' Hin. apply elem_of_app in Hin as [Hin|Hin].
      * destruct (decide (k = k')) as [->|Hne].
        -- rewrite lookup_insert_eq. eauto.
        -- rewrite lookup_insert_ne by assumption. eauto.
      * apply list_elem_of_singleton in Hin. injection Hin as -> ->.
        rewrite lookup_insert_eq. eauto.
Qed.
End Arming.

(** [setAllTimeouts] on the checks just dispatched: one armed timer per
    check, of [timeout * 1000] milliseconds. *)
Lemma setAllTimeouts_spec s cs :
  checks s = Some cs -> timeouts s = ∅ -> timers s = ∅ ->
  exists s1,
    setAllTimeouts s = Returns s1
    /\ registry_ok s1
    /\ (forall k, is_Some (cs !! k) <-> is_Some (timeouts s1 !! k))
    /\ checks s1 = Some cs
    /\ timeout s1 = timeout s
    /\ emitted s1 = emitted s
    /\ listener s1 = listener s
    /\ resolutions s1 = resolutions s
    /\ inflight s1 = inflight s
    /\ phase s1 = phase s
    /\ calls s1 = calls s.
Proof.
  intros Hcs He Ht. unfold setAllTimeouts. rewrite Hcs.
  eexists; split; [reflexivity|].
  destruct (armed_spec s He Ht (map_to_list cs) (NoDup_fst_map_to_list cs))
    as (Ha & Hb & Hc).
  destruct (armed_frame s (map_to_list cs))
    as (H1 & H2 & H3 & H4 & H5 & H6 & H7 & H8).
  split; [split|split; [intros k; split|repeat split; congruence]].
  - intros k t E. destruct (Ha _ _ E) as (A1 & A2 & A3 & A4).
    rewrite H2. auto.
  - intros k t E. destruct (Ha _ _ E) as (A1 & A2 & A3 & A4).
    exists cs. split; [congruence|]. now apply elem_of_map_to_list.
  - intros id t E. destruct (Hb _ _ E) as (? & ? & ?). auto.
  - intros [c E]. apply (Hc k c). now apply elem_of_map_to_list.
  - intros [t E]. destruct (Ha _ _ E) as (_ & _ & _ & A4).
    apply elem_of_map_to_list in A4. eauto.
Qed.

(** ** Counting the finished checks *)

Lemma finished_within (cs : gmap string JsVal) (fin : list string) :
  NoDup fin -> (forall k, k ∈ fin -> is_Some (cs !! k)) ->
  length fin <= size cs.
Proof.
  intros Hnd Hin.
  rewrite <- (size_list_to_set (C := gset string) fin Hnd).
  rewrite <- (size_dom (D := gset string) cs).
  apply subseteq_size. intros k Hk.
  apply elem_of_list_to_set in Hk. apply elem_of_dom. auto.
Qed.

Lemma finished_all (cs : gmap string JsVal) (fin : list string) :
  NoDup fin -> (forall k, k ∈ fin -> is_Some (cs !! k)) ->
  length fin = size cs ->
  forall k, is_Some (cs !! k) -> k ∈ fin.
Proof.
  intros Hnd Hin Hlen k Hk.
  assert (Heq : list_to_set (C := gset string) fin = dom cs).
  { apply set_subseteq_size_eq.
    - intros x Hx. apply elem_of_list_to_set in Hx. apply elem_of_dom. auto.
    - rewrite size_dom, size_list_to_set by assumption. lia. }
  apply (elem_of_list_to_set (C := gset string)). rewrite Heq.
  now apply elem_of_dom.
Qed.

Lemma progress_bound cs fin s : progress cs fin s -> length fin <= size cs.
Proof.
  intros H. apply finished_within; [apply H|].
  intros k Hk. now destruct (progress_done _ _ _ H k Hk).
Qed.

(** A step that touches neither the registry nor the tracker, and emits
    no [CHECK_FINISHED]. *)
Lemma progress_frame cs fin s s' :
  progress cs fin s ->
  checks s' = checks s -> timeouts s' = timeouts s ->
  finished_checks (emitted s') = finished_checks (emitted s) ->
  (forall p, inflight s' = Some p -> inflight s = Some p) ->
  listener s' = listener s -> resolutions s' = resolutions s ->
  progress cs fin s'.
Proof.
  intros [H1 H2 H3 H4 H5 H6] Hc Ht He Hi Hl Hr.
  split; rewrite ?Hc, ?Ht, ?He; auto.
  unfold tracker_ok in *. now rewrite Hl, Hr.
Qed.

(** A [run-end] message is taken up: the timer of [k] is cancelled and
    the handler waits for the assets. *)
Lemma progress_suspend cs fin s s' k t p :
  progress cs fin s ->
  timeouts s !! k = Some t -> cs !! k = Some (susp_check p) ->
  checks s' = checks s -> timeouts s' = delete k (timeouts s) ->
  emitted s' = emitted s -> inflight s' = Some p ->
  listener s' = listener s -> resolutions s' = resolutions s ->
  progress cs fin s'.
Proof.
  intros [H1 H2 H3 H4 H5 H6] Hk Hc Hcs Hts Hem Hi Hl Hr.
  split; rewrite ?Hcs, ?Hts, ?Hem; auto.
  - intros x Hx. destruct (H3 x Hx) as [Ha Hb]. split; [auto|].
    apply lookup_delete_None. now right.
  - intros p' Hp'. rewrite Hi in Hp'. injection Hp' as <-.
    exists k. repeat split; auto.
    + intros Hin. destruct (H3 k Hin). congruence.
    + apply lookup_delete_eq.
  - unfold tracker_ok in *. now rewrite Hl, Hr.
Qed.

(** The check [k] is reported: [CHECK_FINISHED] after one other event. *)
Lemma progress_finish cs fin s s1 k c e :
  progress cs fin s ->
  k ∉ fin -> cs !! k = Some c ->
  (forall c', e <> CHECK_FINISHED c') ->
  checks s1 = checks s ->
  timeouts s1 = delete k (timeouts s) ->
  emitted s1 = emitted s ->
  listener s1 = listener s -> resolutions s1 = resolutions s ->
  (forall p, inflight s1 = Some p ->
     exists k', (k' ∉ fin) /\ k' <> k /\ timeouts s !! k' = None
                /\ cs !! k' = Some (susp_check p)) ->
  progress cs (fin ++ [k]) (emit (CHECK_FINISHED c) (emit e s1)).
Proof.
  intros Hp Hk Hc He Hcs Hts Hem Hl Hr Hinf.
  pose proof (progress_bound _ _ _ Hp) as Hle.
  destruct Hp as [H1 H2 H3 H4 H5 H6].
  assert (Hnd : NoDup (fin ++ [k])).
  { apply NoDup_app. repeat split; auto.
    - intros x Hx Hx'. apply list_elem_of_singleton in Hx'. now subst.
    - apply NoDup_singleton. }
  assert (Hin : forall x, x ∈ fin ++ [k] -> is_Some (cs !! x)).
  { intros x Hx. apply elem_of_app in Hx as [Hx|Hx].
    - now destruct (H3 x Hx).
    - apply list_elem_of_singleton in Hx. subst. eauto. }
  pose proof (finished_within cs _ Hnd Hin) as Hlt.
  rewrite length_app in Hlt. simpl in Hlt.
  split; autorewrite with runner; rewrite ?Hcs, ?Hts; auto.
  - intros x Hx. split; [auto|].
    apply elem_of_app in Hx as [Hx|Hx].
    + destruct (H3 x Hx) as [_ Hn].
      apply lookup_delete_None. now right.
    + apply list_elem_of_singleton in Hx. subst. apply lookup_delete_eq.
  - rewrite Hem, !finished_checks_app, H4, map_app. simpl.
    unfold get_check at 3. rewrite Hc. simpl.
    destruct e; simpl; rewrite ?app_nil_r; try reflexivity.
    destruct (He check eq_refl).
  - intros p Hp. destruct (Hinf p Hp) as (k' & A1 & A2 & A3 & A4).
    exists k'. repeat split; auto.
    + intros Hx. apply elem_of_app in Hx as [Hx|Hx]; [auto|].
      apply list_elem_of_singleton in Hx. auto.
    + apply lookup_delete_None. now right.
  - unfold tracker_ok in *.
    destruct (Nat.eqb_spec (size cs) 0) as [Hz|Hnz]; [lia|].
    destruct H6 as [Hls Hrs].
    destruct (emit_listener e s1 He) as [El Er].
    destruct (emit_CHECK_FINISHED_counts c (emit e s1) (length fin) (size cs))
      as [Fl Fr]; [congruence|].
    rewrite Fl, Fr, Er, Hr, Hrs, length_app. cbn [length].
    split; [f_equal; f_equal; lia|].
    destruct (Nat.leb_spec (size cs) (length fin)); [lia|].
    destruct (Nat.eqb_spec (S (length fin)) (size cs));
      destruct (Nat.leb_spec (size cs) (length fin + 1)); lia.
Qed.

(** When the promise of [allChecksFinished] is resolved, every check is
    finished and nothing is pending. *)
Lemma progress_resolved cs fin s :
  progress cs fin s -> registry_ok s -> 0 < resolutions s ->
  length fin = size cs /\ resolutions s = 1
  /\ timeouts s = ∅ /\ timers s = ∅ /\ inflight s = None.
Proof.
  intros Hp Hreg Hres.
  pose proof (progress_bound _ _ _ Hp) as Hle.
  assert (Hlen : length fin = size cs /\ resolutions s = 1).
  { pose proof (progress_tracker _ _ _ Hp) as Ht. unfold tracker_ok in Ht.
    destruct (Nat.eqb_spec (size cs) 0); [lia|].
    destruct Ht as [_ Ht].
    destruct (Nat.leb_spec (size cs) (length fin)); lia. }
  destruct Hlen as [Hlen Hone].
  assert (Hall : forall k, is_Some (cs !! k) -> k ∈ fin).
  { apply finished_all; auto; [apply Hp|].
    intros k Hk. now destruct (progress_done _ _ _ Hp k Hk). }
  assert (Hts : timeouts s = ∅).
  { apply map_empty. intros k.
    destruct (timeouts s !! k) as [t|] eqn:E; [|reflexivity].
    destruct (entry_check _ Hreg _ _ E) as (cs' & Hcs' & Hk).
    rewrite (progress_checks _ _ _ Hp) in Hcs'. injection Hcs' as <-.
    assert (Hin : k ∈ fin) by (apply Hall; eauto).
    destruct (progress_done _ _ _ Hp k Hin). congruence. }
  repeat split; auto.
  - apply map_empty. intros id.
    destruct (timers s !! id) as [t|] eqn:E; [|reflexivity].
    destruct (timer_entry _ Hreg _ _ E) as [_ Hin].
    rewrite Hts, lookup_empty in Hin. discriminate.
  - destruct (inflight s) as [p|] eqn:E; [|reflexivity].
    destruct (progress_inflight _ _ _ Hp p E) as (k & A1 & _ & A3).
    exfalso. apply A1, Hall. eauto.
Qed.

(** ** One step of a run *)

Lemma step_Arrive k sub m s :
  step (Arrive k sub m) s
  = if listening s then set_queue (queue s ++ [mkJob k sub m]) s else s.
Proof. unfold step. destruct (phase s); reflexivity. Qed.

Lemma step_Next s : step Next s = settle (start_another s).
Proof. unfold step. destruct (phase s); reflexivity. Qed.

Lemma step_Fetched o s : step (Fetched o) s = settle (resume_task o s).
Proof. unfold step. destruct (phase s); reflexivity. Qed.

Lemma step_Expire id s :
  step (Expire id) s
  = match timers s !! id with
    | Some t =>
        timeout_callback (timer_checkRunId t) (timer_check t)
          (set_timers (delete id (timers s)) s)
    | None => s
    end.
Proof. unfold step. destruct (phase s); reflexivity. Qed.

Lemma step_Resume s :
  step Resume s
  = match phase s with
    | Awaiting testSessionId =>
        if Nat.ltb 0 (resolutions s)
        then run_finally true (emit (RUN_FINISHED testSessionId) s)
        else s
    | _ => s
    end.
Proof. unfold step. destruct (phase s); reflexivity. Qed.

(** The three answers [run] waits for while it sets the run up are
    ignored once it is past them. *)
Lemma step_setup_late l s :
  match l with
  | Connected _ _ | Subscribed _ | Dispatched _ => True
  | _ => False
  end ->
  ~ setting_up s -> step l s = s.
Proof.
  intros Hl Hs. unfold setting_up in Hs.
  destruct l; try contradiction; unfold step;
    destruct r; destruct (phase s); try reflexivity; tauto.
Qed.

(** A message handled when no timer is armed for its check. *)
Lemma processMessage_begin_discard k sub m s :
  timeouts s !! k = None ->
  processMessage_begin k sub m s = (Done (Returns tt), s).
Proof. intros H. unfold processMessage_begin. now rewrite H. Qed.

(** ** The turns of the queue *)

Lemma set_inflight_same s : set_inflight (inflight s) s = s.
Proof. now destruct s. Qed.

Lemma set_queue_same s : set_queue (queue s) s = s.
Proof. now destruct s. Qed.

Lemma processMessage_begin_inflight k sub m s :
  inflight (snd (processMessage_begin k sub m s)) = inflight s.
Proof.
  unfold processMessage_begin.
  destruct (timeouts s !! k); [|reflexivity].
  destruct (checks s); [|reflexivity].
  destruct (String.eqb sub "run-start"); [cbn [snd]; now fields|].
  destruct (String.eqb sub "run-end"); [cbn [snd]; now fields|].
  destruct (String.eqb sub "error"); cbn [snd]; now fields.
Qed.

(** A task that is called with no timer for its check returns at once. *)
Lemma call_task_discard job s :
  timeouts s !! job_checkRunId job = None -> call_task job s = (None, s).
Proof.
  intros H. unfold call_task. now rewrite processMessage_begin_discard.
Qed.

Lemma run_task_discard job s :
  timeouts s !! job_checkRunId job = None -> inflight s = None ->
  run_task job s = (None, s).
Proof.
  intros H Hi. unfold run_task. rewrite call_task_discard by assumption.
  now rewrite Hi.
Qed.

Lemma handled_trans s1 s2 s3 : handled s1 s2 -> handled s2 s3 -> handled s1 s3.
Proof.
  intros H12 H23. induction H12.
  - assumption.
  - apply (handled_queue q). auto.
  - apply (handled_call job); auto.
  - apply (handled_resume o). auto.
Qed.

Lemma call_task_handled job s :
  inflight s = None -> handled s (snd (call_task job s)).
Proof. intros H. apply (handled_call job); [assumption | apply handled_refl]. Qed.

Lemma resume_task_handled o s : handled s (snd (resume_task o s)).
Proof. apply (handled_resume o), handled_refl. Qed.

Lemma run_task_handled job s :
  inflight s = None -> handled s (snd (run_task job s)).
Proof.
  intros H. unfold run_task.
  pose proof (call_task_handled job s H) as Hc.
  destruct (call_task job s) as [r s1]. cbn [snd] in Hc.
  destruct (inflight s1) as [p|]; [|exact Hc].
  destruct (requests_assets (verbose s1) (susp_message p)); [exact Hc|].
  apply (handled_trans _ s1); [exact Hc | apply resume_task_handled].
Qed.

Lemma start_another_handled s : handled s (snd (start_another s)).
Proof.
  unfold start_another.
  destruct (queueStarted s); [|apply handled_refl].
  destruct (inflight s) eqn:Hi; [apply handled_refl|].
  destruct (queue s) as [|job rest]; [apply handled_refl|].
  apply (handled_queue rest). now apply run_task_handled.
Qed.

Lemma run_queue_handled s : handled s (run_queue s).
Proof.
  unfold run_queue. generalize (length (queue s)) as n.
  induction n as [|n IH]; simpl; [apply handled_refl|].
  apply (handled_trans _ _ _ IH), start_another_handled.
Qed.

(** A turn of the queue: what the handlers do, and then, when a task has
    thrown, the end of the process. *)
Lemma settle_cases (turn : option Thrown * State) s :
  handled s (snd turn) ->
  exists s', handled s s'
             /\ (settle turn = s' \/ exists e, settle turn = process_exit e s').
Proof.
  intros H. destruct turn as [[e|] s1]; cbn [snd] in H; simpl.
  - exists (run_queue s1). split; [|eauto].
    apply (handled_trans _ s1); [assumption | apply run_queue_handled].
  - exists s1. auto.
Qed.

Lemma step_Next_cases s :
  exists s', handled s s'
             /\ (step Next s = s' \/ exists e, step Next s = process_exit e s').
Proof. rewrite step_Next. apply settle_cases, start_another_handled. Qed.

Lemma step_Fetched_cases o s :
  exists s', handled s s'
             /\ (step (Fetched o) s = s'
                 \/ exists e, step (Fetched o) s = process_exit e s').
Proof. rewrite step_Fetched. apply settle_cases, resume_task_handled. Qed.

(** *** What the handlers emit *)

Lemma reports_app log1 log2 : reports log1 -> reports log2 -> reports (log1 ++ log2).
Proof.
  intros H1 H2. induction H2 as [|log chunk H2 IH Hc].
  - now rewrite app_nil_r.
  - rewrite app_assoc. now constructor.
Qed.

Lemma reports_one chunk : chunk = [] \/ report chunk -> reports chunk.
Proof.
  intros [->|H]; [constructor|].
  change chunk with ([] ++ chunk). constructor; [constructor | assumption].
Qed.

Lemma report_check_events chunk :
  report chunk -> forallb is_check_event chunk = true.
Proof. intros []; reflexivity. Qed.

Lemma reports_check_events body :
  reports body -> forallb is_check_event body = true.
Proof.
  induction 1 as [|log chunk _ IH Hc]; [reflexivity|].
  rewrite forallb_app, IH. now apply report_check_events.
Qed.

Lemma call_task_emits job s :
  exists chunk,
    emitted (snd (call_task job s)) = emitted s ++ chunk
    /\ (chunk = [] \/ report chunk)
    /\ (chunk <> [] -> inflight (snd (call_task job s)) = inflight s).
Proof.
  destruct job as [k sub m]. unfold call_task, processMessage_begin.
  cbn [job_checkRunId job_subtopic job_message].
  destruct (timeouts s !! k);
    [|exists []; cbn [snd]; rewrite app_nil_r; auto].
  destruct (checks s) as [cs|];
    [|exists []; cbn [snd]; rewrite app_nil_r; auto].
  destruct (String.eqb sub "run-start").
  { eexists. cbn [snd]. fields. split; [reflexivity|].
    split; [right; constructor | reflexivity]. }
  destruct (String.eqb sub "run-end").
  { exists []. cbn [snd]. fields. rewrite app_nil_r. split; [reflexivity|].
    split; [auto | intros H; now destruct H]. }
  destruct (String.eqb sub "error").
  { eexists. cbn [snd]. fields. rewrite <- app_assoc. split; [reflexivity|].
    split; [right; constructor | reflexivity]. }
  exists []. cbn [snd]. rewrite app_nil_r. auto.
Qed.

Lemma report_run_end_emits o p s :
  exists chunk,
    emitted (snd (report_run_end o p s)) = emitted s ++ chunk
    /\ (chunk = [] \/ report chunk).
Proof.
  unfold report_run_end.
  destruct (enrich o (verbose s) (susp_message p)); cbn [snd].
  - eexists. fields. rewrite <- app_assoc. split; [reflexivity|].
    right. constructor.
  - exists []. rewrite app_nil_r. auto.
Qed.

Lemma resume_task_emits o s :
  exists chunk,
    emitted (snd (resume_task o s)) = emitted s ++ chunk
    /\ (chunk = [] \/ report chunk).
Proof.
  unfold resume_task. destruct (inflight s) as [p|];
    [|exists []; cbn [snd]; rewrite app_nil_r; auto].
  destruct (report_run_end_emits o p (set_inflight None s)) as (chunk & E & H).
  destruct (report_run_end o p (set_inflight None s)) as [r s1].
  exists chunk. cbn [snd] in *. auto.
Qed.

(** One task reports one thing at most. *)
Lemma run_task_emits job s :
  inflight s = None ->
  exists chunk,
    emitted (snd (run_task job s)) = emitted s ++ chunk
    /\ (chunk = [] \/ report chunk).
Proof.
  intros Hi. unfold run_task.
  destruct (call_task_emits job s) as (c1 & E1 & H1 & F1).
  destruct (call_task job s) as [r s1]. cbn [snd] in *.
  destruct (inflight s1) as [p|] eqn:Hp; [|eauto].
  destruct (requests_assets (verbose s1) (susp_message p)); [eauto|].
  assert (c1 = []) as ->.
  { destruct c1; [reflexivity|].
    assert (Some p = inflight s) by (apply F1; discriminate). congruence. }
  destruct (resume_task_emits unasked s1) as (c2 & E2 & H2).
  exists c2. rewrite E2, E1, app_nil_r. auto.
Qed.

Lemma start_another_emits s :
  exists chunk,
    emitted (snd (start_another s)) = emitted s ++ chunk
    /\ (chunk = [] \/ report chunk).
Proof.
  unfold start_another.
  destruct (queueStarted s);
    [|exists []; cbn [snd]; rewrite app_nil_r; auto].
  destruct (inflight s) eqn:Hi;
    [exists []; cbn [snd]; rewrite app_nil_r; auto|].
  destruct (queue s) as [|job rest];
    [exists []; cbn [snd]; rewrite app_nil_r; auto|].
  apply (run_task_emits job (set_queue rest s)). exact Hi.
Qed.

Lemma handled_emits s s' :
  handled s s' -> exists body, emitted s' = emitted s ++ body /\ reports body.
Proof.
  induction 1 as [s|q s s' _ IH|job s s' Hi _ IH|o s s' _ IH].
  - exists []. rewrite app_nil_r. split; [reflexivity | constructor].
  - exact IH.
  - destruct IH as (body & E & Hb).
    destruct (call_task_emits job s) as (chunk & Ec & Hc & _).
    exists (chunk ++ body). rewrite E, Ec, app_assoc.
    split; [reflexivity|]. apply reports_app; [now apply reports_one | assumption].
  - destruct IH as (body & E & Hb).
    destruct (resume_task_emits o s) as (chunk & Ec & Hc).
    exists (chunk ++ body). rewrite E, Ec, app_assoc.
    split; [reflexivity|]. apply reports_app; [now apply reports_one | assumption].
Qed.

Lemma handled_check_events s s' :
  handled s s' ->
  exists body, emitted s' = emitted s ++ body
               /\ forallb is_check_event body = true.
Proof.
  intros H. destruct (handled_emits s s' H) as (body & E & Hb).
  exists body. split; [assumption | now apply reports_check_events].
Qed.

(** *** What the handlers leave alone *)

Lemma same_run_refl s : same_run s s.
Proof. now split. Qed.

Lemma same_run_trans s1 s2 s3 : same_run s1 s2 -> same_run s2 s3 -> same_run s1 s3.
Proof. intros [] []. split; congruence. Qed.

Lemma processMessage_begin_same_run k sub m s :
  same_run s (snd (processMessage_begin k sub m s)).
Proof.
  unfold processMessage_begin.
  destruct (timeouts s !! k); [|apply same_run_refl].
  destruct (checks s) eqn:E; [|apply same_run_refl].
  destruct (String.eqb sub "run-start"); [cbn [snd]; split; now fields|].
  destruct (String.eqb sub "run-end"); [cbn [snd]; split; now fields|].
  destruct (String.eqb sub "error"); cbn [snd]; split; now fields.
Qed.

Lemma report_run_end_same_run o p s : same_run s (snd (report_run_end o p s)).
Proof.
  unfold report_run_end. destruct (enrich _ _ _); cbn [snd]; split; now fields.
Qed.

Lemma call_task_same_run job s : same_run s (snd (call_task job s)).
Proof.
  unfold call_task.
  pose proof (processMessage_begin_same_run (job_checkRunId job)
                (job_subtopic job) (job_message job) s) as H.
  destruct (processMessage_begin _ _ _ _) as [[r|p] s1]; cbn [snd] in *;
    destruct H; split; assumption.
Qed.

Lemma resume_task_same_run o s : same_run s (snd (resume_task o s)).
Proof.
  unfold resume_task. destruct (inflight s) as [p|]; [|apply same_run_refl].
  pose proof (report_run_end_same_run o p (set_inflight None s)) as H.
  destruct (report_run_end o p (set_inflight None s)) as [r s1].
  cbn [snd] in *. destruct H; split; assumption.
Qed.

(** The handlers of the messages touch neither the fields the
    constructor set, nor [this.checks], nor the activation of [run]. *)
Lemma handled_same_run s s' : handled s s' -> same_run s s'.
Proof.
  induction 1 as [s|q s s' _ IH|job s s' Hi _ IH|o s s' _ IH].
  - apply same_run_refl.
  - destruct IH; split; assumption.
  - eapply same_run_trans; [apply call_task_same_run | exact IH].
  - eapply same_run_trans; [apply resume_task_same_run | exact IH].
Qed.

Lemma processMessage_begin_frame k sub m s :
  queueStarted (snd (processMessage_begin k sub m s)) = queueStarted s
  /\ queue (snd (processMessage_begin k sub m s)) = queue s
  /\ nextTimer (snd (processMessage_begin k sub m s)) = nextTimer s.
Proof.
  unfold processMessage_begin.
  destruct (timeouts s !! k); [|auto].
  destruct (checks s); [|auto].
  destruct (String.eqb sub "run-start"); [cbn [snd]; now fields|].
  destruct (String.eqb sub "run-end"); [cbn [snd]; now fields|].
  destruct (String.eqb sub "error"); cbn [snd]; now fields.
Qed.

Lemma report_run_end_frame o p s :
  queueStarted (snd (report_run_end o p s)) = queueStarted s
  /\ queue (snd (report_run_end o p s)) = queue s
  /\ inflight (snd (report_run_end o p s)) = inflight s
  /\ timeouts (snd (report_run_end o p s)) = timeouts s
  /\ timers (snd (report_run_end o p s)) = timers s.
Proof.
  unfold report_run_end. destruct (enrich _ _ _); cbn [snd]; now fields.
Qed.

Lemma handled_queueStarted s s' : handled s s' -> queueStarted s' = queueStarted s.
Proof.
  induction 1 as [s|q s s' _ IH|job s s' Hi _ IH|o s s' _ IH].
  - reflexivity.
  - exact IH.
  - rewrite IH. unfold call_task.
    destruct (processMessage_begin_frame (job_checkRunId job)
                (job_subtopic job) (job_message job) s) as (H & _).
    destruct (processMessage_begin _ _ _ _) as [[r|p] s1]; exact H.
  - rewrite IH. unfold resume_task. destruct (inflight s) as [p|]; [|reflexivity].
    destruct (report_run_end_frame o p (set_inflight None s)) as (H & _).
    destruct (report_run_end o p (set_inflight None s)) as [r s1]. exact H.
Qed.

(** *** No handler arms a timer *)

Lemma processMessage_begin_shrinks k sub m s :
  (forall id t, timers (snd (processMessage_begin k sub m s)) !! id = Some t ->
                timers s !! id = Some t)
  /\ (forall k' t, timeouts (snd (processMessage_begin k sub m s)) !! k' = Some t ->
                   timeouts s !! k' = Some t).
Proof.
  unfold processMessage_begin.
  destruct (timeouts s !! k) as [t0|] eqn:Hk; [|auto].
  destruct (checks s); [|auto].
  assert (Hd : forall id t, timers (disableTimeout k s) !! id = Some t ->
                            timers s !! id = Some t).
  { intros id t. rewrite disableTimeout_timers, Hk.
    intros H. now apply lookup_delete_Some in H as [_ H]. }
  assert (He : forall k' t, delete k (timeouts s) !! k' = Some t ->
                            timeouts s !! k' = Some t).
  { intros k' t H. now apply lookup_delete_Some in H as [_ H]. }
  destruct (String.eqb sub "run-start"); [cbn [snd]; fields; auto|].
  destruct (String.eqb sub "run-end"); [cbn [snd]; fields; auto|].
  destruct (String.eqb sub "error"); cbn [snd]; fields; auto.
Qed.

Lemma handled_shrinks s s' :
  handled s s' ->
  (forall id t, timers s' !! id = Some t -> timers s !! id = Some t)
  /\ (forall k t, timeouts s' !! k = Some t -> timeouts s !! k = Some t).
Proof.
  induction 1 as [s|q s s' _ IH|job s s' Hi _ IH|o s s' _ IH].
  - auto.
  - exact IH.
  - destruct IH as [IH1 IH2].
    destruct (processMessage_begin_shrinks (job_checkRunId job)
                (job_subtopic job) (job_message job) s) as [H1 H2].
    unfold call_task in IH1, IH2.
    destruct (processMessage_begin _ _ _ _) as [[r|p] s1]; cbn [snd] in *;
      split; auto.
  - destruct IH as [IH1 IH2]. unfold resume_task in IH1, IH2.
    destruct (inflight s) as [p|]; [|auto].
    destruct (report_run_end_frame o p (set_inflight None s))
      as (_ & _ & _ & H2 & H1).
    destruct (report_run_end o p (set_inflight None s)) as [r s1].
    cbn [snd] in *. rewrite H1 in IH1. rewrite H2 in IH2. auto.
Qed.

(** A turn of the queue arms no timer, and does not take the run back
    to its setup. *)
Lemma turn_shrinks s s' s1 :
  handled s s' -> s1 = s' \/ (exists e, s1 = process_exit e s') ->
  (forall id t, timers s1 !! id = Some t -> timers s !! id = Some t)
  /\ (forall k t, timeouts s1 !! k = Some t -> timeouts s !! k = Some t)
  /\ (~ setting_up s -> ~ setting_up s1).
Proof.
  intros H Hs1. destruct (handled_shrinks s s' H) as [H1 H2].
  destruct (handled_same_run s s' H) as [Hp _ _ _ _ _ _].
  destruct Hs1 as [->|[e ->]].
  - repeat split; auto. unfold setting_up. now rewrite Hp.
  - unfold process_exit. fields.
    repeat split; intros *; rewrite ?lookup_empty; try discriminate.
    intros _. unfold setting_up. simpl. intros [?|[?|?]]; discriminate.
Qed.

(** *** The registry and the progress of the checks *)

(** The check of an armed entry is the check [processMessage] reports. *)
Lemma armed_check s k t cs :
  registry_ok s -> timeouts s !! k = Some t -> checks s = Some cs ->
  cs !! k = Some (timer_check t) /\ get_check cs k = timer_check t.
Proof.
  intros Hreg Hk Hcs.
  destruct (entry_check _ Hreg _ _ Hk) as (cs' & E & Hc).
  rewrite Hcs in E. injection E as <-.
  split; [assumption|]. unfold get_check. now rewrite Hc.
Qed.

Lemma call_task_core job s cs fin :
  registry_ok s -> progress cs fin s -> inflight s = None ->
  registry_ok (snd (call_task job s))
  /\ exists fin', progress cs fin' (snd (call_task job s)).
Proof.
  intros Hreg Hpr Hi. destruct job as [k sub m].
  unfold call_task, processMessage_begin.
  cbn [job_checkRunId job_subtopic job_message].
  destruct (timeouts s !! k) as [t|] eqn:Hk; [|cbn [snd thrown]; eauto].
  rewrite (progress_checks _ _ _ Hpr).
  destruct (armed_check s k t cs Hreg Hk (progress_checks _ _ _ Hpr))
    as [Hc Hg].
  rewrite Hg.
  destruct (String.eqb sub "run-start");
    [|destruct (String.eqb sub "run-end"); [|destruct (String.eqb sub "error")]];
    cbn [snd thrown].
  - (* run-start *)
    split.
    + apply (registry_ok_frame s); autorewrite with runner; auto.
    + exists fin.
      apply (progress_frame cs fin s); autorewrite with runner; auto.
      rewrite finished_checks_app. simpl. apply app_nil_r.
  - (* run-end *)
    split.
    + apply (registry_ok_frame (disableTimeout k s));
        auto using registry_ok_disableTimeout.
    + exists fin.
      apply (progress_suspend cs fin s _ k t (mkSuspended (timer_check t) m));
        fields; auto.
  - (* error *)
    split.
    + apply (registry_ok_frame (disableTimeout k s));
        autorewrite with runner; auto using registry_ok_disableTimeout.
    + exists (fin ++ [k]).
      apply (progress_finish cs fin s); fields; auto.
      * intros Hin. destruct (progress_done _ _ _ Hpr k Hin). congruence.
      * intros p. rewrite Hi. discriminate.
  - eauto.
Qed.

Lemma resume_task_core o s cs fin :
  registry_ok s -> progress cs fin s ->
  registry_ok (snd (resume_task o s))
  /\ exists fin', progress cs fin' (snd (resume_task o s)).
Proof.
  intros Hreg Hpr. unfold resume_task.
  destruct (inflight s) as [p|] eqn:Hi; [|cbn [snd]; eauto].
  destruct (progress_inflight _ _ _ Hpr p Hi) as (k & Hk & Hts & Hc).
  unfold report_run_end. cbn [verbose set_inflight].
  destruct (enrich o (verbose s) (susp_message p)) as [result|e]; cbn [snd].
  - split.
    + apply (registry_ok_frame s); fields; auto.
    + exists (fin ++ [k]).
      apply (progress_finish cs fin s); fields; auto.
      * symmetry. now apply delete_id.
      * discriminate.
  - split.
    + apply (registry_ok_frame s); auto.
    + exists fin. apply (progress_frame cs fin s); auto. fields. discriminate.
Qed.

Lemma handled_core s s' cs fin :
  handled s s' -> registry_ok s -> progress cs fin s ->
  registry_ok s' /\ exists fin', progress cs fin' s'.
Proof.
  intros H. revert fin.
  induction H as [s|q s s' _ IH|job s s' Hi _ IH|o s s' _ IH];
    intros fin Hreg Hpr.
  - eauto.
  - apply (IH fin).
    + apply (registry_ok_frame s); auto.
    + apply (progress_frame cs fin s); auto.
  - destruct (call_task_core job s cs fin Hreg Hpr Hi) as (Hreg1 & fin1 & Hpr1).
    now apply (IH fin1).
  - destruct (resume_task_core o s cs fin Hreg Hpr) as (Hreg1 & fin1 & Hpr1).
    now apply (IH fin1).
Qed.

(** *** The end of the process *)

Lemma process_exit_registry e s : registry_ok (process_exit e s).
Proof.
  split; intros *; unfold process_exit; fields; rewrite lookup_empty;
    discriminate.
Qed.

Lemma process_exit_progress e s cs fin :
  progress cs fin s -> progress cs fin (process_exit e s).
Proof.
  intros [H1 H2 H3 H4 H5 H6]. split; unfold process_exit; fields; auto.
  - intros k Hk. destruct (H3 k Hk). split; [assumption | apply lookup_empty].
  - discriminate.
Qed.

Lemma started_log_app sid log body :
  started_log sid log -> forallb is_check_event body = true ->
  started_log sid (log ++ body).
Proof.
  intros (rids & pre & evs & -> & Hp & He) Hb.
  exists rids, pre, (evs ++ body).
  rewrite <- app_assoc. simpl. repeat split; auto.
  now rewrite forallb_app, He, Hb.
Qed.

Lemma running_handled s s' :
  registry_ok s -> running s -> handled s s' -> registry_ok s' /\ running s'.
Proof.
  intros Hreg (sid & cs & fin & Hp & Hpr & Hlog) H.
  destruct (handled_core s s' cs fin H Hreg Hpr) as (Hreg' & fin' & Hpr').
  destruct (handled_check_events s s' H) as (body & E & Hb).
  destruct (handled_same_run s s' H) as [Hph _ _ _ _ _ _].
  split; [assumption|].
  exists sid, cs, fin'. split; [congruence|]. split; [assumption|].
  rewrite E. now apply started_log_app.
Qed.

Lemma running_exit e s : running s -> exited e (process_exit e s).
Proof.
  intros (sid & cs & fin & Hp & Hpr & Hlog).
  exists sid, cs, fin. split; [reflexivity|].
  split; [now apply process_exit_progress|].
  unfold process_exit. fields. auto 10.
Qed.

(** The process has ended: nothing happens any more. *)
Lemma step_exited e l s : exited e s -> step l s = s.
Proof.
  intros (sid & cs & fin & Hp & _ & _ & Hts & Htm & Hi & Hq).
  destruct l.
  - apply step_setup_late; [exact I|]. unfold setting_up. rewrite Hp.
    intros [?|[?|?]]; discriminate.
  - apply step_setup_late; [exact I|]. unfold setting_up. rewrite Hp.
    intros [?|[?|?]]; discriminate.
  - apply step_setup_late; [exact I|]. unfold setting_up. rewrite Hp.
    intros [?|[?|?]]; discriminate.
  - rewrite step_Arrive. unfold listening. now rewrite Hp.
  - rewrite step_Next. unfold start_another. rewrite Hi, Hq.
    now destruct (queueStarted s).
  - rewrite step_Fetched. unfold resume_task. now rewrite Hi.
  - rewrite step_Expire. now rewrite Htm, lookup_empty.
  - rewrite step_Resume. now rewrite Hp.
Qed.

Lemma exec_cons l ls s : exec (l :: ls) s = exec ls (step l s).
Proof. reflexivity. Qed.

Lemma exec_app ls1 ls2 s : exec (ls1 ++ ls2) s = exec ls2 (exec ls1 s).
Proof. unfold exec. apply foldl_app. Qed.

Lemma exec_exited e ls s : exited e s -> exec ls s = s.
Proof.
  intros H. induction ls as [|l ls IH]; [reflexivity|].
  now rewrite exec_cons, (step_exited e l s H).
Qed.

(** *** A run that failed stays as it is *)

Lemma step_failed e l s : failed e s -> step l s = s.
Proof.
  intros [Hp He Hts Htm Hi Hq _].
  destruct l.
  - apply step_setup_late; [exact I|]. unfold setting_up. rewrite Hp.
    intros [?|[?|?]]; discriminate.
  - apply step_setup_late; [exact I|]. unfold setting_up. rewrite Hp.
    intros [?|[?|?]]; discriminate.
  - apply step_setup_late; [exact I|]. unfold setting_up. rewrite Hp.
    intros [?|[?|?]]; discriminate.
  - rewrite step_Arrive. unfold listening. now rewrite Hp.
  - rewrite step_Next. unfold start_another. now rewrite Hq.
  - rewrite step_Fetched. unfold resume_task. now rewrite Hi.
  - rewrite step_Expire. now rewrite Htm, lookup_empty.
  - rewrite step_Resume. now rewrite Hp.
Qed.

Lemma exec_failed e ls s : failed e s -> exec ls s = s.
Proof.
  intros H. induction ls as [|l ls IH]; [reflexivity|].
  now rewrite exec_cons, (step_failed e l s H).
Qed.

(** *** A run that is over emits nothing more *)

(** With no entry in the registry and no handler suspended, the queue
    only drops its tasks. *)
Lemma start_another_idle s :
  timeouts s = ∅ -> inflight s = None ->
  fst (start_another s) = None
  /\ exists q, snd (start_another s) = set_queue q s.
Proof.
  intros Hts Hi. unfold start_another.
  destruct (queueStarted s);
    [|split; [reflexivity | exists (queue s); now rewrite set_queue_same]].
  rewrite Hi.
  destruct (queue s) as [|job rest] eqn:Hq;
    [split; [reflexivity | exists []; now rewrite <- Hq, set_queue_same]|].
  rewrite run_task_discard; [eauto | | assumption].
  simpl. rewrite Hts. apply lookup_empty.
Qed.

Lemma step_finished l s :
  finished s -> registry_ok s ->
  finished (step l s) /\ registry_ok (step l s)
  /\ emitted (step l s) = emitted s.
Proof.
  intros Hf Hreg.
  pose proof Hf as (sid & cs & fin & log & Hp & Hpr & He & Hlog & Hlen
                    & Hres & Hts & Htm & Hi).
  assert (Hlate : ~ setting_up s).
  { unfold setting_up. rewrite Hp. intros [?|[?|?]]; discriminate. }
  destruct l.
  - rewrite step_setup_late; [auto | exact I | assumption].
  - rewrite step_setup_late; [auto | exact I | assumption].
  - rewrite step_setup_late; [auto | exact I | assumption].
  - rewrite step_Arrive. unfold listening. rewrite Hp. auto.
  - rewrite step_Next.
    destruct (start_another_idle s Hts Hi) as (E1 & q & E2).
    destruct (start_another s) as [r s1]. cbn [fst snd] in *. subst r s1.
    cbn [settle].
    split; [|split; [|reflexivity]].
    + exists sid, cs, fin, log.
      split; [assumption|]. split; [|auto 10].
      apply (progress_frame cs fin s); auto.
    + apply (registry_ok_frame s); auto.
  - rewrite step_Fetched. unfold resume_task. rewrite Hi. auto.
  - rewrite step_Expire. rewrite Htm, lookup_empty. auto.
  - rewrite step_Resume. rewrite Hp. auto.
Qed.

(** *** Setting the run up *)

Lemma pristine_registry_ok s : pristine s -> registry_ok s.
Proof.
  intros H. split; intros *;
    rewrite ?(pristine_timeouts _ H), ?(pristine_timers _ H), lookup_empty;
    discriminate.
Qed.

Ltac phase_clash :=
  match goal with
  | H : setting_up ?s, E : phase ?s = _ |- _ =>
      unfold setting_up in H; rewrite E in H;
      destruct H as [?|[?|?]]; discriminate
  | E : phase ?s = _ |- ~ setting_up ?s =>
      unfold setting_up; rewrite E; intros [?|[?|?]]; discriminate
  | E : phase ?s = _, E' : phase ?s = _ |- _ => congruence
  end.

Lemma Inv_pristine s : setting_up s -> pristine s -> Inv s.
Proof.
  intros Hs Hp. split; auto using pristine_registry_ok.
  - intros sid E. phase_clash.
  - intros E. phase_clash.
  - intros e E. phase_clash.
Qed.

Lemma failed_registry_ok e s : failed e s -> registry_ok s.
Proof.
  intros H. split; intros *;
    rewrite ?(failed_timeouts _ _ H), ?(failed_timers _ _ H), lookup_empty;
    discriminate.
Qed.

Lemma Inv_failed e s : failed e s -> Inv s.
Proof.
  intros H. pose proof (failed_phase _ _ H) as Hp.
  split; eauto using failed_registry_ok.
  - unfold setting_up. rewrite Hp. intros [?|[?|?]]; discriminate.
  - intros sid E. congruence.
  - intros e' E. congruence.
Qed.

Lemma Inv_running s : registry_ok s -> running s -> Inv s.
Proof.
  intros Hreg Hr. pose proof Hr as (sid & cs & fin & Hp & _).
  split; auto.
  - unfold setting_up. rewrite Hp. intros [?|[?|?]]; discriminate.
  - intros E. congruence.
  - intros e E. congruence.
Qed.

Lemma Inv_finished s : registry_ok s -> finished s -> Inv s.
Proof.
  intros Hreg Hf. pose proof Hf as (sid & cs & fin & log & Hp & _).
  split; auto.
  - unfold setting_up. rewrite Hp. intros [?|[?|?]]; discriminate.
  - intros sid' E. congruence.
  - intros e E. congruence.
Qed.

Lemma exited_registry_ok e s : exited e s -> registry_ok s.
Proof.
  intros (sid & cs & fin & _ & _ & _ & Hts & Htm & _).
  split; intros *; rewrite ?Hts, ?Htm, lookup_empty; discriminate.
Qed.

Lemma Inv_exited e s : exited e s -> Inv s.
Proof.
  intros H. pose proof H as (sid & cs & fin & Hp & _).
  split; eauto using exited_registry_ok.
  - unfold setting_up. rewrite Hp. intros [?|[?|?]]; discriminate.
  - intros sid' E. congruence.
  - intros E. congruence.
  - intros e' E. assert (e' = e) as -> by congruence. assumption.
Qed.

(** A turn of the queue while the checks run. *)
Lemma Inv_turn s s' s1 :
  registry_ok s -> running s -> handled s s' ->
  s1 = s' \/ (exists e, s1 = process_exit e s') ->
  Inv s1.
Proof.
  intros Hreg Hr H Hs1.
  destruct (running_handled s s' Hreg Hr H) as [Hreg' Hr'].
  destruct Hs1 as [->|[e ->]].
  - now apply Inv_running.
  - apply (Inv_exited e). now apply running_exit.
Qed.

(** The [catch] of [run] while the run is set up: there is no timer to
    disable yet, and [ERROR] is the first event. *)
Lemma run_catch_pristine e socketClient s :
  pristine s -> failed e (run_finally socketClient (run_catch e s)).
Proof.
  intros [H1 H2 H3 H4 H5 H6 H7 H8 H9].
  unfold run_catch, disableAllTimeouts. rewrite H1.
  unfold run_finally.
  destruct socketClient; split; simpl; autorewrite with runner;
    rewrite ?H4; auto.
Qed.

Lemma foldl_arm_timeout_ids l s :
  accountId (foldl arm_timeout s l) = accountId s
  /\ checkRunSuiteId (foldl arm_timeout s l) = checkRunSuiteId s
  /\ queue (foldl arm_timeout s l) = queue s
  /\ queueStarted (foldl arm_timeout s l) = queueStarted s
  /\ verbose (foldl arm_timeout s l) = verbose s.
Proof.
  revert s. induction l as [|entry l IH]; intros s; [auto|].
  simpl. destruct (IH (arm_timeout s entry)) as (H1 & H2 & H3 & H4 & H5).
  rewrite H1, H2, H3, H4, H5. auto.
Qed.

(** Lines 70-82 on a run that is set up: every check gets its timer and
    the tracker is installed; then the queue is started, which calls the
    first task, and [RUN_STARTED] is emitted. *)
Lemma run_start_checks_spec r s :
  pristine s ->
  exists s3,
    dispatched r s s3
    /\ run_start_checks r s
       = Returns
           (fst (start_another s3),
            set_phase (Awaiting (sched_testSessionId r))
              (emit (RUN_STARTED (sched_testSessionId r) (sched_testResultIds r))
                 (snd (start_another s3)))).
Proof.
  intros [H1 H2 H3 H4 H5 H6 H7 H8 H9].
  unfold run_start_checks.
  destruct (setAllTimeouts_spec (set_checks (Some (sched_checks r)) s)
              (sched_checks r) eq_refl H2 H3)
    as (s2 & E2 & Hreg & Hdom & G1 & G2 & G3 & G4 & G5 & G6 & G7 & G8).
  simpl in G2, G3, G4, G5, G6, G7, G8.
  assert (Hids : accountId s2 = accountId s /\ checkRunSuiteId s2 = checkRunSuiteId s
                 /\ queue s2 = queue s /\ queueStarted s2 = queueStarted s
                 /\ verbose s2 = verbose s).
  { unfold setAllTimeouts in E2. simpl in E2. injection E2 as <-.
    apply (foldl_arm_timeout_ids _ (set_checks (Some (sched_checks r)) s)). }
  destruct Hids as (I1 & I2 & I3 & I4 & I5).
  rewrite E2. cbn [bindO]. unfold allChecksFinished. rewrite G1.
  destruct (Nat.eqb_spec (size (sched_checks r)) 0) as [Hz|Hnz]; cbn [bindO].
  - set (s3 := set_resolutions _ s2).
    exists (set_queueStarted true s3). split.
    + split; subst s3; fields; auto; try congruence.
      * apply (registry_ok_frame s2); auto.
      * split; fields; auto.
        -- constructor.
        -- intros k Hk. inversion Hk.
        -- now rewrite G3, H4.
        -- intros p. rewrite G6, H5. discriminate.
        -- unfold tracker_ok. rewrite Hz. simpl. split; congruence.
      * destruct (Nat.eqb_spec (size (sched_checks r)) 0); [|contradiction].
        congruence.
      * destruct (Nat.eqb_spec (size (sched_checks r)) 0); [|contradiction].
        congruence.
    + unfold queue_start. subst s3. fields. rewrite I4, H6.
      destruct (start_another _). reflexivity.
  - set (s3 := set_listener _ s2).
    exists (set_queueStarted true s3). split.
    + split; subst s3; fields; auto; try congruence.
      * apply (registry_ok_frame s2); auto.
      * split; fields; auto.
        -- constructor.
        -- intros k Hk. inversion Hk.
        -- now rewrite G3, H4.
        -- intros p. rewrite G6, H5. discriminate.
        -- unfold tracker_ok.
           destruct (Nat.eqb_spec (size (sched_checks r)) 0); [contradiction|].
           simpl. split; [reflexivity|].
           destruct (Nat.leb_spec (size (sched_checks r)) 0); [lia|]. congruence.
      * destruct (Nat.eqb_spec (size (sched_checks r)) 0); [contradiction|].
        congruence.
      * destruct (Nat.eqb_spec (size (sched_checks r)) 0); [contradiction|].
        reflexivity.
    + unfold queue_start. subst s3. fields. rewrite I4, H6.
      destruct (start_another _). reflexivity.
Qed.

Lemma step_Dispatched r s :
  phase s = Scheduling -> pristine s ->
  exists s3,
    dispatched r s s3
    /\ step (Dispatched (Returns r)) s
       = settle
           (fst (start_another s3),
            set_phase (Awaiting (sched_testSessionId r))
              (emit (RUN_STARTED (sched_testSessionId r) (sched_testResultIds r))
                 (snd (start_another s3)))).
Proof.
  intros Hph Hp. destruct (run_start_checks_spec r s Hp) as (s3 & Hd & E).
  exists s3. split; [assumption|]. unfold step. now rewrite Hph, E.
Qed.

(** The state in which [run] comes to [await allChecksFinished]. *)
Lemma dispatched_running r s s3 :
  dispatched r s s3 ->
  let s6 := set_phase (Awaiting (sched_testSessionId r))
              (emit (RUN_STARTED (sched_testSessionId r) (sched_testResultIds r))
                 (snd (start_another s3))) in
  registry_ok s6 /\ running s6.
Proof.
  intros Hd s6.
  pose proof (start_another_handled s3) as H.
  destruct (handled_core s3 _ (sched_checks r) [] H
              (dispatched_registry _ _ _ Hd) (dispatched_progress _ _ _ Hd))
    as (Hreg4 & fin4 & Hpr4).
  destruct (handled_check_events s3 _ H) as (pre & E & Hpre).
  rewrite (dispatched_emitted _ _ _ Hd) in E. simpl in E.
  split.
  - apply (registry_ok_frame (snd (start_another s3))); subst s6; fields; auto.
  - exists (sched_testSessionId r), (sched_checks r), fin4.
    split; [reflexivity|]. split.
    + apply (progress_frame _ _ (snd (start_another s3))); subst s6; fields; auto.
      rewrite finished_checks_app. simpl. apply app_nil_r.
    + subst s6. fields. rewrite E.
      exists (sched_testResultIds r), pre, []. auto.
Qed.

Lemma step_setting_up l s :
  setting_up s -> pristine s -> Inv (step l s).
Proof.
  intros Hs Hp.
  destruct l.
  - (* Connected *)
    destruct (phase s) eqn:E;
      try (rewrite step_setup_late;
           [now apply Inv_pristine | exact I
           | destruct Hs as [?|[?|?]]; congruence]);
      try (unfold step; rewrite E; destruct r; now apply Inv_pristine).
    unfold step. rewrite E. destruct r as [[]|e].
    + apply Inv_pristine; [unfold setting_up; simpl; auto|].
      destruct Hp. split; try assumption. discriminate.
    + apply (Inv_failed e). now apply run_catch_pristine.
  - (* Subscribed *)
    destruct (phase s) eqn:E;
      try (unfold step; rewrite E; destruct r; now apply Inv_pristine).
    unfold step. rewrite E. destruct r as [[]|e].
    + apply Inv_pristine; [unfold setting_up; simpl; auto|].
      destruct Hp. split; try assumption. discriminate.
    + apply (Inv_failed e). now apply run_catch_pristine.
  - (* Dispatched *)
    destruct (phase s) eqn:E;
      try (unfold step; rewrite E; destruct r; now apply Inv_pristine).
    destruct r as [r|e].
    + destruct (step_Dispatched r s E Hp) as (s3 & Hd & ->).
      destruct (dispatched_running r s s3 Hd) as [Hreg Hrun].
      set (s6 := set_phase _ _) in *.
      destruct (settle_cases (fst (start_another s3), s6) s6 (handled_refl s6))
        as (s' & H & Hcases).
      now apply (Inv_turn s6 s').
    + unfold step. rewrite E. apply (Inv_failed e). now apply run_catch_pristine.
  - (* Arrive *)
    rewrite step_Arrive. destruct (listening s); [|now apply Inv_pristine].
    apply Inv_pristine; [assumption|]. destruct Hp. split; assumption.
  - rewrite step_Next. unfold start_another.
    rewrite (pristine_queueStarted _ Hp). now apply Inv_pristine.
  - rewrite step_Fetched. unfold resume_task.
    rewrite (pristine_inflight _ Hp). now apply Inv_pristine.
  - rewrite step_Expire, (pristine_timers _ Hp), lookup_empty.
    now apply Inv_pristine.
  - rewrite step_Resume.
    destruct (phase s) eqn:E; try now apply Inv_pristine.
    destruct Hs as [?|[?|?]]; congruence.
Qed.

(** *** While the checks run *)

Lemma forallb_snoc {A} (f : A -> bool) l l' :
  forallb f l = true -> forallb f l' = true -> forallb f (l ++ l') = true.
Proof. intros H1 H2. rewrite forallb_app, H1, H2. reflexivity. Qed.

Lemma step_running_Expire id s :
  registry_ok s -> running s -> Inv (step (Expire id) s).
Proof.
  intros Hreg Hr. rewrite step_Expire.
  destruct (timers s !! id) as [t|] eqn:Hid; [|now apply Inv_running].
  destruct Hr as (sid & cs & fin & Hp & Hpr & Hlog).
  destruct (timer_entry _ Hreg _ _ Hid) as [Hidt Hk].
  destruct (armed_check s _ t cs Hreg Hk (progress_checks _ _ _ Hpr)) as [Hc _].
  set (k := timer_checkRunId t) in *.
  unfold timeout_callback.
  set (s1 := set_timeouts _ _).
  assert (Hreg1 : registry_ok s1).
  { apply (registry_ok_remove s s1 k t); auto. simpl. now rewrite Hidt. }
  apply Inv_running.
  - apply (registry_ok_frame s1); autorewrite with runner; auto.
  - exists sid, cs, (fin ++ [k]).
    autorewrite with runner.
    split; [assumption|]. split.
    + apply (progress_finish cs fin s); auto.
      * intros Hin. destruct (progress_done _ _ _ Hpr k Hin). congruence.
      * intros p Hi. simpl in Hi.
        destruct (progress_inflight _ _ _ Hpr p Hi) as (k' & A1 & A2 & A3).
        exists k'. repeat split; auto. intros ->. congruence.
    + simpl. rewrite <- app_assoc. now apply started_log_app.
Qed.

Lemma step_running_Resume s :
  registry_ok s -> running s -> Inv (step Resume s).
Proof.
  intros Hreg Hr. rewrite step_Resume.
  pose proof Hr as (sid & cs & fin & Hp & Hpr & Hlog).
  rewrite Hp.
  destruct (Nat.ltb_spec 0 (resolutions s)) as [Hres|Hres];
    [|now apply Inv_running].
  destruct (progress_resolved cs fin s Hpr Hreg Hres)
    as (Hlen & Hone & Hts & Htm & Hi).
  unfold run_finally.
  apply Inv_finished.
  - apply (registry_ok_frame s); fields; auto.
  - exists sid, cs, fin, (emitted s).
    split; [reflexivity|]. split.
    { apply (progress_frame cs fin s); fields; auto.
      rewrite finished_checks_app. simpl. apply app_nil_r. }
    fields. repeat split; auto.
Qed.

Lemma step_running l s : registry_ok s -> running s -> Inv (step l s).
Proof.
  intros Hreg Hr.
  assert (Hlate : ~ setting_up s).
  { destruct Hr as (sid & _ & _ & Hp & _). unfold setting_up.
    rewrite Hp. intros [?|[?|?]]; discriminate. }
  destruct l.
  - rewrite step_setup_late; [now apply Inv_running | exact I | assumption].
  - rewrite step_setup_late; [now apply Inv_running | exact I | assumption].
  - rewrite step_setup_late; [now apply Inv_running | exact I | assumption].
  - rewrite step_Arrive. destruct (listening s); [|now apply Inv_running].
    apply (Inv_turn s (set_queue (queue s ++ [mkJob checkRunId subtopic message]) s));
      auto.
    apply (handled_queue (queue s ++ [mkJob checkRunId subtopic message])).
    apply handled_refl.
  - destruct (step_Next_cases s) as (s' & H & Hc). now apply (Inv_turn s s').
  - destruct (step_Fetched_cases o s) as (s' & H & Hc). now apply (Inv_turn s s').
  - now apply step_running_Expire.
  - now apply step_running_Resume.
Qed.

(** *** Every state of a run satisfies the invariant *)

Lemma Inv_cases s :
  Inv s ->
  (setting_up s /\ pristine s) \/ running s
  \/ (exists e, failed e s) \/ finished s \/ (exists e, exited e s).
Proof.
  intros [Hreg Hs Ha Hr He].
  destruct (phase s) eqn:E.
  - left. assert (setting_up s) by (unfold setting_up; auto). auto.
  - left. assert (setting_up s) by (unfold setting_up; auto). auto.
  - left. assert (setting_up s) by (unfold setting_up; auto). auto.
  - right. left. eauto.
  - destruct (Hr eq_refl); auto.
  - right. right. right. right. eauto.
Qed.

Lemma Inv_step l s : Inv s -> Inv (step l s).
Proof.
  intros H. pose proof (inv_registry _ H) as Hreg.
  destruct (Inv_cases s H) as [[Hs Hp]|[Hr|[[e Hf]|[Hf|[e He]]]]].
  - now apply step_setting_up.
  - now apply step_running.
  - rewrite (step_failed e l s Hf). assumption.
  - destruct (step_finished l s Hf Hreg) as (Hf' & Hreg' & _).
    now apply Inv_finished.
  - rewrite (step_exited e l s He). assumption.
Qed.

Lemma Inv_exec ls s : Inv s -> Inv (exec ls s).
Proof.
  revert s. induction ls as [|l ls IH]; intros s H; [assumption|].
  rewrite exec_cons. apply IH. now apply Inv_step.
Qed.

Lemma Inv_constructor accountId timeout verbose :
  Inv (constructor accountId timeout verbose).
Proof.
  apply Inv_pristine; [unfold setting_up; simpl; auto|].
  split; reflexivity.
Qed.

Lemma reachable_Inv s : reachable s -> Inv s.
Proof.
  intros (a & t & v & ls & ->). apply Inv_exec, Inv_constructor.
Qed.

Lemma reachable_step l s : reachable s -> reachable (step l s).
Proof.
  intros (a & t & v & ls & ->). exists a, t, v, (ls ++ [l]).
  now rewrite exec_app.
Qed.

Lemma reachable_exec ls s : reachable s -> reachable (exec ls s).
Proof.
  intros (a & t & v & ls0 & ->). exists a, t, v, (ls0 ++ ls).
  now rewrite exec_app.
Qed.

(** *** A task throws only while the checks run *)

Lemma Inv_quiet s :
  Inv s -> (forall sid, phase s <> Awaiting sid) ->
  timeouts s = ∅ /\ inflight s = None.
Proof.
  intros Hinv Hph.
  destruct (Inv_cases s Hinv) as [[Hs Hp]|[Hr|[[e Hf]|[Hf|[e He]]]]].
  - split; apply Hp.
  - destruct Hr as (sid & _ & _ & Hp & _). now destruct (Hph sid).
  - split; apply Hf.
  - destruct Hf as (_ & _ & _ & _ & _ & _ & _ & _ & _ & _ & Hts & _ & Hi). auto.
  - destruct He as (_ & _ & _ & _ & _ & _ & Hts & _ & Hi & _). auto.
Qed.

Lemma step_queue_turn l s :
  Inv s -> l = Next \/ (exists o, l = Fetched o) ->
  exists s',
    handled s s'
    /\ (step l s = s'
        \/ exists e sid, phase s = Awaiting sid /\ step l s = process_exit e s').
Proof.
  intros Hinv Hl.
  assert (Hcases : (exists sid, phase s = Awaiting sid)
                   \/ (forall sid, phase s <> Awaiting sid)).
  { destruct (phase s); eauto; right; discriminate. }
  destruct Hcases as [[sid Hp]|Hp].
  - destruct Hl as [->|[o ->]].
    + destruct (step_Next_cases s) as (s' & H & [E|[e E]]); eauto 10.
    + destruct (step_Fetched_cases o s) as (s' & H & [E|[e E]]); eauto 10.
  - destruct (Inv_quiet s Hinv Hp) as [Hts Hi].
    destruct Hl as [->|[o ->]].
    + exists (snd (start_another s)). split; [apply start_another_handled|].
      left. rewrite step_Next.
      destruct (start_another_idle s Hts Hi) as (E1 & _).
      destruct (start_another s) as [r s1]. cbn [fst snd] in *. now subst r.
    + exists s. split; [apply handled_refl|]. left.
      rewrite step_Fetched. unfold resume_task. now rewrite Hi.
Qed.

(** While [run] does not await the checks, a turn of the queue only
    drops tasks. *)
Lemma quiet_turn l s :
  Inv s -> (forall sid, phase s <> Awaiting sid) ->
  l = Next \/ (exists o, l = Fetched o) ->
  exists q, step l s = set_queue q s.
Proof.
  intros Hinv Hp Hl. destruct (Inv_quiet s Hinv Hp) as [Hts Hi].
  destruct Hl as [->|[o ->]].
  - rewrite step_Next.
    destruct (start_another_idle s Hts Hi) as (E1 & q & E2).
    destruct (start_another s) as [r s1]. cbn [fst snd] in *. subst r s1.
    now exists q.
  - exists (queue s). rewrite step_Fetched. unfold resume_task.
    now rewrite Hi, set_queue_same.
Qed.

(** * What the runner guarantees *)

Lemma demo_state_reachable : reachable demo_state.
Proof. exists "acc", 5%Z, false, demo_setup. reflexivity. Qed.

Lemma demo_timer_a : timeouts demo_state !! "a" = Some timer_a.
Proof. vm_compute. reflexivity. Qed.

Lemma demo_timer_b : timeouts demo_state !! "b" = Some timer_b.
Proof. vm_compute. reflexivity. Qed.

(** What a timer does when it expires. *)
Lemma expire_armed id t s :
  timers s !! id = Some t ->
  step (Expire id) s
  = timeout_callback (timer_checkRunId t) (timer_check t)
      (set_timers (delete id (timers s)) s).
Proof. intros H. now rewrite step_Expire, H. Qed.

Lemma expire_emitted id t s :
  timers s !! id = Some t ->
  emitted (step (Expire id) s)
  = emitted s ++ [CHECK_FAILED (timer_check t) (timeout_message s);
                  CHECK_FINISHED (timer_check t)].
Proof.
  intros H. rewrite (expire_armed id t s H), timeout_callback_emitted.
  reflexivity.
Qed.

Lemma expire_cleared id s : timers s !! id = None -> step (Expire id) s = s.
Proof. intros H. now rewrite step_Expire, H. Qed.

(** ** A message for a check that is not pending *)

(** C3. A message whose check identifier has no entry in [this.timeouts]
    is discarded: [processMessage] returns at once, emits nothing and
    leaves the state as it is, whatever the subtopic and the payload. *)
Theorem C3_discard_without_timer (o : Assets) (checkRunId subtopic : string)
    (message : JsVal) (s : State) :
  timeouts s !! checkRunId = None ->
  processMessage o checkRunId subtopic message s = (Returns tt, s).
Proof.
  intros H. unfold processMessage.
  now rewrite processMessage_begin_discard.
Qed.

(** The check ["a"] has timed out; a late [run-end] for it is dropped. *)
Lemma C3_discard_without_timer_witness :
  timeouts (step (Expire 0) demo_state) !! "a" = None
  /\ processMessage assets_up "a" "run-end" message_passed
       (step (Expire 0) demo_state)
     = (Returns tt, step (Expire 0) demo_state).
Proof.
  split; [vm_compute; reflexivity|].
  apply C3_discard_without_timer. vm_compute. reflexivity.
Defined.

(** ** Messages for a pending check *)

Lemma reachable_registry_ok s : reachable s -> registry_ok s.
Proof. intros H. apply inv_registry, reachable_Inv, H. Qed.

(** In a state of a run, an entry of the registry belongs to a check of
    [this.checks], and its timer is armed. *)
Lemma armed_facts s k t :
  reachable s -> timeouts s !! k = Some t ->
  exists cs,
    checks s = Some cs /\ cs !! k = Some (timer_check t)
    /\ get_check cs k = timer_check t
    /\ timers s !! timer_id t = Some t
    /\ timer_checkRunId t = k
    /\ timer_delay t = timer_after (timeout s * 1000).
Proof.
  intros Hr Hk. pose proof (reachable_registry_ok s Hr) as Hreg.
  destruct (entry_check _ Hreg _ _ Hk) as (cs & Hcs & Hc).
  destruct (entry_armed _ Hreg _ _ Hk) as (Ha & Hb & Hd).
  exists cs. repeat split; auto.
  unfold get_check. now rewrite Hc.
Qed.

Lemma subtopic_eqb (a b : string) : a <> b -> String.eqb a b = false.
Proof. intros H. now apply String.eqb_neq. Qed.

(** C10. A message for a pending check whose subtopic is none of
    [run-start], [run-end] and [error] is ignored: [processMessage] emits
    nothing and changes nothing, so the timer of the check stays armed
    with its delay, and its expiry still reports the timeout. *)
Theorem C10_other_subtopic_ignored (o : Assets) (checkRunId subtopic : string)
    (message : JsVal) (s : State) (t : Timeout) :
  reachable s ->
  timeouts s !! checkRunId = Some t ->
  subtopic <> "run-start" -> subtopic <> "run-end" -> subtopic <> "error" ->
  processMessage o checkRunId subtopic message s = (Returns tt, s)
  /\ timers s !! timer_id t = Some t
  /\ timer_delay t = timer_after (timeout s * 1000)
  /\ emitted (step (Expire (timer_id t)) s)
     = emitted s ++ [CHECK_FAILED (timer_check t) (timeout_message s);
                     CHECK_FINISHED (timer_check t)].
Proof.
  intros Hr Hk H1 H2 H3.
  destruct (armed_facts s checkRunId t Hr Hk)
    as (cs & Hcs & Hc & Hg & Ha & Hb & Hd).
  repeat split; auto.
  - unfold processMessage, processMessage_begin.
    rewrite Hk, Hcs, !subtopic_eqb by assumption. reflexivity.
  - now apply expire_emitted.
Qed.

Lemma C10_other_subtopic_ignored_witness :
  processMessage assets_up "a" "run-progress" message_passed demo_state
  = (Returns tt, demo_state)
  /\ timers demo_state !! timer_id timer_a = Some timer_a
  /\ timer_delay timer_a = (timeout demo_state * 1000)%Z
  /\ emitted (step (Expire (timer_id timer_a)) demo_state)
     = emitted demo_state
       ++ [CHECK_FAILED (timer_check timer_a) (timeout_message demo_state);
           CHECK_FINISHED (timer_check timer_a)].
Proof.
  apply (C10_other_subtopic_ignored assets_up "a" "run-progress"
           message_passed demo_state timer_a).
  - exists "acc", 5%Z, false, demo_setup. reflexivity.
  - vm_compute. reflexivity.
  - discriminate.
  - discriminate.
  - discriminate.
Defined.

(** C7. A [run-start] message for a pending check emits
    [CHECK_INPROGRESS] for that check and touches neither the registry nor
    the timers: the timer of the check stays armed with the delay it was
    set with, and its expiry still reports the timeout. *)
Theorem C7_run_start_in_progress (o : Assets) (checkRunId : string)
    (message : JsVal) (s : State) (t : Timeout) :
  reachable s ->
  timeouts s !! checkRunId = Some t ->
  let s' := snd (processMessage o checkRunId "run-start" message s) in
  fst (processMessage o checkRunId "run-start" message s) = Returns tt
  /\ (exists cs, checks s = Some cs /\ cs !! checkRunId = Some (timer_check t))
  /\ emitted s' = emitted s ++ [CHECK_INPROGRESS (timer_check t)]
  /\ timeouts s' = timeouts s
  /\ timers s' = timers s
  /\ timers s' !! timer_id t = Some t
  /\ timer_delay t = timer_after (timeout s' * 1000)
  /\ emitted (step (Expire (timer_id t)) s')
     = emitted s' ++ [CHECK_FAILED (timer_check t) (timeout_message s');
                      CHECK_FINISHED (timer_check t)].
Proof.
  intros Hr Hk.
  destruct (armed_facts s checkRunId t Hr Hk)
    as (cs & Hcs & Hc & Hg & Ha & Hb & Hd).
  unfold processMessage, processMessage_begin.
  rewrite Hk, Hcs, Hg. cbn [String.eqb Ascii.eqb Bool.eqb fst snd].
  repeat split; eauto.
  apply expire_emitted. exact Ha.
Qed.

Lemma C7_run_start_in_progress_witness :
  emitted (snd (processMessage assets_up "a" "run-start" JNull demo_state))
  = [demo_started; CHECK_INPROGRESS (JStr "A")]
  /\ timers (snd (processMessage assets_up "a" "run-start" JNull demo_state))
       !! 0 = Some timer_a.
Proof.
  destruct (C7_run_start_in_progress assets_up "a" JNull demo_state timer_a)
    as (_ & _ & He & _ & _ & Ht & _).
  - exists "acc", 5%Z, false, demo_setup. reflexivity.
  - vm_compute. reflexivity.
  - split; [exact He | exact Ht].
Defined.

(** C8. An [error] message for a pending check cancels the timer of the
    check (its entry leaves the registry and no armed timer is left for
    it) and emits [CHECK_FAILED] with the message as the backend sent it,
    then [CHECK_FINISHED], both for that check. *)
Theorem C8_error_reported (o : Assets) (checkRunId : string)
    (message : JsVal) (s : State) (t : Timeout) :
  reachable s ->
  timeouts s !! checkRunId = Some t ->
  let s' := snd (processMessage o checkRunId "error" message s) in
  fst (processMessage o checkRunId "error" message s) = Returns tt
  /\ (exists cs, checks s = Some cs /\ cs !! checkRunId = Some (timer_check t))
  /\ timeouts s' !! checkRunId = None
  /\ timers s' !! timer_id t = None
  /\ (forall id t', timers s' !! id = Some t' -> timer_checkRunId t' <> checkRunId)
  /\ emitted s' = emitted s ++ [CHECK_FAILED (timer_check t) message;
                                CHECK_FINISHED (timer_check t)].
Proof.
  intros Hr Hk.
  destruct (armed_facts s checkRunId t Hr Hk)
    as (cs & Hcs & Hc & Hg & Ha & Hb & Hd).
  pose proof (reachable_registry_ok s Hr) as Hreg.
  destruct (disableTimeout_cancels checkRunId s Hreg) as [Hgone Hnone].
  unfold processMessage, processMessage_begin.
  rewrite Hk, Hcs, Hg. cbn [String.eqb Ascii.eqb Bool.eqb fst snd].
  fields.
  split; [reflexivity|]. split; [eauto|].
  split; [apply lookup_delete_eq|].
  split; [rewrite disableTimeout_timers, Hk; apply lookup_delete_eq|].
  split; [exact Hnone|].
  now rewrite <- app_assoc.
Qed.

Lemma C8_error_reported_witness :
  emitted (snd (processMessage assets_up "b" "error" (JStr "boom") demo_state))
  = [demo_started; CHECK_FAILED (JStr "B") (JStr "boom");
     CHECK_FINISHED (JStr "B")]
  /\ timeouts (snd (processMessage assets_up "b" "error" (JStr "boom") demo_state))
       !! "b" = None.
Proof.
  destruct (C8_error_reported assets_up "b" (JStr "boom") demo_state timer_b)
    as (_ & _ & Hgone & _ & _ & He).
  - exists "acc", 5%Z, false, demo_setup. reflexivity.
  - vm_compute. reflexivity.
  - split; [exact He | exact Hgone].
Defined.

(** ** The timeout of a check *)

Lemma disableAllTimeouts_timeout s : timeout (disableAllTimeouts s) = timeout s.
Proof.
  unfold disableAllTimeouts. destruct (checks s) as [cs|]; [|reflexivity].
  generalize (map_to_list cs). intros l. revert s.
  induction l as [|entry l IH]; intros s; [reflexivity|].
  simpl. rewrite IH. apply disableTimeout_timeout.
Qed.

Lemma run_catch_timeout e b s : timeout (run_finally b (run_catch e s)) = timeout s.
Proof.
  unfold run_finally, run_catch. destruct b; fields;
    apply disableAllTimeouts_timeout.
Qed.

Lemma settle_timeout turn : timeout (settle turn) = timeout (snd turn).
Proof.
  destruct turn as [[e|] s]; [|reflexivity]. cbn [settle snd].
  unfold process_exit. fields.
  now destruct (handled_same_run _ _ (run_queue_handled s)).
Qed.

Lemma run_start_checks_timeout r s started :
  run_start_checks r s = Returns started -> timeout (snd started) = timeout s.
Proof.
  unfold run_start_checks, setAllTimeouts, allChecksFinished. simpl.
  destruct (armed_frame (set_checks (Some (sched_checks r)) s)
              (map_to_list (sched_checks r))) as (Hc & Ht & _).
  rewrite Hc. simpl.
  assert (Hq : forall s0, timeout (snd (queue_start s0)) = timeout s0).
  { intros s0. unfold queue_start. destruct (queueStarted s0); [reflexivity|].
    now destruct (handled_same_run _ _ (start_another_handled
                                          (set_queueStarted true s0))). }
  destruct (Nat.eqb (size (sched_checks r)) 0); cbn [bindO];
    match goal with
    | |- context [queue_start ?s0] =>
        specialize (Hq s0); destruct (queue_start s0) as [task s4]
    end;
    intros [= <-]; cbn [snd] in *; fields; rewrite Hq; fields; exact Ht.
Qed.

(** [this.timeout] is what the constructor was given. *)
Lemma step_timeout l s : timeout (step l s) = timeout s.
Proof.
  destruct l.
  - unfold step. destruct r, (phase s); try reflexivity.
    apply run_catch_timeout.
  - unfold step. destruct r, (phase s); try reflexivity.
    apply run_catch_timeout.
  - unfold step. destruct r as [r|e], (phase s); try reflexivity.
    + destruct (run_start_checks r s) as [started|e] eqn:E.
      * rewrite settle_timeout. now apply (run_start_checks_timeout r).
      * now rewrite run_catch_timeout.
    + apply run_catch_timeout.
  - rewrite step_Arrive. now destruct (listening s).
  - rewrite step_Next, settle_timeout.
    now destruct (handled_same_run _ _ (start_another_handled s)).
  - rewrite step_Fetched, settle_timeout.
    now destruct (handled_same_run _ _ (resume_task_handled o s)).
  - rewrite step_Expire. destruct (timers s !! id); [|reflexivity].
    unfold timeout_callback. now fields.
  - rewrite step_Resume. destruct (phase s); try reflexivity.
    destruct (Nat.ltb 0 (resolutions s)); [|reflexivity].
    unfold run_finally. now fields.
Qed.

Lemma exec_timeout ls s : timeout (exec ls s) = timeout s.
Proof.
  revert s. induction ls as [|l ls IH]; intros s; [reflexivity|].
  now rewrite exec_cons, IH, step_timeout.
Qed.

(** Below [2^53] a whole number is spelled with its digits. *)
Lemma Number_toString_digits (x : Z) :
  (Z.abs x < 2 ^ 53)%Z -> Number_toString x = pretty x.
Proof.
  intros H. unfold Number_toString.
  destruct (Z.ltb_spec (Z.abs x) (2 ^ 53)); [reflexivity | lia].
Qed.

Example Number_toString_safe : Number_toString 2147484 = "2147484".
Proof. reflexivity. Qed.

Example Number_toString_rounded :
  Number_toString (2 ^ 64) = "18446744073709552000".
Proof. vm_compute. reflexivity. Qed.

Example Number_toString_exponent :
  Number_toString (10 ^ 21) = "1e+21"
  /\ Number_toString (2 ^ 70) = "1.1805916207174113e+21".
Proof. split; vm_compute; reflexivity. Qed.

(** A delay Node accepts is the delay of the timer. *)
Lemma timer_after_accepted (delay : Z) :
  (1 <= delay <= TIMEOUT_MAX)%Z -> timer_after delay = delay.
Proof.
  intros [H1 H2]. unfold timer_after.
  destruct (Z.leb_spec 1 delay); [|lia].
  destruct (Z.leb_spec delay TIMEOUT_MAX); [reflexivity | lia].
Qed.

(** C5. When the timer of a check expires, the entry of the check leaves
    the registry and [CHECK_FAILED] is emitted once, with the message that
    the timeout was reached, followed by [CHECK_FINISHED]; the timer does
    not fire again.  The timer was armed by [setTimeout] with
    [seconds * 1000], [seconds] being the timeout the runner was
    constructed with: when [seconds] is from 1 to 2147483, so that Node
    accepts the delay, the timer was set for [seconds * 1000]
    milliseconds, and the message spells [seconds] with its digits. *)
Theorem C5_timeout_reported (accountId : string) (seconds : Z) (verbose : bool)
    (ls : list Label) (id : nat) (t : Timeout) :
  let s := exec ls (constructor accountId seconds verbose) in
  let s' := step (Expire id) s in
  timers s !! id = Some t ->
  timeouts s !! timer_checkRunId t = Some t
  /\ (exists cs, checks s = Some cs
                 /\ cs !! timer_checkRunId t = Some (timer_check t))
  /\ timer_delay t = timer_after (seconds * 1000)
  /\ timeouts s' !! timer_checkRunId t = None
  /\ timers s' !! id = None
  /\ emitted s'
     = emitted s
       ++ [CHECK_FAILED (timer_check t)
             (JStr ("Reached timeout of " ++ Number_toString seconds
                    ++ " seconds waiting for check result."));
           CHECK_FINISHED (timer_check t)]
  /\ step (Expire id) s' = s'
  /\ ((1 <= seconds <= 2147483)%Z ->
      timer_delay t = (seconds * 1000)%Z
      /\ Number_toString seconds = pretty seconds).
Proof.
  intros s s' Hid.
  assert (Hr : reachable s) by (exists accountId, seconds, verbose, ls; reflexivity).
  pose proof (reachable_registry_ok s Hr) as Hreg.
  destruct (timer_entry _ Hreg _ _ Hid) as [Hidt Hk].
  destruct (armed_facts s _ t Hr Hk) as (cs & Hcs & Hc & Hg & Ha & Hb & Hd).
  assert (Hto : timeout s = seconds).
  { unfold s. now rewrite exec_timeout. }
  assert (Hgone : timers s' !! id = None).
  { unfold s'. rewrite (expire_armed id t s Hid), timeout_callback_timers.
    simpl. apply lookup_delete_eq. }
  split; [exact Hk|]. split; [eauto|]. split; [now rewrite Hd, Hto|].
  split; [|split; [exact Hgone|split; [|split]]].
  - unfold s'. rewrite (expire_armed id t s Hid), timeout_callback_timeouts.
    apply lookup_delete_eq.
  - unfold s'. rewrite (expire_emitted id t s Hid).
    unfold timeout_message. now rewrite Hto.
  - now apply expire_cleared.
  - intros Hb'. split.
    + rewrite Hd, Hto. apply timer_after_accepted. unfold TIMEOUT_MAX. lia.
    + apply Number_toString_digits. lia.
Qed.

Lemma C5_timeout_reported_witness :
  timers demo_state !! 1 = Some timer_b
  /\ emitted (step (Expire 1) demo_state)
     = [demo_started;
        CHECK_FAILED (JStr "B")
          (JStr "Reached timeout of 5 seconds waiting for check result.");
        CHECK_FINISHED (JStr "B")]
  /\ (1 <= 5 <= 2147483)%Z
  /\ timer_delay timer_b = 5000%Z.
Proof.
  split; [vm_compute; reflexivity|].
  destruct (C5_timeout_reported "acc" 5 false demo_setup 1 timer_b)
    as (_ & _ & _ & _ & _ & He & _ & Hb).
  - vm_compute. reflexivity.
  - split; [exact He|]. split; [lia|]. apply Hb. lia.
Defined.

(** A timeout of 2147484 seconds: [2147484000] is above [TIMEOUT_MAX],
    and the timers are armed for one millisecond. *)
Lemma C5_long_timeout_counterexample :
  exists t,
    timers (exec demo_setup (constructor "acc" 2147484 false)) !! 1 = Some t
    /\ timer_delay t = 1%Z
    /\ timer_delay t <> (2147484 * 1000)%Z.
Proof.
  eexists. split; [vm_compute; reflexivity|].
  split; [reflexivity | discriminate].
Qed.

(** ** The [run-end] message *)

Lemma read_assets_object result a :
  read_assets result = Returns a ->
  exists hasFailures, get_prop result "hasFailures" = Returns hasFailures.
Proof. intros H. destruct result; simpl in *; try discriminate; eauto. Qed.

Lemma wants_artifacts_spec verbose result hasFailures :
  get_prop result "hasFailures" = Returns hasFailures ->
  wants_artifacts verbose result = Returns (verbose || has_failures result).
Proof.
  intros H. unfold wants_artifacts, has_failures. rewrite H.
  now destruct verbose.
Qed.

Lemma has_failures_set_prop result name x :
  name <> "hasFailures" ->
  has_failures (set_prop result name x) = has_failures result.
Proof.
  intros H. unfold has_failures. now rewrite get_prop_set_prop_ne.
Qed.

(** Lines 126-131 when the asset service answers: the result with the
    artifacts that were asked for. *)
Lemma fetch_artifacts_spec o verbose a result :
  read_assets result = Returns a ->
  artifacts_available o verbose a result ->
  exists r1 r2,
    fetch_logs o verbose a result = Returns r1
    /\ fetch_checkRunData o verbose a r1 = Returns r2
    /\ has_failures r2 = has_failures result.
Proof.
  intros Hread [Hlogs Hdata].
  destruct (read_assets_object _ _ Hread) as [hf Hhf].
  assert (H1 : exists r1,
             fetch_logs o verbose a result = Returns r1
             /\ get_prop r1 "hasFailures" = Returns hf
             /\ has_failures r1 = has_failures result).
  { unfold fetch_logs.
    destruct (truthy (logPath a)) eqn:Ep; [|eauto].
    rewrite (wants_artifacts_spec verbose result hf Hhf). cbn [bindO].
    destruct (verbose || has_failures result) eqn:E; [|eauto].
    specialize (Hlogs eq_refl).
    destruct (getLogs o (region a) (logPath a)) as [logs|e]; [|discriminate].
    cbn [bindO]. eexists. split; [reflexivity|].
    now rewrite get_prop_set_prop_ne, has_failures_set_prop. }
  destruct H1 as (r1 & E1 & Hhf1 & Hf1).
  exists r1. rewrite E1. unfold fetch_checkRunData.
  destruct (truthy (checkRunDataPath a)) eqn:Ep; [|eauto].
  rewrite (wants_artifacts_spec verbose r1 hf Hhf1), Hf1. cbn [bindO].
  destruct (verbose || has_failures result) eqn:E; [|eauto].
  specialize (Hdata eq_refl).
  destruct (getCheckRunData o (region a) (checkRunDataPath a)) as [data|e];
    [|discriminate].
  cbn [bindO]. eexists. split; [reflexivity|]. split; [reflexivity|].
  now rewrite has_failures_set_prop.
Qed.

(** The [run-end] branch from [disableTimeout] on, when the payload has
    its [result.assets] and the artifacts are available: whatever the
    links do, both events are emitted. *)
Lemma report_run_end_spec o check message result a s :
  get_prop message "result" = Returns result ->
  read_assets result = Returns a ->
  artifacts_available o (verbose s) a result ->
  exists r1 r2,
    fetch_logs o (verbose s) a result = Returns r1
    /\ fetch_checkRunData o (verbose s) a r1 = Returns r2
    /\ has_failures r2 = has_failures result
    /\ report_run_end o (mkSuspended check message) s
       = (Returns tt,
          emit (CHECK_FINISHED check)
            (emit (CHECK_SUCCESSFUL check (enrich_links o a r2)) s)).
Proof.
  intros Hres Hread Hav.
  destruct (fetch_artifacts_spec o (verbose s) a result Hread Hav)
    as (r1 & r2 & H1 & H2 & H3).
  exists r1, r2. repeat split; auto.
  unfold report_run_end, enrich. cbn [susp_message susp_check].
  rewrite Hres. cbn [bindO]. rewrite Hread. cbn [bindO].
  rewrite H1. cbn [bindO]. rewrite H2. reflexivity.
Qed.

(** When the links of the traces cannot be resolved, the result is
    reported without them, and the videos are not asked for. *)
Lemma enrich_links_traces_fail o a result :
  has_failures result = true ->
  has_items (playwrightTestTraceFiles a) = true ->
  is_Returns (resolve_links o (region a) (playwrightTestTraceFiles a)) = false ->
  enrich_links o a result = result.
Proof.
  intros Hf Hi Hl. unfold enrich_links, has_failures in *.
  destruct (get_prop result "hasFailures") as [hf|]; [|reflexivity].
  rewrite Hf. unfold attach_links. rewrite Hi.
  destruct (resolve_links o (region a) (playwrightTestTraceFiles a));
    [discriminate|reflexivity].
Qed.

(** When the links of the videos cannot be resolved, the result is
    reported with what was attached before. *)
Lemma enrich_links_videos_fail o a result r1 :
  has_failures result = true ->
  attach_links o (region a) "traceFilesUrls" (playwrightTestTraceFiles a) result
  = Returns r1 ->
  has_items (playwrightTestVideoFiles a) = true ->
  is_Returns (resolve_links o (region a) (playwrightTestVideoFiles a)) = false ->
  enrich_links o a result = r1.
Proof.
  intros Hf Ht Hi Hl. unfold enrich_links, has_failures in *.
  destruct (get_prop result "hasFailures") as [hf|]; [|discriminate].
  rewrite Hf, Ht. unfold attach_links. rewrite Hi.
  destruct (resolve_links o (region a) (playwrightTestVideoFiles a));
    [discriminate|reflexivity].
Qed.

(** *** Once the checks are dispatched no timer is armed any more *)

Lemma step_late l s :
  ~ setting_up s ->
  ~ setting_up (step l s)
  /\ forall id t, timers (step l s) !! id = Some t -> timers s !! id = Some t.
Proof.
  intros Hlate.
  assert (Hkeep : forall s', phase s' = phase s -> ~ setting_up s').
  { intros s' E. unfold setting_up in *. now rewrite E. }
  assert (Hret : forall s', phase s' = Returned -> ~ setting_up s').
  { intros s' E. unfold setting_up. rewrite E.
    intros [?|[?|?]]; discriminate. }
  destruct l.
  - rewrite step_setup_late; [auto | exact I | assumption].
  - rewrite step_setup_late; [auto | exact I | assumption].
  - rewrite step_setup_late; [auto | exact I | assumption].
  - rewrite step_Arrive. destruct (listening s); split; auto.
  - destruct (step_Next_cases s) as (s' & H & Hc).
    destruct (turn_shrinks s s' _ H Hc) as (H1 & _ & H3). auto.
  - destruct (step_Fetched_cases o s) as (s' & H & Hc).
    destruct (turn_shrinks s s' _ H Hc) as (H1 & _ & H3). auto.
  - rewrite step_Expire. destruct (timers s !! id) as [t0|] eqn:E; [|auto].
    split; [apply Hkeep; unfold timeout_callback; now fields|].
    intros id' t. rewrite timeout_callback_timers. simpl.
    intros H. now apply lookup_delete_Some in H as [_ H].
  - rewrite step_Resume. destruct (phase s) eqn:E; auto.
    destruct (Nat.ltb 0 (resolutions s)); [|auto].
    unfold run_finally. split; [apply Hret; now fields|]. fields. auto.
Qed.

Lemma exec_late ls s :
  ~ setting_up s ->
  forall id t, timers (exec ls s) !! id = Some t -> timers s !! id = Some t.
Proof.
  revert s. induction ls as [|l ls IH]; intros s Hlate id t H; [assumption|].
  rewrite exec_cons in H.
  destruct (step_late l s Hlate) as [Hlate' Hsub].
  apply Hsub. now apply (IH _ Hlate').
Qed.

(** A timer that is not armed stays so, whatever happens next: its
    expiry does nothing. *)
Lemma cleared_for_good ls id s :
  ~ setting_up s -> timers s !! id = None ->
  step (Expire id) (exec ls s) = exec ls s.
Proof.
  intros Hlate Hid. apply expire_cleared.
  destruct (timers (exec ls s) !! id) as [t|] eqn:E; [|reflexivity].
  apply (exec_late ls s Hlate) in E. congruence.
Qed.

(** A state with an entry in the registry is past the dispatch. *)
Lemma armed_late s k t :
  reachable s -> timeouts s !! k = Some t -> ~ setting_up s.
Proof.
  intros Hr Hk Hs.
  pose proof (inv_setting_up _ (reachable_Inv s Hr) Hs) as Hp.
  rewrite (pristine_timeouts _ Hp), lookup_empty in Hk. discriminate.
Qed.

(** What [processMessage] does with a [run-end] message for a pending
    check. *)
Lemma processMessage_run_end o k m s t :
  reachable s -> timeouts s !! k = Some t ->
  processMessage o k "run-end" m s
  = report_run_end o (mkSuspended (timer_check t) m) (disableTimeout k s).
Proof.
  intros Hr Hk.
  destruct (armed_facts s k t Hr Hk) as (cs & Hcs & Hc & Hg & _).
  unfold processMessage, processMessage_begin.
  rewrite Hk, Hcs, Hg. reflexivity.
Qed.

Lemma report_run_end_timers o p s :
  timeouts (snd (report_run_end o p s)) = timeouts s
  /\ timers (snd (report_run_end o p s)) = timers s.
Proof.
  unfold report_run_end. destruct (enrich _ _ _); cbn [snd]; now fields.
Qed.

(** A [run-end] message for a pending check, with [result.assets] in its
    payload and the artifacts available, is reported. *)
Lemma run_end_emits o k m result a s t :
  reachable s ->
  timeouts s !! k = Some t ->
  get_prop m "result" = Returns result ->
  read_assets result = Returns a ->
  artifacts_available o (verbose s) a result ->
  exists r1 r2,
    fetch_logs o (verbose s) a result = Returns r1
    /\ fetch_checkRunData o (verbose s) a r1 = Returns r2
    /\ has_failures r2 = has_failures result
    /\ fst (processMessage o k "run-end" m s) = Returns tt
    /\ emitted (snd (processMessage o k "run-end" m s))
       = emitted s ++ [CHECK_SUCCESSFUL (timer_check t) (enrich_links o a r2);
                       CHECK_FINISHED (timer_check t)].
Proof.
  intros Hr Hk Hres Hread Hav.
  rewrite (processMessage_run_end o k m s t Hr Hk).
  assert (Hav' : artifacts_available o (verbose (disableTimeout k s)) a result)
    by now fields.
  destruct (report_run_end_spec o (timer_check t) m result a
              (disableTimeout k s) Hres Hread Hav')
    as (r1 & r2 & H1 & H2 & H3 & H4).
  rewrite disableTimeout_verbose in H1, H2.
  exists r1, r2. rewrite H4. cbn [fst snd]. fields.
  split; [assumption|]. split; [assumption|]. split; [assumption|].
  split; [reflexivity|]. now rewrite <- app_assoc.
Qed.

(** C1.  For a [run-end] message handled for a pending check, whose
    payload has [result.assets], and for which the asset service delivers
    the logs and the check-run data it is asked for: whatever becomes of
    the requests for the trace and video links, [CHECK_SUCCESSFUL] and
    then [CHECK_FINISHED] are emitted for the check.  A failure to resolve
    the links is swallowed: the result is reported with what was attached
    until then. *)
Theorem C1_link_failures_swallowed (o : Assets) (checkRunId : string)
    (message result : JsVal) (a : AssetRefs) (s : State) (t : Timeout) :
  reachable s ->
  timeouts s !! checkRunId = Some t ->
  get_prop message "result" = Returns result ->
  read_assets result = Returns a ->
  artifacts_available o (verbose s) a result ->
  exists r1 r2,
    fetch_logs o (verbose s) a result = Returns r1
    /\ fetch_checkRunData o (verbose s) a r1 = Returns r2
    /\ fst (processMessage o checkRunId "run-end" message s) = Returns tt
    /\ emitted (snd (processMessage o checkRunId "run-end" message s))
       = emitted s ++ [CHECK_SUCCESSFUL (timer_check t) (enrich_links o a r2);
                       CHECK_FINISHED (timer_check t)]
    /\ (has_failures result = true ->
        has_items (playwrightTestTraceFiles a) = true ->
        is_Returns (resolve_links o (region a) (playwrightTestTraceFiles a))
        = false ->
        enrich_links o a r2 = r2)
    /\ (forall r3,
        has_failures result = true ->
        attach_links o (region a) "traceFilesUrls"
          (playwrightTestTraceFiles a) r2 = Returns r3 ->
        has_items (playwrightTestVideoFiles a) = true ->
        is_Returns (resolve_links o (region a) (playwrightTestVideoFiles a))
        = false ->
        enrich_links o a r2 = r3).
Proof.
  intros Hr Hk Hres Hread Hav.
  destruct (run_end_emits o checkRunId message result a s t Hr Hk Hres Hread Hav)
    as (r1 & r2 & H1 & H2 & H3 & Hfst & He).
  exists r1, r2.
  split; [assumption|]. split; [assumption|]. split; [assumption|].
  split; [assumption|]. split.
  - intros Hf. apply enrich_links_traces_fail. congruence.
  - intros r3 Hf. apply enrich_links_videos_fail. congruence.
Qed.

(** The links cannot be resolved, and the check is reported all the
    same, with its logs and its check-run data. *)
Lemma C1_link_failures_swallowed_witness :
  timeouts demo_state !! "a" = Some timer_a
  /\ get_prop message_failed "result" = Returns result_failed
  /\ read_assets result_failed = Returns refs_failed
  /\ emitted (snd (processMessage assets_links_down "a" "run-end"
                     message_failed demo_state))
     = [demo_started;
        CHECK_SUCCESSFUL (JStr "A")
          (JObj [("hasFailures", JBool true); ("assets", assets_failed);
                 ("logs", JStr "log lines");
                 ("checkRunData", JStr "check run data")]);
        CHECK_FINISHED (JStr "A")].
Proof.
  split; [vm_compute; reflexivity|].
  split; [reflexivity|]. split; [reflexivity|].
  destruct (C1_link_failures_swallowed assets_links_down "a" message_failed
              result_failed refs_failed demo_state timer_a)
    as (r1 & r2 & H1 & H2 & _ & He & _).
  - exists "acc", 5%Z, false, demo_setup. reflexivity.
  - vm_compute. reflexivity.
  - reflexivity.
  - reflexivity.
  - split; intros _; reflexivity.
  - vm_compute in H1. injection H1 as <-.
    vm_compute in H2. injection H2 as <-.
    rewrite He. vm_compute. reflexivity.
Defined.

(** The request for the logs is not in the [try].  When it is rejected,
    [processMessage] throws after it has cancelled the timer of the check,
    and neither [CHECK_SUCCESSFUL] nor [CHECK_FINISHED] is emitted. *)
Lemma C1_logs_failure_counterexample :
  reachable demo_state
  /\ timeouts demo_state !! "a" = Some timer_a
  /\ get_prop message_failed "result" = Returns result_failed
  /\ read_assets result_failed = Returns refs_failed
  /\ fst (processMessage assets_logs_down "a" "run-end" message_failed demo_state)
     = Throws (Rejected "getLogs: 503")
  /\ emitted (snd (processMessage assets_logs_down "a" "run-end"
                     message_failed demo_state))
     = [demo_started]
  /\ timeouts (snd (processMessage assets_logs_down "a" "run-end"
                      message_failed demo_state)) !! "a" = None
  /\ ~ (exists check result,
          emitted (snd (processMessage assets_logs_down "a" "run-end"
                          message_failed demo_state))
          = emitted demo_state ++ [CHECK_SUCCESSFUL check result;
                                   CHECK_FINISHED check]).
Proof.
  split; [apply demo_state_reachable|].
  split; [vm_compute; reflexivity|].
  split; [reflexivity|]. split; [reflexivity|].
  split; [vm_compute; reflexivity|].
  split; [vm_compute; reflexivity|].
  split; [vm_compute; reflexivity|].
  intros (check & result & H). vm_compute in H. discriminate H.
Qed.

(** C4.  A [run-end] message handled for a pending check takes the entry
    of the check out of the registry and cancels its timer, so that an
    expiry of that timer at any later point of the run does nothing; and
    when the payload has [result.assets] and the asset service delivers
    the logs and the check-run data it is asked for, [CHECK_SUCCESSFUL]
    and then [CHECK_FINISHED] are emitted for the check. *)
Theorem C4_run_end_reported (o : Assets) (checkRunId : string)
    (message : JsVal) (s : State) (t : Timeout) :
  reachable s ->
  timeouts s !! checkRunId = Some t ->
  let s' := snd (processMessage o checkRunId "run-end" message s) in
  timeouts s' !! checkRunId = None
  /\ timers s' !! timer_id t = None
  /\ (forall id t', timers s' !! id = Some t' -> timer_checkRunId t' <> checkRunId)
  /\ (forall ls, step (Expire (timer_id t)) (exec ls s') = exec ls s')
  /\ (forall result a,
        get_prop message "result" = Returns result ->
        read_assets result = Returns a ->
        artifacts_available o (verbose s) a result ->
        fst (processMessage o checkRunId "run-end" message s) = Returns tt
        /\ exists reported,
             emitted s' = emitted s ++ [CHECK_SUCCESSFUL (timer_check t) reported;
                                        CHECK_FINISHED (timer_check t)]).
Proof.
  intros Hr Hk s'.
  pose proof (reachable_registry_ok s Hr) as Hreg.
  destruct (disableTimeout_cancels checkRunId s Hreg) as [Hgone Hnone].
  assert (Hs' : timeouts s' = timeouts (disableTimeout checkRunId s)
                /\ timers s' = timers (disableTimeout checkRunId s)).
  { unfold s'. rewrite (processMessage_run_end o checkRunId message s t Hr Hk).
    apply report_run_end_timers. }
  destruct Hs' as [Hts Htm].
  assert (Hcleared : timers s' !! timer_id t = None).
  { rewrite Htm, disableTimeout_timers, Hk. apply lookup_delete_eq. }
  split; [now rewrite Hts|]. split; [exact Hcleared|].
  split; [now rewrite Htm|].
  split.
  { intros ls. apply cleared_for_good; [|exact Hcleared].
    assert (Hph : phase s' = phase s).
    { unfold s'.
      rewrite (processMessage_run_end o checkRunId message s t Hr Hk).
      unfold report_run_end. destruct (enrich _ _ _); cbn [snd]; now fields. }
    intros Hs. apply (armed_late s checkRunId t Hr Hk).
    unfold setting_up in *. now rewrite <- Hph. }
  intros result a Hres Hread Hav.
  destruct (run_end_emits o checkRunId message result a s t
              Hr Hk Hres Hread Hav) as (r1 & r2 & _ & _ & _ & Hfst & He).
  split; [exact Hfst|]. eexists. exact He.
Qed.

(** Check ["a"] passed: it is reported, and its timer is gone. *)
Lemma C4_run_end_reported_witness :
  timeouts demo_state !! "a" = Some timer_a
  /\ get_prop message_passed "result" = Returns result_passed
  /\ read_assets result_passed = Returns refs_passed
  /\ emitted (snd (processMessage assets_up "a" "run-end" message_passed
                     demo_state))
     = [demo_started; CHECK_SUCCESSFUL (JStr "A") result_passed;
        CHECK_FINISHED (JStr "A")]
  /\ timers (snd (processMessage assets_up "a" "run-end" message_passed
                    demo_state)) !! 0 = None.
Proof.
  split; [vm_compute; reflexivity|].
  split; [reflexivity|]. split; [reflexivity|].
  destruct (C4_run_end_reported assets_up "a" message_passed demo_state timer_a)
    as (_ & Hgone & _ & _ & Hemit).
  - exists "acc", 5%Z, false, demo_setup. reflexivity.
  - vm_compute. reflexivity.
  - split; [|exact Hgone].
    destruct (Hemit result_passed refs_passed) as (_ & reported & He).
    + reflexivity.
    + reflexivity.
    + split; intros H; vm_compute in H; discriminate H.
    + vm_compute. reflexivity.
Defined.

(** The check-run data cannot be fetched: the timer of the check is
    cancelled, [processMessage] throws, and nothing is emitted for the
    check. *)
Lemma C4_data_failure_counterexample :
  reachable demo_state
  /\ timeouts demo_state !! "a" = Some timer_a
  /\ fst (processMessage assets_data_down "a" "run-end" message_failed demo_state)
     = Throws (Rejected "getCheckRunData: 503")
  /\ timeouts (snd (processMessage assets_data_down "a" "run-end"
                      message_failed demo_state)) !! "a" = None
  /\ emitted (snd (processMessage assets_data_down "a" "run-end"
                     message_failed demo_state))
     = [demo_started]
  /\ ~ (exists check result,
          emitted (snd (processMessage assets_data_down "a" "run-end"
                          message_failed demo_state))
          = emitted demo_state ++ [CHECK_SUCCESSFUL check result;
                                   CHECK_FINISHED check]).
Proof.
  split; [apply demo_state_reachable|].
  split; [vm_compute; reflexivity|].
  split; [vm_compute; reflexivity|].
  split; [vm_compute; reflexivity|].
  split; [vm_compute; reflexivity|].
  intros (check & result & H). vm_compute in H. discriminate H.
Qed.

(** ** A failure while the run is set up *)

Lemma setup_failure_failed l e s :
  reachable s -> setup_failure l e s ->
  pristine s /\ failed e (step l s)
  /\ (phase s = Connecting -> calls (step l s) = []).
Proof.
  intros Hr Hf.
  assert (Hp : pristine s).
  { apply (inv_setting_up _ (reachable_Inv s Hr)). unfold setting_up.
    destruct Hf as [[? _]|[[? _]|[? _]]]; auto. }
  split; [assumption|].
  destruct Hf as [[Hph [v4 ->]]|[[Hph ->]|[Hph ->]]];
    unfold step; rewrite Hph;
    (split; [now apply run_catch_pristine|]); try (intros; congruence).
  intros _. unfold run_finally, run_catch, disableAllTimeouts.
  rewrite (pristine_checks _ Hp). fields. now apply (pristine_calls _ Hp).
Qed.

(** C6. When the connection, the subscription or the dispatch fails, the
    run ends there: [ERROR] is the only event it ever emits (no event of a
    check, no [RUN_FINISHED]), and no timer is armed or registered.
    When it is the connection that fails, no call to a collaborator is
    made: the checks are never dispatched. *)
Theorem C6_setup_failure (l : Label) (e : Thrown) (s : State) (ls : list Label) :
  reachable s ->
  setup_failure l e s ->
  let s' := exec ls (step l s) in
  phase s' = Returned
  /\ emitted s' = [ERROR e]
  /\ timers s' = ∅
  /\ timeouts s' = ∅
  /\ existsb is_check_event (emitted s') = false
  /\ existsb is_RUN_FINISHED (emitted s') = false
  /\ (phase s = Connecting ->
      calls s' = [] /\ existsb is_CallScheduleChecks (calls s') = false).
Proof.
  intros Hr Hf s'.
  destruct (setup_failure_failed l e s Hr Hf) as (Hp & Hfailed & Hcalls).
  unfold s'. rewrite (exec_failed e ls _ Hfailed).
  destruct Hfailed as [F1 F2 F3 F4 F5 F6 F7].
  rewrite F2.
  split; [assumption|]. split; [reflexivity|]. split; [assumption|].
  split; [assumption|]. split; [reflexivity|]. split; [reflexivity|].
  intros Hph. now rewrite (Hcalls Hph).
Qed.

(** The dispatch fails; the messages and the timers that come later find
    nothing to do. *)
Lemma C6_setup_failure_witness :
  setup_failure (Dispatched (Throws (Rejected "dispatch failed")))
    (Rejected "dispatch failed") demo_subscribed
  /\ emitted (exec [Arrive "a" "run-end" message_passed; Next; Expire 0; Resume]
                (step (Dispatched (Throws (Rejected "dispatch failed")))
                   demo_subscribed))
     = [ERROR (Rejected "dispatch failed")].
Proof.
  assert (Hf : setup_failure (Dispatched (Throws (Rejected "dispatch failed")))
                 (Rejected "dispatch failed") demo_subscribed).
  { right. right. split; reflexivity. }
  split; [exact Hf|].
  destruct (C6_setup_failure (Dispatched (Throws (Rejected "dispatch failed")))
              (Rejected "dispatch failed") demo_subscribed
              [Arrive "a" "run-end" message_passed; Next; Expire 0; Resume])
    as (_ & He & _).
  - exists "acc", 5%Z, false,
      [Connected (Returns tt) "suite"; Subscribed (Returns tt)].
    reflexivity.
  - exact Hf.
  - exact He.
Defined.

(** ** The end of the run *)

Lemma exec_finished ls s :
  finished s -> registry_ok s ->
  finished (exec ls s) /\ emitted (exec ls s) = emitted s.
Proof.
  revert s. induction ls as [|l ls IH]; intros s Hf Hreg; [auto|].
  rewrite exec_cons.
  destruct (step_finished l s Hf Hreg) as (Hf' & Hreg' & He).
  destruct (IH _ Hf' Hreg') as [Hf'' He'']. split; [assumption|congruence].
Qed.

Lemma idle_step sid log l s :
  idle sid log s -> is_Resume l = false -> idle sid log (step l s).
Proof.
  intros [H1 H2 H3 H4 H5 H6] Hl.
  assert (Hlate : ~ setting_up s).
  { unfold setting_up. rewrite H1. intros [?|[?|?]]; discriminate. }
  destruct l; try discriminate Hl.
  - rewrite step_setup_late; [now split | exact I | assumption].
  - rewrite step_setup_late; [now split | exact I | assumption].
  - rewrite step_setup_late; [now split | exact I | assumption].
  - rewrite step_Arrive. destruct (listening s); now split.
  - rewrite step_Next.
    destruct (start_another_idle s H4 H6) as (E1 & q & E2).
    destruct (start_another s) as [r s1]. cbn [fst snd] in *. subst r s1.
    now split.
  - rewrite step_Fetched. unfold resume_task. rewrite H6. now split.
  - rewrite step_Expire, H5, lookup_empty. now split.
Qed.

Lemma idle_Resume sid log s :
  idle sid log s ->
  phase (step Resume s) = Returned
  /\ emitted (step Resume s) = log ++ [RUN_FINISHED sid].
Proof.
  intros [H1 H2 H3 H4 H5 H6]. rewrite step_Resume, H1.
  destruct (Nat.ltb_spec 0 (resolutions s)); [|lia].
  unfold run_finally. fields. now rewrite H2.
Qed.

Lemma idle_exec sid rids ls s :
  Inv s -> idle sid [RUN_STARTED sid rids] s ->
  emitted (exec ls s)
  = if existsb is_Resume ls
    then [RUN_STARTED sid rids; RUN_FINISHED sid]
    else [RUN_STARTED sid rids].
Proof.
  revert s. induction ls as [|l ls IH]; intros s Hinv Hidle.
  - simpl. apply Hidle.
  - rewrite exec_cons. cbn [existsb].
    destruct (is_Resume l) eqn:El.
    + destruct l; try discriminate El. cbn [orb].
      destruct (idle_Resume _ _ _ Hidle) as [Hph He].
      pose proof (Inv_step Resume s Hinv) as Hinv'.
      destruct (inv_returned _ Hinv' Hph) as [[e Hf]|Hf].
      * rewrite (failed_emitted _ _ Hf) in He. discriminate He.
      * destruct (exec_finished ls _ Hf (inv_registry _ Hinv')) as [_ He'].
        now rewrite He', He.
    + cbn [orb]. apply IH; [now apply Inv_step | now apply idle_step].
Qed.

(** C9. When the dispatch answers with no check, the promise of
    [allChecksFinished] is resolved at once, [RUN_STARTED] is emitted, and
    the continuation of [run] emits [RUN_FINISHED] right after it:
    whatever happens besides, the events of the run are [RUN_STARTED]
    and then, once the continuation has run, [RUN_FINISHED], with nothing
    in between. *)
Theorem C9_no_checks (r : Scheduled) (s : State) (ls : list Label) :
  reachable s ->
  phase s = Scheduling ->
  size (sched_checks r) = 0 ->
  let s1 := step (Dispatched (Returns r)) s in
  let started := RUN_STARTED (sched_testSessionId r) (sched_testResultIds r) in
  let ended := RUN_FINISHED (sched_testSessionId r) in
  resolutions s1 = 1
  /\ listener s1 = None
  /\ emitted s1 = [started]
  /\ emitted (step Resume s1) = [started; ended]
  /\ emitted (exec ls s1)
     = if existsb is_Resume ls then [started; ended] else [started].
Proof.
  intros Hr Hph Hsize s1 started ended.
  assert (Hp : pristine s).
  { apply (inv_setting_up _ (reachable_Inv s Hr)). unfold setting_up. auto. }
  destruct (step_Dispatched r s Hph Hp) as (s3 & Hd & E1).
  fold s1 in E1.
  assert (Hts3 : timeouts s3 = ∅).
  { apply map_empty. intros k.
    destruct (timeouts s3 !! k) as [t|] eqn:E; [|reflexivity].
    assert (Hk : is_Some (sched_checks r !! k))
      by (apply (dispatched_armed _ _ _ Hd); eauto).
    apply map_size_empty_inv in Hsize. rewrite Hsize, lookup_empty in Hk.
    now destruct Hk. }
  destruct (start_another_idle s3 Hts3 (dispatched_inflight _ _ _ Hd))
    as (E2 & q & E3).
  rewrite E2, E3 in E1. cbn [settle] in E1.
  pose proof (dispatched_resolutions _ _ _ Hd) as Hres.
  pose proof (dispatched_listener _ _ _ Hd) as Hlis.
  rewrite Hsize in Hres, Hlis. cbn [Nat.eqb] in Hres, Hlis.
  assert (Hem : emitted s1 = [started]).
  { rewrite E1. fields. now rewrite (dispatched_emitted _ _ _ Hd). }
  assert (Hinv : Inv s1) by (apply Inv_step, reachable_Inv, Hr).
  assert (Hidle : idle (sched_testSessionId r) [started] s1).
  { rewrite E1. split; cbn [emit]; fields; auto.
    - now rewrite (dispatched_emitted _ _ _ Hd).
    - rewrite Hres. lia.
    - pose proof (dispatched_registry _ _ _ Hd) as Hreg3.
      apply map_empty. intros id.
      destruct (timers s3 !! id) as [t|] eqn:E; [|reflexivity].
      destruct (timer_entry _ Hreg3 _ _ E) as [_ Hin].
      rewrite Hts3, lookup_empty in Hin. discriminate.
    - apply (dispatched_inflight _ _ _ Hd). }
  split; [rewrite E1; cbn [emit]; now fields|].
  split; [rewrite E1; cbn [emit]; now fields|].
  split; [exact Hem|]. split.
  - now destruct (idle_Resume _ _ _ Hidle).
  - now apply idle_exec.
Qed.

Lemma C9_no_checks_witness :
  phase demo_subscribed = Scheduling
  /\ emitted (exec [Arrive "a" "run-end" message_passed; Resume; Next]
                (step (Dispatched (Returns (mkScheduled (Some "session") None ∅)))
                   demo_subscribed))
     = [RUN_STARTED (Some "session") None; RUN_FINISHED (Some "session")].
Proof.
  split; [reflexivity|].
  destruct (C9_no_checks (mkScheduled (Some "session") None ∅) demo_subscribed
              [Arrive "a" "run-end" message_passed; Resume; Next])
    as (_ & _ & _ & _ & He).
  - exists "acc", 5%Z, false,
      [Connected (Returns tt) "suite"; Subscribed (Returns tt)].
    reflexivity.
  - reflexivity.
  - reflexivity.
  - exact He.
Defined.

(** Once the count of the tracker has reached the number of the checks,
    a further [CHECK_FINISHED] does not resolve the promise again. *)
Lemma spurious_past_total cks s count n :
  listener s = Some (mkTracker count n) -> n <= count ->
  resolutions (spurious cks s) = resolutions s.
Proof.
  revert s count. induction cks as [|c cks IH]; intros s count Hl Hle;
    [reflexivity|].
  unfold spurious in *. cbn [foldl].
  destruct (emit_CHECK_FINISHED_counts c s count n Hl) as [Hl' Hr'].
  rewrite (IH _ (S count) Hl') by lia. rewrite Hr'.
  destruct (Nat.eqb_spec (S count) n); lia.
Qed.

(** The promise of [allChecksFinished] is resolved by the first
    [CHECK_FINISHED] that brings the count to the number of the checks,
    and by no other. *)
Lemma spurious_resolves_once cks s count n :
  listener s = Some (mkTracker count n) ->
  resolutions (spurious cks s)
  = resolutions s
    + (if Nat.ltb count n && Nat.leb n (count + length cks) then 1 else 0).
Proof.
  revert s count. induction cks as [|c cks IH]; intros s count Hl.
  - simpl. rewrite Nat.add_0_r.
    destruct (Nat.ltb_spec count n), (Nat.leb_spec n count); simpl; lia.
  - unfold spurious in *. cbn [foldl length].
    destruct (emit_CHECK_FINISHED_counts c s count n Hl) as [Hl' Hr'].
    rewrite (IH _ (S count) Hl'), Hr'.
    destruct (Nat.eqb_spec (S count) n), (Nat.ltb_spec (S count) n),
      (Nat.ltb_spec count n), (Nat.leb_spec n (S count + length cks)),
      (Nat.leb_spec n (count + S (length cks))); simpl; lia.
Qed.

(** When every check is finished, [run] goes on and reports the end. *)
Lemma run_completes sid s :
  phase s = Awaiting sid -> 0 < resolutions s ->
  phase (step Resume s) = Returned
  /\ emitted (step Resume s) = emitted s ++ [RUN_FINISHED sid].
Proof.
  intros Hp Hres. rewrite step_Resume, Hp.
  destruct (Nat.ltb_spec 0 (resolutions s)); [|lia].
  unfold run_finally. now fields.
Qed.

Lemma existsb_is_ERROR_app l1 l2 :
  existsb is_ERROR (l1 ++ l2) = existsb is_ERROR l1 || existsb is_ERROR l2.
Proof. apply existsb_app. Qed.

(** C2. A run of [n > 0] checks that has come to its end without a
    failure of its setup has emitted [CHECK_FINISHED] once for each check
    and for nothing else: the checks reported finished are the checks of
    the run, each once, in some order [fin].  [RUN_FINISHED] is the last
    event, emitted once, after all of these; before it there are
    [RUN_STARTED] and events of checks only, those of the task that
    [queue.start()] called coming before [RUN_STARTED].  The promise of
    [allChecksFinished] was resolved once, and [CHECK_FINISHED] events
    that would still come do not resolve it again. *)
Theorem C2_one_finish_per_check (s : State) (cs : gmap string JsVal) :
  reachable s ->
  phase s = Returned ->
  existsb is_ERROR (emitted s) = false ->
  checks s = Some cs ->
  0 < size cs ->
  exists (fin : list string) (pre evs : list Event) sid rids,
    NoDup fin
    /\ (forall k, k ∈ fin <-> is_Some (cs !! k))
    /\ length fin = size cs
    /\ emitted s = pre ++ RUN_STARTED sid rids :: evs ++ [RUN_FINISHED sid]
    /\ forallb is_check_event pre = true
    /\ forallb is_check_event evs = true
    /\ finished_checks (emitted s) = map (get_check cs) fin
    /\ resolutions s = 1
    /\ forall cks, resolutions (spurious cks s) = 1.
Proof.
  intros Hr Hph Herr Hcs Hn.
  pose proof (reachable_Inv s Hr) as Hinv.
  destruct (inv_returned _ Hinv Hph) as [[e Hf]|Hf].
  { rewrite (failed_emitted _ _ Hf) in Herr. discriminate Herr. }
  destruct Hf as (sid & cs' & fin & log & _ & Hpr & He & Hlog & Hlen
                  & Hres & _).
  destruct Hlog as (rids & pre & evs & -> & Hpre & Hev).
  assert (cs' = cs) by (pose proof (progress_checks _ _ _ Hpr); congruence).
  subst cs'.
  exists fin, pre, evs, sid, rids.
  split; [apply Hpr|]. split.
  { intros k. split.
    - intros Hk. now destruct (progress_done _ _ _ Hpr k Hk).
    - apply finished_all; auto; [apply Hpr|].
      intros k' Hk'. now destruct (progress_done _ _ _ Hpr k' Hk'). }
  split; [assumption|].
  split; [rewrite He, <- app_assoc; reflexivity|].
  split; [assumption|]. split; [assumption|].
  split; [apply Hpr|]. split; [assumption|].
  intros cks.
  pose proof (progress_tracker _ _ _ Hpr) as Ht. unfold tracker_ok in Ht.
  destruct (Nat.eqb_spec (size cs) 0); [lia|]. destruct Ht as [Hl _].
  rewrite (spurious_past_total cks s (length fin) (size cs) Hl); [assumption|lia].
Qed.

(** The result of check ["a"] came before the dispatch had answered, and
    check ["b"] times out: the run ends with both reported finished. *)
Lemma C2_one_finish_per_check_witness :
  phase demo_early_final = Returned
  /\ checks demo_early_final = Some demo_checks
  /\ 0 < size demo_checks
  /\ exists (fin : list string) (pre evs : list Event) sid rids,
       NoDup fin
       /\ (forall k, k ∈ fin <-> is_Some (demo_checks !! k))
       /\ length fin = size demo_checks
       /\ emitted demo_early_final
          = pre ++ RUN_STARTED sid rids :: evs ++ [RUN_FINISHED sid]
       /\ forallb is_check_event pre = true
       /\ forallb is_check_event evs = true
       /\ finished_checks (emitted demo_early_final)
          = map (get_check demo_checks) fin
       /\ resolutions demo_early_final = 1
       /\ forall cks, resolutions (spurious cks demo_early_final) = 1.
Proof.
  split; [vm_compute; reflexivity|].
  split; [vm_compute; reflexivity|].
  split; [vm_compute; lia|].
  apply (C2_one_finish_per_check demo_early_final demo_checks).
  - exists "acc", 5%Z, false, (demo_early_setup ++ [Expire 1; Resume]).
    reflexivity.
  - vm_compute. reflexivity.
  - vm_compute. reflexivity.
  - vm_compute. reflexivity.
  - vm_compute. lia.
Defined.

(** The events of that run: the result that was waiting in the queue is
    reported inside [queue.start()], before [RUN_STARTED]. *)
Example demo_early_final_emitted :
  emitted demo_early_final
  = [CHECK_SUCCESSFUL (JStr "A") result_passed; CHECK_FINISHED (JStr "A");
     demo_started;
     CHECK_FAILED (JStr "B")
       (JStr "Reached timeout of 5 seconds waiting for check result.");
     CHECK_FINISHED (JStr "B");
     RUN_FINISHED (Some "session")].
Proof. vm_compute. reflexivity. Qed.

Example demo_final_emitted :
  emitted demo_final
  = [demo_started;
     CHECK_SUCCESSFUL (JStr "A") result_passed; CHECK_FINISHED (JStr "A");
     CHECK_FAILED (JStr "B")
       (JStr "Reached timeout of 5 seconds waiting for check result.");
     CHECK_FINISHED (JStr "B");
     RUN_FINISHED (Some "session")].
Proof. vm_compute. reflexivity. Qed.

(** * More about the runner *)

(** ** Topics *)

Lemma split_on_nonempty sep s : split_on sep s <> [].
Proof.
  destruct s as [|c rest]; simpl; [discriminate|].
  destruct (Ascii.eqb c sep); [discriminate|].
  destruct (split_on sep rest); discriminate.
Qed.

(** A level without the separator is split off whole. *)
Lemma split_on_level sep level rest :
  has_char sep level = false ->
  split_on sep (level ++ String sep rest) = level :: split_on sep rest.
Proof.
  induction level as [|c level IH]; simpl; intros H.
  - now rewrite Ascii.eqb_refl.
  - apply orb_false_iff in H as [Hc Hl].
    rewrite Hc, (IH Hl). reflexivity.
Qed.

Lemma split_on_last sep level :
  has_char sep level = false -> split_on sep level = [level].
Proof.
  induction level as [|c level IH]; simpl; intros H; [reflexivity|].
  apply orb_false_iff in H as [Hc Hl].
  rewrite Hc, (IH Hl). reflexivity.
Qed.

(** X1. A message on the topic of the subscription for [checkRunId] and
    [subtopic] is queued as the task [processMessage(checkRunId,
    subtopic, message)], provided no level of the topic holds a [/]: the
    account id, the suite id, the check run id and the subtopic. *)
Theorem X1_topic_round_trip (s : State) (checkRunId subtopic : string)
    (message : JsVal) :
  has_char "/"%char (accountId s) = false ->
  has_char "/"%char (checkRunSuiteId s) = false ->
  has_char "/"%char checkRunId = false ->
  has_char "/"%char subtopic = false ->
  message_job (result_topic s checkRunId subtopic) message
  = Some (mkJob checkRunId subtopic message)
  /\ on_message (result_topic s checkRunId subtopic) message s
     = step (Arrive checkRunId subtopic message) s.
Proof.
  intros Ha Hs Hk Hsub.
  assert (E : split_on "/"%char (result_topic s checkRunId subtopic)
              = ["account"; accountId s; "ad-hoc-check-results";
                 checkRunSuiteId s; checkRunId; subtopic]).
  { unfold result_topic.
    change ("account/" ++ accountId s ++ "/ad-hoc-check-results/"
            ++ checkRunSuiteId s ++ "/" ++ checkRunId ++ "/" ++ subtopic)%string
      with ("account" ++ String "/"%char (accountId s ++ String "/"
             ("ad-hoc-check-results" ++ String "/"%char (checkRunSuiteId s
               ++ String "/"%char (checkRunId ++ String "/"%char subtopic)))))%string.
    rewrite (split_on_level "/"%char "account") by reflexivity.
    rewrite (split_on_level "/"%char (accountId s)) by assumption.
    rewrite (split_on_level "/"%char "ad-hoc-check-results") by reflexivity.
    rewrite (split_on_level "/"%char (checkRunSuiteId s)) by assumption.
    rewrite (split_on_level "/"%char checkRunId) by assumption.
    now rewrite split_on_last. }
  assert (J : message_job (result_topic s checkRunId subtopic) message
              = Some (mkJob checkRunId subtopic message)).
  { unfold message_job. now rewrite E. }
  split; [exact J|]. unfold on_message. now rewrite J.
Qed.

Lemma X1_topic_round_trip_witness :
  has_char "/"%char (accountId demo_state) = false
  /\ message_job "account/acc/ad-hoc-check-results/suite/a/run-end" message_passed
     = Some (mkJob "a" "run-end" message_passed).
Proof.
  split; [reflexivity|].
  apply (X1_topic_round_trip demo_state "a" "run-end" message_passed);
    reflexivity.
Defined.

(** ** The calls of [run] *)

Lemma disableTimeout_same_run k s : same_run s (disableTimeout k s).
Proof. split; now fields. Qed.

Lemma disableAllTimeouts_same_run s : same_run s (disableAllTimeouts s).
Proof.
  unfold disableAllTimeouts. destruct (checks s) as [cs|]; [|apply same_run_refl].
  generalize (map_to_list cs). intros l. revert s.
  induction l as [|entry l IH]; intros s; [apply same_run_refl|].
  simpl. eapply same_run_trans; [apply disableTimeout_same_run | apply IH].
Qed.

Lemma run_catch_calls e b s :
  calls (run_finally b (run_catch e s))
  = (if b then calls s ++ [CallSocketEnd] else calls s)
  /\ phase (run_finally b (run_catch e s)) = Returned
  /\ accountId (run_finally b (run_catch e s)) = accountId s
  /\ checkRunSuiteId (run_finally b (run_catch e s)) = checkRunSuiteId s.
Proof.
  destruct (disableAllTimeouts_same_run s) as [_ Hc Ha Hs _ _ _].
  unfold run_finally, run_catch. destruct b; fields; rewrite Hc, Ha, Hs; auto.
Qed.

Lemma calls_shape_same_run s s' : same_run s s' -> calls_shape s -> calls_shape s'.
Proof.
  intros [Hp Hc Ha Hs _ _ _]. unfold calls_shape, subscription_topic.
  now rewrite Hp, Hc, Ha, Hs.
Qed.

Lemma calls_shape_turn l s :
  Inv s -> l = Next \/ (exists o, l = Fetched o) ->
  calls_shape s -> calls_shape (step l s).
Proof.
  intros Hinv Hl Hc.
  destruct (step_queue_turn l s Hinv Hl) as (s' & H & Hs1).
  pose proof (calls_shape_same_run s s' (handled_same_run s s' H) Hc) as Hc'.
  destruct Hs1 as [->|(e & sid & Hp & ->)]; [assumption|].
  destruct (handled_same_run s s' H) as [Hp' _ _ _ _ _ _].
  unfold calls_shape, subscription_topic, process_exit in *.
  rewrite Hp', Hp in Hc'. now fields.
Qed.

Lemma calls_shape_step l s : Inv s -> calls_shape s -> calls_shape (step l s).
Proof.
  intros Hinv H.
  destruct l.
  - unfold step. destruct r as [[]|e], (phase s) eqn:E; try exact H;
      unfold calls_shape, subscription_topic in *; rewrite E in H.
    + fields. now rewrite H.
    + destruct (run_catch_calls e false s) as (Hc & Hp & Ha & Hs).
      rewrite Hp, Hc. auto.
  - unfold step. destruct r as [[]|e], (phase s) eqn:E; try exact H;
      unfold calls_shape, subscription_topic in *; rewrite E in H.
    + fields. now rewrite H.
    + destruct (run_catch_calls e true s) as (Hc & Hp & Ha & Hs).
      rewrite Hp, Hc, Ha, Hs, H. auto.
  - destruct r as [r|e].
    + destruct (phase s) eqn:E; try (unfold step; rewrite E; exact H).
      assert (Hp : pristine s).
      { apply (inv_setting_up _ Hinv). unfold setting_up. auto. }
      destruct (step_Dispatched r s E Hp) as (s3 & Hd & ->).
      set (s6 := set_phase _ _).
      assert (Hc6 : calls_shape s6).
      { destruct (handled_same_run _ _ (start_another_handled s3))
          as [_ Hc Ha Hs _ _ _].
        unfold calls_shape, subscription_topic in *. rewrite E in H.
        subst s6. fields. rewrite Hc, Ha, Hs.
        now rewrite (dispatched_calls _ _ _ Hd), (dispatched_accountId _ _ _ Hd),
          (dispatched_checkRunSuiteId _ _ _ Hd). }
      destruct (fst (start_another s3)) as [e|]; [|exact Hc6].
      cbn [settle].
      pose proof (calls_shape_same_run s6 _
                    (handled_same_run _ _ (run_queue_handled s6)) Hc6) as Hc7.
      destruct (handled_same_run _ _ (run_queue_handled s6)) as [Hp' _ _ _ _ _ _].
      unfold calls_shape, subscription_topic, process_exit in *.
      rewrite Hp' in Hc7. subst s6. revert Hc7. now fields.
    + unfold step. destruct (phase s) eqn:E; try exact H.
      unfold calls_shape, subscription_topic in *. rewrite E in H.
      destruct (run_catch_calls e true s) as (Hc & Hp & Ha & Hs).
      rewrite Hp, Hc, Ha, Hs, H. auto.
  - rewrite step_Arrive. destruct (listening s); exact H.
  - apply calls_shape_turn; auto.
  - apply calls_shape_turn; eauto.
  - rewrite step_Expire. destruct (timers s !! id); [|exact H].
    apply (calls_shape_same_run s); [|exact H].
    unfold timeout_callback. split; now fields.
  - rewrite step_Resume. destruct (phase s) eqn:E; try exact H.
    destruct (Nat.ltb 0 (resolutions s)); [|exact H].
    unfold calls_shape, subscription_topic in *. rewrite E in H.
    unfold run_finally. fields. rewrite H. auto.
Qed.

(** X6. At every point of a run the calls to its collaborators are, in
    this order: the subscription to the topic of the account and of the
    suite; then the dispatch, for the same suite; and, once [run] has
    returned, the end of the socket, last and once.  When the connection
    failed there is no call at all; when a handler that failed has ended
    the process, the socket has not been ended. *)
Theorem X6_calls_in_order (s : State) : reachable s -> calls_shape s.
Proof.
  intros (a & t & v & ls & ->).
  induction ls as [|l ls IH] using rev_ind; [reflexivity|].
  rewrite exec_app. simpl. apply calls_shape_step; [|assumption].
  apply Inv_exec, Inv_constructor.
Qed.

Lemma X6_calls_in_order_witness : calls_shape demo_final.
Proof.
  apply X6_calls_in_order.
  exists "acc", 5%Z, false, (demo_setup ++ demo_events).
  unfold demo_final, demo_state. now rewrite exec_app.
Defined.

(** ** Disabling the timers *)

Lemma foldl_disableTimeout_spec (l : list (string * JsVal)) s :
  registry_ok s ->
  let s' := foldl (fun s1 entry => disableTimeout (fst entry) s1) s l in
  registry_ok s'
  /\ (forall k t, timeouts s' !! k = Some t ->
        timeouts s !! k = Some t /\ k ∉ l.*1)
  /\ emitted s' = emitted s.
Proof.
  revert s. induction l as [|[k c] l IH]; intros s Hreg; simpl.
  - split; [assumption|]. split; [|reflexivity].
    intros k t H. split; [assumption|]. apply not_elem_of_nil.
  - destruct (IH (disableTimeout k s) (registry_ok_disableTimeout k s Hreg))
      as (H1 & H2 & H3).
    split; [assumption|]. split.
    + intros k' t H. destruct (H2 k' t H) as [Hin Hnot].
      rewrite disableTimeout_timeouts in Hin.
      apply lookup_delete_Some in Hin as [Hne Hin].
      split; [assumption|].
      intros Hel. apply elem_of_cons in Hel as [->|Hel]; [congruence|auto].
    + rewrite H3. apply disableTimeout_emitted.
Qed.

(** X3. [disableAllTimeouts], at any point of a run, leaves no entry in
    the registry and no timer armed, and emits nothing: afterwards no
    timer of the run fires. *)
Theorem X3_disableAllTimeouts_clears (s : State) :
  reachable s ->
  timeouts (disableAllTimeouts s) = ∅
  /\ timers (disableAllTimeouts s) = ∅
  /\ emitted (disableAllTimeouts s) = emitted s
  /\ forall id, step (Expire id) (disableAllTimeouts s) = disableAllTimeouts s.
Proof.
  intros Hr. pose proof (reachable_registry_ok s Hr) as Hreg.
  assert (H : registry_ok (disableAllTimeouts s)
              /\ timeouts (disableAllTimeouts s) = ∅
              /\ emitted (disableAllTimeouts s) = emitted s).
  { unfold disableAllTimeouts. destruct (checks s) as [cs|] eqn:Hcs.
    - destruct (foldl_disableTimeout_spec (map_to_list cs) s Hreg)
        as (H1 & H2 & H3).
      split; [assumption|]. split; [|assumption].
      apply map_empty. intros k.
      destruct (_ !! k) as [t|] eqn:E; [|reflexivity].
      destruct (H2 k t E) as [Hin Hnot].
      destruct (entry_check _ Hreg _ _ Hin) as (cs' & Hcs' & Hk).
      rewrite Hcs in Hcs'. injection Hcs' as <-.
      exfalso. apply Hnot. apply list_elem_of_fmap.
      exists (k, timer_check t). split; [reflexivity|].
      now apply elem_of_map_to_list.
    - split; [assumption|]. split; [|reflexivity].
      apply map_empty. intros k.
      destruct (timeouts s !! k) as [t|] eqn:E; [|reflexivity].
      destruct (entry_check _ Hreg _ _ E) as (cs' & Hcs' & _). congruence. }
  destruct H as (Hreg' & Hts & He).
  assert (Htm : timers (disableAllTimeouts s) = ∅).
  { apply map_empty. intros id.
    destruct (_ !! id) as [t|] eqn:E; [|reflexivity].
    destruct (timer_entry _ Hreg' _ _ E) as [_ Hin].
    rewrite Hts, lookup_empty in Hin. discriminate. }
  split; [assumption|]. split; [assumption|]. split; [assumption|].
  intros id. apply expire_cleared. now rewrite Htm, lookup_empty.
Qed.

Lemma X3_disableAllTimeouts_clears_witness :
  timers (disableAllTimeouts demo_state) = ∅
  /\ timeouts (disableAllTimeouts demo_state) = ∅.
Proof.
  destruct (X3_disableAllTimeouts_clears demo_state) as (H1 & H2 & _).
  - exists "acc", 5%Z, false, demo_setup. reflexivity.
  - split; assumption.
Defined.

(** ** One check at a time *)

Lemma disableTimeout_others k k' t' s :
  registry_ok s -> timeouts s !! k' = Some t' -> k <> k' ->
  timeouts (disableTimeout k s) !! k' = Some t'
  /\ timers (disableTimeout k s) !! timer_id t' = Some t'.
Proof.
  intros Hreg Hk' Hne.
  pose proof (registry_ok_disableTimeout k s Hreg) as Hreg'.
  assert (H : timeouts (disableTimeout k s) !! k' = Some t').
  { rewrite disableTimeout_timeouts. now rewrite lookup_delete_ne. }
  split; [assumption|]. now destruct (entry_armed _ Hreg' _ _ H).
Qed.

Lemma processMessage_begin_others k sub m k' t' s :
  registry_ok s -> timeouts s !! k' = Some t' -> k <> k' ->
  timeouts (snd (processMessage_begin k sub m s)) !! k' = Some t'
  /\ timers (snd (processMessage_begin k sub m s)) !! timer_id t' = Some t'.
Proof.
  intros Hreg Hk' Hne.
  destruct (entry_armed _ Hreg _ _ Hk') as (Ha & _).
  destruct (disableTimeout_others k k' t' s Hreg Hk' Hne) as [D1 D2].
  unfold processMessage_begin.
  destruct (timeouts s !! k); [|auto].
  destruct (checks s); [|auto].
  destruct (String.eqb sub "run-start");
    [cbn [snd]; rewrite emit_timeouts, emit_timers; auto|].
  destruct (String.eqb sub "run-end"); [cbn [snd]; auto|].
  destruct (String.eqb sub "error"); cbn [snd];
    rewrite ?emit_timeouts, ?emit_timers; auto.
Qed.

(** X4. A message for one check, whatever its subtopic and its payload
    and whatever becomes of its asset requests, and the expiry of the
    timer of one check, leave every other pending check as it is: its
    entry stays in the registry and its timer stays armed. *)
Theorem X4_other_checks_untouched (s : State) (k' : string) (t' : Timeout) :
  reachable s ->
  timeouts s !! k' = Some t' ->
  (forall o k sub m, k <> k' ->
     timeouts (snd (processMessage o k sub m s)) !! k' = Some t'
     /\ timers (snd (processMessage o k sub m s)) !! timer_id t' = Some t')
  /\ (forall id, id <> timer_id t' ->
        timeouts (step (Expire id) s) !! k' = Some t'
        /\ timers (step (Expire id) s) !! timer_id t' = Some t').
Proof.
  intros Hr Hk'. pose proof (reachable_registry_ok s Hr) as Hreg.
  destruct (entry_armed _ Hreg _ _ Hk') as (Ha & Hb & _).
  split.
  - intros o k sub m Hne.
    destruct (processMessage_begin_others k sub m k' t' s Hreg Hk' Hne)
      as [B1 B2].
    unfold processMessage.
    destruct (processMessage_begin k sub m s) as [[r|p] s1]; cbn [snd] in *;
      [auto|].
    destruct (report_run_end_timers o p s1) as [E1 E2]. now rewrite E1, E2.
  - intros id Hid. rewrite step_Expire.
    destruct (timers s !! id) as [t|] eqn:E; [|auto].
    destruct (timer_entry _ Hreg _ _ E) as [Ht Hin].
    rewrite timeout_callback_timeouts, timeout_callback_timers. simpl.
    assert (Hne : timer_checkRunId t <> k').
    { intros Heq. rewrite Heq, Hk' in Hin. injection Hin as Heq'.
      subst t'. congruence. }
    rewrite lookup_delete_ne by assumption.
    rewrite lookup_delete_ne by assumption. auto.
Qed.

Lemma X4_other_checks_untouched_witness :
  timeouts demo_state !! "b" = Some timer_b
  /\ timers (snd (processMessage assets_logs_down "a" "run-end" message_failed
                    demo_state)) !! 1 = Some timer_b.
Proof.
  split; [vm_compute; reflexivity|].
  destruct (X4_other_checks_untouched demo_state "b" timer_b) as [H _].
  - exists "acc", 5%Z, false, demo_setup. reflexivity.
  - vm_compute. reflexivity.
  - destruct (H assets_logs_down "a" "run-end" message_failed) as [_ H2];
      [discriminate|exact H2].
Defined.

(** ** The completion tracker *)

(** X5. The promise [allChecksFinished] returns, on a runner with no
    listener yet, is resolved by the [CHECK_FINISHED] event that brings
    the number of these events to the number of the checks, and by no
    other: after any events it is resolved once if there were at least
    that many, and not at all otherwise.  The events are counted, whatever
    check they are for. *)
Theorem X5_tracker_counts_events (s : State) (cs : gmap string JsVal)
    (cks : list JsVal) :
  checks s = Some cs ->
  listener s = None ->
  exists s1,
    allChecksFinished s = Returns s1
    /\ resolutions (spurious cks s1)
       = resolutions s + (if Nat.leb (size cs) (length cks) then 1 else 0).
Proof.
  intros Hcs Hl. unfold allChecksFinished. rewrite Hcs.
  destruct (Nat.eqb_spec (size cs) 0) as [Hz|Hnz]; eexists; (split; [reflexivity|]).
  - rewrite Hz. cbn [Nat.leb].
    assert (H : forall l st, listener st = None ->
                  resolutions (spurious l st) = resolutions st).
    { induction l as [|c l IH]; intros st Hst; [reflexivity|].
      unfold spurious in *. cbn [foldl].
      destruct (emit_CHECK_FINISHED_idle c st Hst) as [H1 H2].
      now rewrite (IH _ H1). }
    rewrite H by assumption. simpl. lia.
  - rewrite (spurious_resolves_once cks _ 0 (size cs)) by reflexivity.
    simpl. destruct (Nat.ltb_spec 0 (size cs)); [|lia]. reflexivity.
Qed.

Lemma X5_tracker_counts_events_witness :
  exists s1,
    allChecksFinished (set_checks (Some demo_checks) (constructor "acc" 5 false))
    = Returns s1
    /\ resolutions (spurious [JStr "A"; JStr "A"; JStr "A"] s1) = 1.
Proof.
  destruct (X5_tracker_counts_events
              (set_checks (Some demo_checks) (constructor "acc" 5 false))
              demo_checks [JStr "A"; JStr "A"; JStr "A"])
    as (s1 & H1 & H2); [reflexivity | reflexivity |].
  exists s1. split; [exact H1|]. rewrite H2. vm_compute. reflexivity.
Defined.

(** ** The events of a run *)

(** A handler emits nothing, or what it has to say of one check. *)
(** What a handler of a message or of a timer emits, and where it
    leaves [run]. *)
Lemma handler_step l s :
  Inv s -> is_handler l = true ->
  (exists body, emitted (step l s) = emitted s ++ body /\ reports body)
  /\ (phase (step l s) = phase s
      \/ exists e sid, phase s = Awaiting sid /\ phase (step l s) = Exited e).
Proof.
  intros Hinv Hl.
  assert (Hturn : l = Next \/ (exists o, l = Fetched o) ->
            (exists body, emitted (step l s) = emitted s ++ body /\ reports body)
            /\ (phase (step l s) = phase s
                \/ exists e sid, phase s = Awaiting sid
                                 /\ phase (step l s) = Exited e)).
  { intros Hq. destruct (step_queue_turn l s Hinv Hq) as (s' & H & Hs1).
    destruct (handled_emits s s' H) as (body & E & Hb).
    destruct (handled_same_run s s' H) as [Hp _ _ _ _ _ _].
    destruct Hs1 as [->|(e & sid & Hpa & ->)].
    - split; [eauto | auto].
    - split; [exists body; unfold process_exit; now fields|].
      right. exists e, sid. split; [assumption | reflexivity]. }
  destruct l; try discriminate Hl.
  - rewrite step_Arrive. destruct (listening s);
      (split; [exists []; rewrite app_nil_r; split; [reflexivity|constructor]
              | now left]).
  - apply Hturn. auto.
  - apply Hturn. eauto.
  - rewrite step_Expire. destruct (timers s !! id) as [t|].
    + split; [|left; unfold timeout_callback; now fields].
      eexists. rewrite timeout_callback_emitted. split; [reflexivity|].
      apply reports_one. right. constructor.
    + split; [exists []; rewrite app_nil_r; split; [reflexivity|constructor]
             | now left].
Qed.

Lemma pristine_of_phase s :
  Inv s -> setting_up s -> pristine s.
Proof. intros H Hs. now apply (inv_setting_up _ H). Qed.

Lemma started_shape_app sid log body :
  started_shape sid log -> reports body -> started_shape sid (log ++ body).
Proof.
  intros (rids & first & body0 & -> & Hf & Hb0) Hb.
  exists rids, first, (body0 ++ body). rewrite <- app_assoc. simpl.
  split; [reflexivity|]. split; [assumption | now apply reports_app].
Qed.

Lemma log_shape_handler l s :
  Inv s -> is_handler l = true -> log_shape s -> log_shape (step l s).
Proof.
  intros Hinv Hl Hlog.
  destruct (handler_step l s Hinv Hl) as [(body & Hem & Hbody) Hph].
  pose proof (Inv_step l s Hinv) as Hinv'.
  assert (Hsetup : setting_up s -> log_shape (step l s)).
  { intros Hs. destruct Hph as [Hph|(e & sid & Hpa & _)].
    - assert (Hs' : setting_up (step l s))
        by (unfold setting_up in *; now rewrite Hph).
      pose proof (pristine_emitted _ (pristine_of_phase _ Hinv' Hs')) as E.
      unfold log_shape. rewrite E.
      destruct Hs' as [->|[->| ->]]; reflexivity.
    - unfold setting_up in Hs. rewrite Hpa in Hs.
      destruct Hs as [?|[?|?]]; discriminate. }
  destruct (phase s) eqn:E; try (apply Hsetup; unfold setting_up; now auto).
  - unfold log_shape in Hlog. rewrite E in Hlog.
    unfold log_shape. rewrite Hem.
    destruct Hph as [->|(e & sid & _ & ->)].
    + now apply started_shape_app.
    + exists testSessionId. now apply started_shape_app.
  - destruct (inv_returned _ Hinv E) as [[e Hf]|Hf].
    + now rewrite (step_failed e l s Hf).
    + destruct (step_finished l s Hf (inv_registry _ Hinv)) as (Hf' & _ & He).
      destruct Hf' as (_ & _ & _ & _ & Hp' & _).
      unfold log_shape in *. rewrite E in Hlog. now rewrite Hp', He.
  - now rewrite (step_exited err l s (inv_exited _ Hinv _ E)).
Qed.

Lemma log_shape_step l s : Inv s -> log_shape s -> log_shape (step l s).
Proof.
  intros Hinv Hlog.
  destruct (is_handler l) eqn:Hl; [now apply log_shape_handler|].
  assert (Hfail : forall e b, setting_up s ->
            log_shape (run_finally b (run_catch e s))).
  { intros e b Hs.
    pose proof (run_catch_pristine e b s (pristine_of_phase s Hinv Hs)) as Hf.
    unfold log_shape. rewrite (failed_phase _ _ Hf). left.
    exists e. apply Hf. }
  destruct l; try discriminate Hl.
  - unfold step. destruct r as [[]|e], (phase s) eqn:E; try exact Hlog.
    + unfold log_shape in *. rewrite E in Hlog. fields. assumption.
    + apply Hfail. unfold setting_up. auto.
  - unfold step. destruct r as [[]|e], (phase s) eqn:E; try exact Hlog.
    + unfold log_shape in *. rewrite E in Hlog. fields. assumption.
    + apply Hfail. unfold setting_up. auto.
  - destruct r as [r|e].
    + destruct (phase s) eqn:E; try (unfold step; rewrite E; exact Hlog).
      assert (Hp : pristine s).
      { apply pristine_of_phase; [assumption|]. unfold setting_up. auto. }
      destruct (step_Dispatched r s E Hp) as (s3 & Hd & ->).
      set (s6 := set_phase _ _).
      destruct (start_another_emits s3) as (first & E1 & Hfirst).
      rewrite (dispatched_emitted _ _ _ Hd) in E1. simpl in E1.
      assert (H6 : started_shape (sched_testSessionId r) (emitted s6)).
      { subst s6. fields. rewrite E1.
        exists (sched_testResultIds r), first, [].
        split; [reflexivity|]. split; [assumption | constructor]. }
      destruct (fst (start_another s3)) as [e|]; cbn [settle].
      * destruct (handled_emits _ _ (run_queue_handled s6)) as (body & E7 & Hb).
        unfold log_shape, process_exit. fields. rewrite E7.
        exists (sched_testSessionId r). now apply started_shape_app.
      * unfold log_shape. subst s6. fields. exact H6.
    + unfold step. destruct (phase s) eqn:E; try exact Hlog.
      apply Hfail. unfold setting_up. auto.
  - rewrite step_Resume. destruct (phase s) eqn:E; try exact Hlog.
    destruct (Nat.ltb 0 (resolutions s)); [|exact Hlog].
    unfold log_shape in *. rewrite E in Hlog.
    unfold run_finally. fields. right.
    exists testSessionId, (emitted s). auto.
Qed.

(** X7. The events of a run, at every point of it: nothing while the run
    is set up; then what the task called by [queue.start()] reports, if
    there is one and it reports, and [RUN_STARTED], followed by what the
    handlers report of the checks, where [CHECK_FINISHED] comes only right
    after a [CHECK_FAILED] or a [CHECK_SUCCESSFUL] for the same check;
    and, when [run] has returned, either these closed by one
    [RUN_FINISHED] for the session of [RUN_STARTED], or [ERROR] alone. *)
Theorem X7_events_in_order (s : State) : reachable s -> log_shape s.
Proof.
  intros (a & t & v & ls & ->).
  induction ls as [|l ls IH] using rev_ind; [reflexivity|].
  rewrite exec_app. simpl.
  apply log_shape_step; [|assumption].
  apply Inv_exec, Inv_constructor.
Qed.

Lemma X7_events_in_order_witness : log_shape demo_early_final.
Proof.
  apply X7_events_in_order.
  exists "acc", 5%Z, false, (demo_early_setup ++ [Expire 1; Resume]).
  reflexivity.
Defined.

(** X9. At every point of a run the checks reported finished are checks
    of the run, each reported once, and none of them has an entry in the
    registry any more: a check is never reported finished twice, and
    never while it is pending. *)
Theorem X9_finished_once (s : State) :
  reachable s ->
  exists fin : list string,
    NoDup fin
    /\ finished_checks (emitted s) = map (get_check (run_checks s)) fin
    /\ forall k, k ∈ fin ->
         is_Some (run_checks s !! k) /\ timeouts s !! k = None.
Proof.
  intros Hr. pose proof (reachable_Inv s Hr) as Hinv.
  assert (Hnone : finished_checks (emitted s) = [] ->
            exists fin : list string,
              NoDup fin
              /\ finished_checks (emitted s) = map (get_check (run_checks s)) fin
              /\ forall k, k ∈ fin ->
                   is_Some (run_checks s !! k) /\ timeouts s !! k = None).
  { intros E. exists []. rewrite E. split; [constructor|].
    split; [reflexivity|]. intros k Hk. inversion Hk. }
  assert (Hsome : forall cs fin, progress cs fin s ->
            exists fin : list string,
              NoDup fin
              /\ finished_checks (emitted s) = map (get_check (run_checks s)) fin
              /\ forall k, k ∈ fin ->
                   is_Some (run_checks s !! k) /\ timeouts s !! k = None).
  { intros cs fin Hpr. exists fin. unfold run_checks.
    rewrite (progress_checks _ _ _ Hpr). simpl.
    split; [apply Hpr|]. split; [apply Hpr|]. apply Hpr. }
  destruct (Inv_cases s Hinv) as [[Hs Hp]|[Hrun|[[e Hf]|[Hf|[e He]]]]].
  - apply Hnone. now rewrite (pristine_emitted _ Hp).
  - destruct Hrun as (sid & cs & fin & _ & Hpr & _). eauto.
  - apply Hnone. now rewrite (failed_emitted _ _ Hf).
  - destruct Hf as (sid & cs & fin & log & _ & Hpr & _). eauto.
  - destruct He as (sid & cs & fin & _ & Hpr & _). eauto.
Qed.

Lemma X9_finished_once_witness :
  exists fin : list string,
    NoDup fin
    /\ finished_checks (emitted demo_final)
       = map (get_check (run_checks demo_final)) fin
    /\ forall k, k ∈ fin ->
         is_Some (run_checks demo_final !! k) /\ timeouts demo_final !! k = None.
Proof.
  apply X9_finished_once.
  exists "acc", 5%Z, false, (demo_setup ++ demo_events).
  unfold demo_final, demo_state. now rewrite exec_app.
Defined.

(** ** The result that is reported *)

(** Only an object has [assets]. *)
Lemma read_assets_JObj result a :
  read_assets result = Returns a -> exists fields, result = JObj fields.
Proof.
  intros H. destruct result; try (cbv in H; discriminate H). eauto.
Qed.

Lemma fetch_logs_keeps o verbose a result r1 name :
  fetch_logs o verbose a result = Returns r1 -> name <> "logs" ->
  get_prop r1 name = get_prop result name.
Proof.
  unfold fetch_logs. intros H Hne.
  destruct (truthy (logPath a)); [|now injection H as <-].
  destruct (wants_artifacts verbose result) as [[|]|]; simpl in H;
    try discriminate H; [|now injection H as <-].
  destruct (getLogs o (region a) (logPath a)); simpl in H; [|discriminate H].
  injection H as <-. apply get_prop_set_prop_ne. congruence.
Qed.

Lemma fetch_checkRunData_keeps o verbose a result r1 name :
  fetch_checkRunData o verbose a result = Returns r1 -> name <> "checkRunData" ->
  get_prop r1 name = get_prop result name.
Proof.
  unfold fetch_checkRunData. intros H Hne.
  destruct (truthy (checkRunDataPath a)); [|now injection H as <-].
  destruct (wants_artifacts verbose result) as [[|]|]; simpl in H;
    try discriminate H; [|now injection H as <-].
  destruct (getCheckRunData o (region a) (checkRunDataPath a)); simpl in H;
    [|discriminate H].
  injection H as <-. apply get_prop_set_prop_ne. congruence.
Qed.

Lemma attach_links_keeps o region name files result r1 name' :
  attach_links o region name files result = Returns r1 -> name' <> name ->
  get_prop r1 name' = get_prop result name'.
Proof.
  unfold attach_links. intros H Hne.
  destruct (has_items files); [|now injection H as <-].
  destruct (resolve_links o region files); simpl in H; [|discriminate H].
  injection H as <-. apply get_prop_set_prop_ne. congruence.
Qed.

Lemma enrich_links_keeps o a result name :
  name <> "traceFilesUrls" -> name <> "videoFilesUrls" ->
  get_prop (enrich_links o a result) name = get_prop result name.
Proof.
  intros H1 H2. unfold enrich_links.
  destruct (get_prop result "hasFailures") as [hf|]; [|reflexivity].
  destruct (truthy hf); [|reflexivity].
  destruct (attach_links o (region a) "traceFilesUrls" _ result) as [r1|] eqn:E1;
    [|reflexivity].
  pose proof (attach_links_keeps _ _ _ _ _ _ name E1 H1) as K1.
  destruct (attach_links o (region a) "videoFilesUrls" _ r1) as [r2|] eqn:E2;
    [|assumption].
  rewrite <- K1. now apply (attach_links_keeps _ _ _ _ _ _ name E2).
Qed.

(** The steps of [enrich], when it returns. *)
Lemma enrich_Returns o verbose message reported :
  enrich o verbose message = Returns reported ->
  exists result a r1 r2,
    get_prop message "result" = Returns result
    /\ read_assets result = Returns a
    /\ fetch_logs o verbose a result = Returns r1
    /\ fetch_checkRunData o verbose a r1 = Returns r2
    /\ reported = enrich_links o a r2.
Proof.
  unfold enrich. intros H.
  destruct (get_prop message "result") as [result|] eqn:E0; simpl in H;
    [|discriminate H].
  destruct (read_assets result) as [a|] eqn:E1; simpl in H; [|discriminate H].
  destruct (fetch_logs o verbose a result) as [r1|] eqn:E2; simpl in H;
    [|discriminate H].
  destruct (fetch_checkRunData o verbose a r1) as [r2|] eqn:E3; simpl in H;
    [|discriminate H].
  injection H as <-. exists result, a, r1, r2. repeat split; assumption.
Qed.

(** X12. The result reported with [CHECK_SUCCESSFUL] has every property
    of the result the backend sent, with the value it was sent with,
    except for [logs], [checkRunData], [traceFilesUrls] and
    [videoFilesUrls], the four the runner may attach. *)
Theorem X12_result_kept (o : Assets) (verbose : bool)
    (message result reported : JsVal) (name : string) :
  enrich o verbose message = Returns reported ->
  get_prop message "result" = Returns result ->
  name <> "logs" -> name <> "checkRunData" ->
  name <> "traceFilesUrls" -> name <> "videoFilesUrls" ->
  get_prop reported name = get_prop result name.
Proof.
  intros H Hres N1 N2 N3 N4.
  destruct (enrich_Returns _ _ _ _ H)
    as (result' & a & r1 & r2 & E0 & E1 & E2 & E3 & ->).
  rewrite Hres in E0. injection E0 as <-.
  rewrite enrich_links_keeps by assumption.
  rewrite (fetch_checkRunData_keeps _ _ _ _ _ name E3) by assumption.
  now apply (fetch_logs_keeps _ _ _ _ _ name E2).
Qed.

Lemma X12_result_kept_witness :
  enrich assets_up false message_failed
  = Returns (JObj [("hasFailures", JBool true); ("assets", assets_failed);
                   ("logs", JStr "log lines");
                   ("checkRunData", JStr "check run data");
                   ("traceFilesUrls", JArr [JStr "traces/a.zip"]);
                   ("videoFilesUrls", JArr [JStr "videos/a.webm"])])
  /\ get_prop (JObj [("hasFailures", JBool true); ("assets", assets_failed);
                     ("logs", JStr "log lines");
                     ("checkRunData", JStr "check run data");
                     ("traceFilesUrls", JArr [JStr "traces/a.zip"]);
                     ("videoFilesUrls", JArr [JStr "videos/a.webm"])]) "assets"
     = get_prop result_failed "assets".
Proof.
  split; [reflexivity|].
  apply (X12_result_kept assets_up false message_failed); try discriminate;
    reflexivity.
Defined.

(** X11. A [run-end] message for a pending check, whose payload has
    [result.assets] and whose result reports no failure, on a runner that
    is not verbose, is reported without any request to the asset service:
    whatever the service would answer, [CHECK_SUCCESSFUL] carries the
    result as the backend sent it, and [CHECK_FINISHED] follows. *)
Theorem X11_passed_quietly (o : Assets) (checkRunId : string)
    (message result : JsVal) (a : AssetRefs) (s : State) (t : Timeout) :
  reachable s ->
  timeouts s !! checkRunId = Some t ->
  verbose s = false ->
  get_prop message "result" = Returns result ->
  read_assets result = Returns a ->
  has_failures result = false ->
  processMessage o checkRunId "run-end" message s
  = (Returns tt,
     emit (CHECK_FINISHED (timer_check t))
       (emit (CHECK_SUCCESSFUL (timer_check t) result)
          (disableTimeout checkRunId s))).
Proof.
  intros Hr Hk Hv Hres Hread Hf.
  rewrite (processMessage_run_end o checkRunId message s t Hr Hk).
  destruct (read_assets_object _ _ Hread) as [hf Hhf].
  assert (E : enrich o false message = Returns result).
  { unfold enrich. rewrite Hres. cbn [bindO]. rewrite Hread. cbn [bindO].
    assert (Hw : wants_artifacts false result = Returns false).
    { rewrite (wants_artifacts_spec false result hf Hhf). now rewrite Hf. }
    unfold fetch_logs. rewrite Hw. cbn [bindO].
    replace (if truthy (logPath a) then Returns result else Returns result)
      with (Returns result) by (now destruct (truthy (logPath a))).
    cbn [bindO]. unfold fetch_checkRunData. rewrite Hw. cbn [bindO].
    replace (if truthy (checkRunDataPath a) then Returns result
             else Returns result)
      with (Returns result) by (now destruct (truthy (checkRunDataPath a))).
    cbn [bindO]. unfold enrich_links. unfold has_failures in Hf.
    rewrite Hhf in *. now rewrite Hf. }
  unfold report_run_end. cbn [susp_message susp_check].
  rewrite disableTimeout_verbose, Hv, E. reflexivity.
Qed.

Lemma X11_passed_quietly_witness :
  timeouts demo_state !! "a" = Some timer_a
  /\ emitted (snd (processMessage assets_logs_down "a" "run-end" message_passed
                     demo_state))
     = [demo_started; CHECK_SUCCESSFUL (JStr "A") result_passed;
        CHECK_FINISHED (JStr "A")].
Proof.
  split; [vm_compute; reflexivity|].
  rewrite (X11_passed_quietly assets_logs_down "a" message_passed result_passed
             refs_passed demo_state timer_a).
  - vm_compute. reflexivity.
  - exists "acc", 5%Z, false, demo_setup. reflexivity.
  - vm_compute. reflexivity.
  - reflexivity.
  - reflexivity.
  - reflexivity.
  - reflexivity.
Defined.

Lemma has_failures_of_get_prop r r' :
  get_prop r' "hasFailures" = get_prop r "hasFailures" ->
  has_failures r' = has_failures r.
Proof. intros H. unfold has_failures. now rewrite H. Qed.

Lemma get_prop_set_prop_eq fields name x :
  get_prop (set_prop (JObj fields) name x) name = Returns x.
Proof. simpl. now rewrite own_prop_put_prop_eq. Qed.

Lemma fetch_logs_JObj o verbose a fields r1 :
  fetch_logs o verbose a (JObj fields) = Returns r1 ->
  exists fields1, r1 = JObj fields1.
Proof.
  unfold fetch_logs. intros H.
  destruct (truthy (logPath a)); [|injection H as <-; eauto].
  destruct (wants_artifacts verbose (JObj fields)) as [[|]|]; simpl in H;
    try discriminate H; [|injection H as <-; eauto].
  destruct (getLogs o (region a) (logPath a)); simpl in H; [|discriminate H].
  injection H as <-. simpl. eauto.
Qed.

Lemma fetch_checkRunData_JObj o verbose a fields r1 :
  fetch_checkRunData o verbose a (JObj fields) = Returns r1 ->
  exists fields1, r1 = JObj fields1.
Proof.
  unfold fetch_checkRunData. intros H.
  destruct (truthy (checkRunDataPath a)); [|injection H as <-; eauto].
  destruct (wants_artifacts verbose (JObj fields)) as [[|]|]; simpl in H;
    try discriminate H; [|injection H as <-; eauto].
  destruct (getCheckRunData o (region a) (checkRunDataPath a)); simpl in H;
    [|discriminate H].
  injection H as <-. simpl. eauto.
Qed.

(** X13. When the runner is verbose or the result reports failures, the
    logs and the check-run data the result names are fetched, and the
    result reported carries what the asset service answered, under
    [logs] and [checkRunData]. *)
Theorem X13_artifacts_attached (o : Assets) (verbose : bool)
    (message result reported : JsVal) (a : AssetRefs) :
  enrich o verbose message = Returns reported ->
  get_prop message "result" = Returns result ->
  read_assets result = Returns a ->
  verbose || has_failures result = true ->
  (truthy (logPath a) = true ->
   exists logs, getLogs o (region a) (logPath a) = Returns logs
                /\ get_prop reported "logs" = Returns logs)
  /\ (truthy (checkRunDataPath a) = true ->
      exists data, getCheckRunData o (region a) (checkRunDataPath a) = Returns data
                   /\ get_prop reported "checkRunData" = Returns data).
Proof.
  intros H Hres Hread Hw.
  destruct (enrich_Returns _ _ _ _ H)
    as (result' & a' & r1 & r2 & E0 & E1 & E2 & E3 & ->).
  rewrite Hres in E0. injection E0 as <-.
  rewrite Hread in E1. injection E1 as <-.
  destruct (read_assets_JObj _ _ Hread) as [fields ->].
  destruct (read_assets_object _ _ Hread) as [hf Hhf].
  destruct (fetch_logs_JObj _ _ _ _ _ E2) as [fields1 ->].
  assert (Hhf1 : get_prop (JObj fields1) "hasFailures" = Returns hf).
  { rewrite (fetch_logs_keeps _ _ _ _ _ "hasFailures" E2) by discriminate.
    exact Hhf. }
  assert (Hf1 : has_failures (JObj fields1) = has_failures (JObj fields)).
  { apply has_failures_of_get_prop. congruence. }
  split.
  - intros Hp. unfold fetch_logs in E2. rewrite Hp in E2.
    rewrite (wants_artifacts_spec verbose _ hf Hhf), Hw in E2. cbn [bindO] in E2.
    destruct (getLogs o (region a) (logPath a)) as [logs|]; [|discriminate E2].
    cbn [bindO] in E2. injection E2 as E2.
    exists logs. split; [reflexivity|].
    rewrite enrich_links_keeps by discriminate.
    rewrite (fetch_checkRunData_keeps _ _ _ _ _ "logs" E3) by discriminate.
    rewrite <- E2. apply get_prop_set_prop_eq.
  - intros Hp. unfold fetch_checkRunData in E3. rewrite Hp in E3.
    rewrite (wants_artifacts_spec verbose _ hf Hhf1), Hf1, Hw in E3.
    cbn [bindO] in E3.
    destruct (getCheckRunData o (region a) (checkRunDataPath a)) as [data|];
      [|discriminate E3].
    cbn [bindO] in E3. injection E3 as <-.
    exists data. split; [reflexivity|].
    rewrite enrich_links_keeps by discriminate.
    apply get_prop_set_prop_eq.
Qed.

Lemma X13_artifacts_attached_witness :
  exists reported,
    enrich assets_links_down false message_failed = Returns reported
    /\ get_prop reported "logs" = Returns (JStr "log lines")
    /\ get_prop reported "checkRunData" = Returns (JStr "check run data").
Proof.
  eexists. split; [reflexivity|].
  destruct (X13_artifacts_attached assets_links_down false message_failed
              result_failed _ refs_failed eq_refl eq_refl eq_refl eq_refl)
    as [H1 H2].
  destruct (H1 eq_refl) as (logs & E1 & G1).
  destruct (H2 eq_refl) as (data & E2 & G2).
  injection E1 as <-. injection E2 as <-. split; assumption.
Defined.

(** *** The links *)

Lemma promise_all_Returns {A} (ps : list (Outcome A)) :
  (forall p, p ∈ ps -> is_Returns p = true) ->
  exists l, promise_all ps = Returns l
            /\ Forall2 (fun p x => p = Returns x) ps l.
Proof.
  induction ps as [|p ps IH]; intros H.
  - exists []. split; [reflexivity|constructor].
  - destruct IH as (l & E & F).
    { intros q Hq. apply H. now apply list_elem_of_further. }
    assert (Hp : is_Returns p = true) by (apply H, list_elem_of_here).
    destruct p as [x|]; [|discriminate Hp].
    exists (x :: l). simpl. rewrite E. split; [reflexivity|].
    now constructor.
Qed.

Lemma promise_all_Throws {A} (ps : list (Outcome A)) p :
  p ∈ ps -> is_Returns p = false -> is_Returns (promise_all ps) = false.
Proof.
  induction ps as [|q ps IH]; intros Hin Hp; [inversion Hin|].
  apply elem_of_cons in Hin as [->|Hin].
  - simpl. destruct q; [discriminate Hp|reflexivity].
  - simpl. specialize (IH Hin Hp).
    destruct q; [|reflexivity].
    destruct (promise_all ps); [discriminate IH|reflexivity].
Qed.

Lemma has_items_JArr files : has_items (JArr files) = negb (Nat.eqb (length files) 0).
Proof.
  unfold has_items. simpl. destruct files; reflexivity.
Qed.

(** The result after lines 126-131 reports failures as the result of the
    backend does, and is an object. *)
Lemma artifacts_result o verbose a result r1 r2 :
  read_assets result = Returns a ->
  fetch_logs o verbose a result = Returns r1 ->
  fetch_checkRunData o verbose a r1 = Returns r2 ->
  has_failures r2 = has_failures result
  /\ (exists fields2, r2 = JObj fields2)
  /\ forall name, name <> "logs" -> name <> "checkRunData" ->
       get_prop r2 name = get_prop result name.
Proof.
  intros Hread E2 E3.
  destruct (read_assets_JObj _ _ Hread) as [fields ->].
  destruct (fetch_logs_JObj _ _ _ _ _ E2) as [fields1 ->].
  destruct (fetch_checkRunData_JObj _ _ _ _ _ E3) as [fields2 ->].
  assert (K : forall name, name <> "logs" -> name <> "checkRunData" ->
                get_prop (JObj fields2) name = get_prop (JObj fields) name).
  { intros name N1 N2.
    rewrite (fetch_checkRunData_keeps _ _ _ _ _ name E3) by assumption.
    now apply (fetch_logs_keeps _ _ _ _ _ name E2). }
  split; [|split; [eauto|exact K]].
  apply has_failures_of_get_prop. apply K; discriminate.
Qed.

(** X14. When the result reports failures and every link of its trace
    files can be resolved, the result reported carries under
    [traceFilesUrls] one link for each trace file, in the order of the
    files, whatever becomes of the links of the videos. *)
Theorem X14_trace_links_in_order (o : Assets) (verbose : bool)
    (message result reported : JsVal) (a : AssetRefs) (files : list JsVal) :
  enrich o verbose message = Returns reported ->
  get_prop message "result" = Returns result ->
  read_assets result = Returns a ->
  has_failures result = true ->
  playwrightTestTraceFiles a = JArr files ->
  files <> [] ->
  (forall f, f ∈ files -> is_Returns (getAssetsLink o (region a) f) = true) ->
  exists urls,
    get_prop reported "traceFilesUrls" = Returns (JArr urls)
    /\ Forall2 (fun f url => getAssetsLink o (region a) f = Returns url)
         files urls.
Proof.
  intros H Hres Hread Hf Htr Hne Hok.
  destruct (enrich_Returns _ _ _ _ H)
    as (result' & a' & r1 & r2 & E0 & E1 & E2 & E3 & ->).
  rewrite Hres in E0. injection E0 as <-.
  rewrite Hread in E1. injection E1 as <-.
  destruct (artifacts_result _ _ _ _ _ _ Hread E2 E3)
    as (Hf2 & [fields2 ->] & _).
  destruct (promise_all_Returns (map (getAssetsLink o (region a)) files))
    as (urls & Eall & Fall).
  { intros p Hp. apply list_elem_of_fmap in Hp as (f & -> & Hin). auto. }
  exists urls. split.
  - assert (Hhf : exists hf, get_prop (JObj fields2) "hasFailures" = Returns hf
                             /\ truthy hf = true).
    { rewrite Hf in Hf2. unfold has_failures in Hf2.
      destruct (get_prop (JObj fields2) "hasFailures") as [hf|];
        [eauto|discriminate Hf2]. }
    destruct Hhf as (hf & Ehf & Thf).
    set (r3 := set_prop (JObj fields2) "traceFilesUrls" (JArr urls)).
    assert (E5 : attach_links o (region a) "traceFilesUrls"
                   (playwrightTestTraceFiles a) (JObj fields2) = Returns r3).
    { unfold attach_links. rewrite Htr, has_items_JArr.
      destruct (Nat.eqb_spec (length files) 0) as [Hz|_].
      { destruct files; [congruence|discriminate Hz]. }
      cbn [negb resolve_links]. rewrite Eall. reflexivity. }
    unfold enrich_links. rewrite Ehf, Thf, E5.
    assert (G : get_prop r3 "traceFilesUrls" = Returns (JArr urls))
      by apply get_prop_set_prop_eq.
    destruct (attach_links o (region a) "videoFilesUrls" _ r3) as [r4|] eqn:E4;
      [|exact G].
    rewrite (attach_links_keeps _ _ _ _ _ _ "traceFilesUrls" E4) by discriminate.
    exact G.
  - clear -Fall. revert urls Fall.
    induction files as [|f files IH]; intros urls F; inversion F; subst;
      constructor; auto.
Qed.

Lemma X14_trace_links_in_order_witness :
  exists reported,
    enrich (assets_without "videos/1.webm") false message_traces
    = Returns reported
    /\ get_prop reported "traceFilesUrls"
       = Returns (JArr [JStr "https://assets/traces/1.zip";
                        JStr "https://assets/traces/2.zip";
                        JStr "https://assets/traces/3.zip"])
    /\ get_prop reported "videoFilesUrls" = Returns JUndefined.
Proof.
  eexists. split; [reflexivity|]. split; [|reflexivity].
  destruct (X14_trace_links_in_order (assets_without "videos/1.webm") false
              message_traces result_traces _ refs_traces
              [JStr "traces/1.zip"; JStr "traces/2.zip"; JStr "traces/3.zip"]
              eq_refl eq_refl eq_refl eq_refl eq_refl)
    as (urls & G & F).
  - discriminate.
  - intros f Hf.
    rewrite !elem_of_cons, elem_of_nil in Hf.
    destruct Hf as [->|[->|[->|[]]]]; reflexivity.
  - repeat match goal with
           | H : Forall2 _ (_ :: _) _ |- _ =>
               let E := fresh "E" in
               inversion H as [|? ? ? ? E ?]; subst; clear H;
               vm_compute in E; injection E as <-
           | H : Forall2 _ [] _ |- _ => inversion H; subst; clear H
           end.
    exact G.
Defined.

(** X15. The links of the trace files are attached all or not at all:
    when one of them cannot be resolved, the result reported has
    [traceFilesUrls] as the backend sent it, and the links of the videos
    are not attached either. *)
Theorem X15_trace_links_all_or_nothing (o : Assets) (verbose : bool)
    (message result reported : JsVal) (a : AssetRefs) (files : list JsVal)
    (f : JsVal) :
  enrich o verbose message = Returns reported ->
  get_prop message "result" = Returns result ->
  read_assets result = Returns a ->
  has_failures result = true ->
  playwrightTestTraceFiles a = JArr files ->
  f ∈ files ->
  is_Returns (getAssetsLink o (region a) f) = false ->
  get_prop reported "traceFilesUrls" = get_prop result "traceFilesUrls"
  /\ get_prop reported "videoFilesUrls" = get_prop result "videoFilesUrls".
Proof.
  intros H Hres Hread Hf Htr Hin Hbad.
  destruct (enrich_Returns _ _ _ _ H)
    as (result' & a' & r1 & r2 & E0 & E1 & E2 & E3 & ->).
  rewrite Hres in E0. injection E0 as <-.
  rewrite Hread in E1. injection E1 as <-.
  destruct (artifacts_result _ _ _ _ _ _ Hread E2 E3) as (Hf2 & _ & K).
  rewrite enrich_links_traces_fail.
  - split; apply K; discriminate.
  - congruence.
  - rewrite Htr, has_items_JArr. destruct files; [inversion Hin|reflexivity].
  - rewrite Htr. cbn [resolve_links].
    assert (Hall : is_Returns (promise_all (map (getAssetsLink o (region a)) files))
                   = false).
    { apply (promise_all_Throws _ (getAssetsLink o (region a) f));
        [|assumption].
      apply list_elem_of_fmap. eauto. }
    destruct (promise_all _); [discriminate Hall|reflexivity].
Qed.

Lemma X15_trace_links_all_or_nothing_witness :
  exists reported,
    enrich (assets_without "traces/2.zip") false message_traces
    = Returns reported
    /\ get_prop reported "traceFilesUrls" = Returns JUndefined
    /\ get_prop reported "videoFilesUrls" = Returns JUndefined.
Proof.
  eexists. split; [reflexivity|].
  apply (X15_trace_links_all_or_nothing (assets_without "traces/2.zip") false
           message_traces result_traces _ refs_traces
           [JStr "traces/1.zip"; JStr "traces/2.zip"; JStr "traces/3.zip"]
           (JStr "traces/2.zip"));
    try reflexivity.
  apply list_elem_of_further, list_elem_of_here.
Defined.

(** ** A payload without [result.assets] *)

Lemma get_prop_Throws v name e : get_prop v name = Throws e -> e = TypeError.
Proof. destruct v; simpl; intros H; now inversion H. Qed.

Lemma read_assets_Throws result e : read_assets result = Throws e -> e = TypeError.
Proof.
  unfold read_assets. intros H.
  repeat match type of H with
         | bindO ?m _ = _ =>
             let E := fresh "E" in
             destruct m eqn:E; cbn [bindO] in H;
             [|injection H as <-; now apply get_prop_Throws in E]
         end.
  discriminate H.
Qed.

(** X16. A [run-end] message for a pending check whose payload has no
    [result.assets] to read makes [processMessage] throw a [TypeError]
    once the timer of the check is cancelled: nothing is emitted for the
    check, and no timer is left to report it. *)
Theorem X16_malformed_run_end (o : Assets) (checkRunId : string)
    (message : JsVal) (s : State) (t : Timeout) :
  reachable s ->
  timeouts s !! checkRunId = Some t ->
  (forall result a, get_prop message "result" = Returns result ->
                    read_assets result <> Returns a) ->
  processMessage o checkRunId "run-end" message s
  = (Throws TypeError, disableTimeout checkRunId s).
Proof.
  intros Hr Hk Hbad.
  rewrite (processMessage_run_end o checkRunId message s t Hr Hk).
  unfold report_run_end, enrich. cbn [susp_message].
  destruct (get_prop message "result") as [result|e] eqn:E0; cbn [bindO].
  - destruct (read_assets result) as [a|e] eqn:E1; cbn [bindO].
    + destruct (Hbad result a eq_refl E1).
    + now rewrite (read_assets_Throws _ _ E1).
  - now rewrite (get_prop_Throws _ _ _ E0).
Qed.

Lemma X16_malformed_run_end_witness :
  timeouts demo_state !! "a" = Some timer_a
  /\ processMessage assets_up "a" "run-end" (JObj [("result", JNull)]) demo_state
     = (Throws TypeError, disableTimeout "a" demo_state).
Proof.
  split; [vm_compute; reflexivity|].
  apply (X16_malformed_run_end assets_up "a" _ demo_state timer_a).
  - exists "acc", 5%Z, false, demo_setup. reflexivity.
  - vm_compute. reflexivity.
  - intros result a H. injection H as <-. discriminate.
Defined.

(** ** The dispatch and the queue *)

(** *** A handler that asks for nothing *)

(** When lines 118-146 reach no [await], the result is reported as the
    backend sent it, whatever the asset service would answer. *)
Lemma enrich_at_once o verbose message result a :
  requests_assets verbose message = false ->
  get_prop message "result" = Returns result ->
  read_assets result = Returns a ->
  enrich o verbose message = Returns result.
Proof.
  intros Hreq Hres Hread. unfold requests_assets in Hreq.
  rewrite Hres, Hread in Hreq.
  apply orb_false_iff in Hreq as [Hreq Hlinks].
  apply orb_false_iff in Hreq as [Hlogs Hdata].
  destruct (read_assets_object _ _ Hread) as [hf Hhf].
  unfold enrich. rewrite Hres. cbn [bindO]. rewrite Hread. cbn [bindO].
  assert (E1 : fetch_logs o verbose a result = Returns result).
  { unfold fetch_logs. destruct (truthy (logPath a)); [|reflexivity].
    rewrite (wants_artifacts_spec verbose result hf Hhf). cbn [bindO].
    simpl in Hlogs. now rewrite Hlogs. }
  assert (E2 : fetch_checkRunData o verbose a result = Returns result).
  { unfold fetch_checkRunData. destruct (truthy (checkRunDataPath a)); [|reflexivity].
    rewrite (wants_artifacts_spec verbose result hf Hhf). cbn [bindO].
    simpl in Hdata. now rewrite Hdata. }
  rewrite E1. cbn [bindO]. rewrite E2. cbn [bindO]. f_equal.
  unfold enrich_links. unfold has_failures in Hlinks. rewrite Hhf in *.
  destruct (truthy hf); [|reflexivity]. simpl in Hlinks.
  apply orb_false_iff in Hlinks as [Ht Hv].
  unfold attach_links, links_requested in *.
  destruct (has_items (playwrightTestTraceFiles a)).
  - simpl in Ht.
    destruct (playwrightTestTraceFiles a); try discriminate; reflexivity.
  - simpl in Hv. destruct (has_items (playwrightTestVideoFiles a)); [|reflexivity].
    simpl in Hv.
    destruct (playwrightTestVideoFiles a); try discriminate; reflexivity.
Qed.


(** A task for a pending check, called when no handler is suspended. *)
Lemma run_task_armed k sub m s t :
  registry_ok s -> timeouts s !! k = Some t -> inflight s = None ->
  let p := mkSuspended (timer_check t) m in
  run_task (mkJob k sub m) s
  = if String.eqb sub "run-start"
    then (None, emit (CHECK_INPROGRESS (timer_check t)) s)
    else if String.eqb sub "run-end"
    then if requests_assets (verbose s) m
         then (None, set_inflight (Some p) (disableTimeout k s))
         else (thrown (fst (report_run_end unasked p (disableTimeout k s))),
               snd (report_run_end unasked p (disableTimeout k s)))
    else if String.eqb sub "error"
    then (None, emit (CHECK_FINISHED (timer_check t))
                  (emit (CHECK_FAILED (timer_check t) m) (disableTimeout k s)))
    else (None, s).
Proof.
  intros Hreg Hk Hi p. subst p.
  destruct (entry_check _ Hreg _ _ Hk) as (cs & Hcs & Hc).
  destruct (armed_check s k t cs Hreg Hk Hcs) as [_ Hg].
  unfold run_task, call_task, processMessage_begin.
  cbn [job_checkRunId job_subtopic job_message]. rewrite Hk, Hcs, Hg.
  destruct (String.eqb sub "run-start").
  { cbn [thrown]. fields. now rewrite Hi. }
  destruct (String.eqb sub "run-end").
  { set (p := mkSuspended (timer_check t) m).
    cbn [inflight set_inflight verbose]. subst p. cbn [susp_message].
    set (p := mkSuspended (timer_check t) m).
    rewrite disableTimeout_verbose.
    destruct (requests_assets (verbose s) m); [reflexivity|].
    unfold resume_task. cbn [inflight set_inflight].
    assert (E : set_inflight None (disableTimeout k s) = disableTimeout k s).
    { rewrite <- (set_inflight_same (disableTimeout k s)) at 2.
      now rewrite disableTimeout_inflight, Hi. }
    change (set_inflight None (set_inflight (Some p) (disableTimeout k s)))
      with (set_inflight None (disableTimeout k s)).
    rewrite E. now destruct (report_run_end unasked p (disableTimeout k s)). }
  destruct (String.eqb sub "error").
  { cbn [thrown]. fields. now rewrite Hi. }
  cbn [thrown]. now rewrite Hi.
Qed.

(** A handler that asks the asset service for nothing does not depend
    on it. *)
Lemma enrich_unasked o o' verbose message :
  requests_assets verbose message = false ->
  enrich o verbose message = enrich o' verbose message.
Proof.
  intros Hreq.
  destruct (get_prop message "result") as [result|e] eqn:Hres;
    [|unfold enrich; now rewrite Hres].
  destruct (read_assets result) as [a|e] eqn:Hread;
    [|unfold enrich; rewrite Hres; cbn [bindO]; now rewrite Hread].
  now rewrite (enrich_at_once o _ _ _ _ Hreq Hres Hread),
    (enrich_at_once o' _ _ _ _ Hreq Hres Hread).
Qed.

(** ** The queue runs [processMessage] *)

(** X21. A task the queue starts is one call of [processMessage]: when
    the call returns, the state it leaves is the state after the turn in
    which the queue has called the task and, for a handler that was
    suspended, the turn in which the asset service has answered; when the
    call throws, the process has ended by then, on what the call has
    thrown. *)
Theorem X21_queue_runs_processMessage (o : Assets) (checkRunId subtopic : string)
    (message : JsVal) (rest : list Job) (s : State) :
  reachable s ->
  queueStarted s = true ->
  inflight s = None ->
  queue s = mkJob checkRunId subtopic message :: rest ->
  let call := processMessage o checkRunId subtopic message (set_queue rest s) in
  (fst call = Returns tt -> exec [Next; Fetched o] s = snd call)
  /\ (forall e, fst call = Throws e ->
        phase (exec [Next; Fetched o] s) = Exited e).
Proof.
  intros Hr Hqs Hi Hq call.
  set (s0 := set_queue rest s).
  assert (Hreg0 : registry_ok s0).
  { apply (registry_ok_frame s); auto. now apply reachable_registry_ok. }
  assert (Hi0 : inflight s0 = None) by exact Hi.
  assert (ENext : step Next s
                  = settle (run_task (mkJob checkRunId subtopic message) s0)).
  { rewrite step_Next. unfold start_another. now rewrite Hqs, Hi, Hq. }
  assert (Hidle : forall s1, inflight s1 = None -> step (Fetched o) s1 = s1).
  { intros s1 H1. rewrite step_Fetched. unfold resume_task. now rewrite H1. }
  assert (Hexit : forall e s1, step (Fetched o) (process_exit e s1)
                               = process_exit e s1).
  { intros e s1. apply Hidle. reflexivity. }
  change (exec [Next; Fetched o] s) with (step (Fetched o) (step Next s)).
  rewrite ENext. unfold call, processMessage. fold s0.
  destruct (timeouts s0 !! checkRunId) as [t|] eqn:Hk.
  - rewrite (run_task_armed _ _ _ _ t Hreg0 Hk Hi0).
    unfold processMessage_begin. rewrite Hk.
    destruct (entry_check _ Hreg0 _ _ Hk) as (cs & Hcs & Hc).
    destruct (armed_check s0 _ t cs Hreg0 Hk Hcs) as [_ Hg].
    rewrite Hcs, Hg.
    destruct (String.eqb subtopic "run-start").
    { cbn [fst snd settle]. split; [|discriminate].
      intros _. apply Hidle. now fields. }
    destruct (String.eqb subtopic "run-end").
    { set (p := mkSuspended (timer_check t) message).
      set (s1 := disableTimeout checkRunId s0).
      assert (Hi1 : inflight s1 = None) by (unfold s1; now fields).
      assert (Hv1 : verbose s1 = verbose s0) by (unfold s1; now fields).
      destruct (requests_assets (verbose s0) message) eqn:Hreq.
      - cbn [settle]. rewrite step_Fetched. unfold resume_task.
        cbn [inflight set_inflight].
        change (set_inflight None (set_inflight (Some p) s1))
          with (set_inflight None s1).
        assert (E : set_inflight None s1 = s1)
          by (rewrite <- Hi1; apply set_inflight_same).
        rewrite E.
        destruct (report_run_end o p s1) as [[[]|e] s2]; cbn [fst snd thrown settle].
        + split; [reflexivity | discriminate].
        + split; [discriminate|]. intros e0 [= <-]. reflexivity.
      - assert (Eo : report_run_end unasked p s1 = report_run_end o p s1).
        { unfold report_run_end, p. cbn [susp_message]. rewrite Hv1.
          now rewrite (enrich_unasked unasked o _ _ Hreq). }
        rewrite Eo.
        pose proof (report_run_end_frame o p s1) as (_ & _ & Hi2 & _).
        destruct (report_run_end o p s1) as [[[]|e] s2]; cbn [fst snd thrown settle] in *.
        + split; [|discriminate]. intros _. apply Hidle. congruence.
        + split; [discriminate|]. intros e0 [= <-]. now rewrite Hexit. }
    destruct (String.eqb subtopic "error").
    { cbn [fst snd settle]. split; [|discriminate].
      intros _. apply Hidle. now fields. }
    cbn [fst snd settle]. split; [|discriminate]. intros _. now apply Hidle.
  - rewrite run_task_discard by assumption.
    rewrite processMessage_begin_discard by assumption.
    cbn [fst snd settle]. split; [|discriminate]. intros _. now apply Hidle.
Qed.

(** The result of check ["a"], which reports failures, is handled in two
    turns. *)
Lemma X21_queue_runs_processMessage_witness :
  queue (step (Arrive "a" "run-end" message_failed) demo_state)
  = [mkJob "a" "run-end" message_failed]
  /\ exec [Next; Fetched assets_up]
       (step (Arrive "a" "run-end" message_failed) demo_state)
     = snd (processMessage assets_up "a" "run-end" message_failed
              (set_queue [] (step (Arrive "a" "run-end" message_failed)
                               demo_state))).
Proof.
  split; [reflexivity|].
  destruct (X21_queue_runs_processMessage assets_up "a" "run-end" message_failed
              [] (step (Arrive "a" "run-end" message_failed) demo_state))
    as (H & _).
  - apply reachable_step, demo_state_reachable.
  - reflexivity.
  - reflexivity.
  - reflexivity.
  - apply H. vm_compute. reflexivity.
Defined.

(** ** The dispatch *)

(** X17. When the dispatch answers, the timers are armed and the
    listener of [allChecksFinished] is installed before the queue is
    started: in the state in which [queue.start()] calls the first task,
    every check of the answer has its entry in the registry, with an
    armed timer for that check, set with [timeout * 1000], and nothing
    else has; the listener has counted nothing; the messages that were
    queued meanwhile are all in the queue; and nothing was emitted.
    [RUN_STARTED] is emitted when that task has run. *)
Theorem X17_dispatch_arms_every_check (r : Scheduled) (s : State) :
  reachable s ->
  phase s = Scheduling ->
  exists s3,
    step (Dispatched (Returns r)) s
    = settle
        (fst (start_another s3),
         set_phase (Awaiting (sched_testSessionId r))
           (emit (RUN_STARTED (sched_testSessionId r) (sched_testResultIds r))
              (snd (start_another s3))))
    /\ (forall k c, sched_checks r !! k = Some c ->
          exists t, timeouts s3 !! k = Some t
                    /\ timers s3 !! timer_id t = Some t
                    /\ timer_check t = c
                    /\ timer_delay t = timer_after (timeout s * 1000))
    /\ (forall k, sched_checks r !! k = None -> timeouts s3 !! k = None)
    /\ listener s3
       = (if Nat.eqb (size (sched_checks r)) 0 then None
          else Some (mkTracker 0 (size (sched_checks r))))
    /\ queueStarted s = false /\ queueStarted s3 = true
    /\ queue s3 = queue s /\ inflight s3 = None
    /\ emitted s3 = [].
Proof.
  intros Hr Hph.
  assert (Hp : pristine s).
  { apply (inv_setting_up _ (reachable_Inv s Hr)). unfold setting_up. auto. }
  destruct (step_Dispatched r s Hph Hp) as (s3 & Hd & E).
  exists s3. split; [exact E|].
  pose proof (dispatched_registry _ _ _ Hd) as Hreg.
  split; [|split; [|split; [apply Hd|split; [apply Hp|split; [apply Hd|
    split; [apply Hd|split; [apply Hd|apply Hd]]]]]]].
  - intros k c Hk.
    destruct (proj1 (dispatched_armed _ _ _ Hd k) (ex_intro _ c Hk)) as [t Ht].
    destruct (entry_armed _ Hreg _ _ Ht) as (A1 & A2 & A3).
    destruct (entry_check _ Hreg _ _ Ht) as (cs & Hcs & Hc).
    rewrite (dispatched_checks _ _ _ Hd) in Hcs. injection Hcs as <-.
    exists t. repeat split; auto; try congruence.
    now rewrite A3, (dispatched_timeout _ _ _ Hd).
  - intros k Hk. destruct (timeouts s3 !! k) as [t|] eqn:Et; [|reflexivity].
    destruct (proj2 (dispatched_armed _ _ _ Hd k) (ex_intro _ t Et)) as [c Hc].
    congruence.
Qed.

Lemma X17_dispatch_arms_every_check_witness :
  phase demo_subscribed = Scheduling
  /\ exists s3 t,
       demo_state
       = settle
           (fst (start_another s3),
            set_phase (Awaiting (Some "session"))
              (emit demo_started (snd (start_another s3))))
       /\ timeouts s3 !! "b" = Some t
       /\ timer_check t = JStr "B"
       /\ timer_delay t = 5000%Z.
Proof.
  split; [reflexivity|].
  destruct (X17_dispatch_arms_every_check
              (mkScheduled (Some "session") None demo_checks) demo_subscribed)
    as (s3 & E & H & _).
  - exists "acc", 5%Z, false,
      [Connected (Returns tt) "suite"; Subscribed (Returns tt)].
    reflexivity.
  - reflexivity.
  - destruct (H "b" (JStr "B")) as (t & H1 & _ & H3 & H4);
      [vm_compute; reflexivity|].
    exists s3, t. split; [exact E|]. split; [exact H1|].
    split; [exact H3 | exact H4].
Defined.



(** ** A check that is resolved stays resolved *)

Lemma not_armed_later ls s k :
  reachable s -> ~ setting_up s -> timeouts s !! k = None ->
  timeouts (exec ls s) !! k = None.
Proof.
  intros Hr Hlate Hk.
  destruct (timeouts (exec ls s) !! k) as [t|] eqn:E; [|reflexivity].
  pose proof (reachable_registry_ok _ (reachable_exec ls s Hr)) as Hreg'.
  destruct (entry_armed _ Hreg' _ _ E) as (Ha & Hb & _).
  apply (exec_late ls s Hlate) in Ha.
  destruct (timer_entry _ (reachable_registry_ok s Hr) _ _ Ha) as [_ Hin].
  congruence.
Qed.

(** X19. Once the checks are dispatched no timer is armed any more: a
    check that has no entry in the registry (it was reported, it timed
    out, or the run does not know it) never gets one again, and every
    message for it, at any later point of the run, is discarded. *)
Theorem X19_resolved_for_good (o : Assets) (ls : list Label) (s : State)
    (checkRunId subtopic : string) (message : JsVal) :
  reachable s ->
  ~ setting_up s ->
  timeouts s !! checkRunId = None ->
  timeouts (exec ls s) !! checkRunId = None
  /\ processMessage o checkRunId subtopic message (exec ls s)
     = (Returns tt, exec ls s).
Proof.
  intros Hr Hlate Hk.
  pose proof (not_armed_later ls s checkRunId Hr Hlate Hk) as H.
  split; [exact H|].
  unfold processMessage. now rewrite processMessage_begin_discard.
Qed.

Lemma X19_resolved_for_good_witness :
  timeouts (step (Expire 0) demo_state) !! "a" = None
  /\ processMessage assets_up "a" "run-end" message_passed
       (exec [Arrive "a" "run-start" JNull; Next] (step (Expire 0) demo_state))
     = (Returns tt,
        exec [Arrive "a" "run-start" JNull; Next] (step (Expire 0) demo_state)).
Proof.
  split; [vm_compute; reflexivity|].
  apply (X19_resolved_for_good assets_up [Arrive "a" "run-start" JNull; Next]
           (step (Expire 0) demo_state) "a" "run-end" message_passed).
  - exists "acc", 5%Z, false, (demo_setup ++ [Expire 0]).
    unfold demo_state. now rewrite exec_app.
  - unfold setting_up. vm_compute. intros [H|[H|H]]; discriminate H.
  - vm_compute. reflexivity.
Defined.

(** ** The checks that are accounted for *)

Lemma size_delete_armed (m : gmap string Timeout) k t :
  m !! k = Some t -> S (size (delete k m)) = size m.
Proof.
  intros H. rewrite map_size_delete, H.
  assert (size m <> 0).
  { apply map_size_non_empty_iff. intros ->. rewrite lookup_empty in H.
    discriminate. }
  lia.
Qed.

Lemma finished_checks_snoc log c :
  length (finished_checks (log ++ [CHECK_FINISHED c]))
  = S (length (finished_checks log)).
Proof. rewrite finished_checks_app, length_app. simpl. lia. Qed.

Lemma finished_checks_other log e :
  (forall c, e <> CHECK_FINISHED c) ->
  finished_checks (log ++ [e]) = finished_checks log.
Proof.
  intros H. rewrite finished_checks_app.
  destruct e; simpl; try apply app_nil_r. destruct (H check eq_refl).
Qed.

Lemma handled_registry s s' : handled s s' -> registry_ok s -> registry_ok s'.
Proof.
  induction 1 as [s|q s s' _ IH|job s s' Hi _ IH|o s s' _ IH]; intros Hreg.
  - assumption.
  - apply IH. apply (registry_ok_frame s); auto.
  - apply IH. destruct job as [k sub m]. unfold call_task, processMessage_begin.
    cbn [job_checkRunId job_subtopic job_message].
    destruct (timeouts s !! k) as [t|] eqn:Hk; [|assumption].
    destruct (checks s) as [cs|]; [|assumption].
    destruct (String.eqb sub "run-start");
      [|destruct (String.eqb sub "run-end"); [|destruct (String.eqb sub "error")]];
      cbn [snd thrown].
    + apply (registry_ok_frame s); autorewrite with runner; auto.
    + apply (registry_ok_frame (disableTimeout k s));
        auto using registry_ok_disableTimeout.
    + apply (registry_ok_frame (disableTimeout k s));
        autorewrite with runner; auto using registry_ok_disableTimeout.
    + assumption.
  - apply IH. unfold resume_task. destruct (inflight s) as [p|]; [|assumption].
    destruct (report_run_end_frame o p (set_inflight None s))
      as (_ & _ & _ & H2 & H1).
    destruct (report_run_end_same_run o p (set_inflight None s))
      as [_ _ _ _ Hc Hto _].
    destruct (report_run_end o p (set_inflight None s)) as [r s1].
    cbn [snd] in *. apply (registry_ok_frame s); auto.
Qed.

(** A task that is called loses no check: a check leaves the registry
    to be reported, or to be handled. *)
Lemma call_task_accounted job s :
  registry_ok s -> inflight s = None ->
  accounted (snd (call_task job s)) = accounted s.
Proof.
  intros Hreg Hi. destruct job as [k sub m].
  unfold call_task, processMessage_begin.
  cbn [job_checkRunId job_subtopic job_message].
  destruct (timeouts s !! k) as [t|] eqn:Hk; [|reflexivity].
  destruct (entry_check _ Hreg _ _ Hk) as (cs & Hcs & _). rewrite Hcs.
  pose proof (size_delete_armed _ _ _ Hk) as Hsz.
  destruct (String.eqb sub "run-start").
  { cbn [snd]. unfold accounted, inflight_count. fields.
    now rewrite finished_checks_other by discriminate. }
  destruct (String.eqb sub "run-end").
  { cbn [snd]. unfold accounted, inflight_count. fields. rewrite Hi. lia. }
  destruct (String.eqb sub "error"); [|reflexivity].
  cbn [snd]. unfold accounted, inflight_count. fields.
  rewrite finished_checks_snoc, finished_checks_other by discriminate.
  rewrite Hi. lia.
Qed.

(** The handler that goes on reports its check, unless it throws: then
    its check is accounted for no more. *)
Lemma resume_task_accounted o s :
  match fst (resume_task o s) with
  | None => accounted (snd (resume_task o s)) = accounted s
  | Some _ => S (accounted (snd (resume_task o s))) = accounted s
  end.
Proof.
  unfold resume_task. destruct (inflight s) as [p|] eqn:Hi; [|reflexivity].
  unfold report_run_end. cbn [verbose set_inflight].
  destruct (enrich o (verbose s) (susp_message p)); cbn [fst snd thrown].
  - unfold accounted, inflight_count. fields.
    rewrite finished_checks_snoc, finished_checks_other by discriminate.
    rewrite Hi. lia.
  - unfold accounted, inflight_count. fields. rewrite Hi. lia.
Qed.

Lemma handled_accounted s s' :
  handled s s' -> registry_ok s -> accounted s' <= accounted s.
Proof.
  induction 1 as [s|q s s' _ IH|job s s' Hi H IH|o s s' H IH]; intros Hreg.
  - lia.
  - apply IH. apply (registry_ok_frame s); auto.
  - rewrite <- (call_task_accounted job s Hreg Hi). apply IH.
    apply (handled_registry s); [now apply call_task_handled | assumption].
  - pose proof (resume_task_accounted o s) as Ha.
    assert (Hreg' : registry_ok (snd (resume_task o s)))
      by (apply (handled_registry s); [apply resume_task_handled | assumption]).
    specialize (IH Hreg').
    destruct (fst (resume_task o s)); lia.
Qed.

(** A turn of the queue in which no task throws loses no check. *)
Lemma start_another_accounted s :
  registry_ok s -> fst (start_another s) = None ->
  accounted (snd (start_another s)) = accounted s.
Proof.
  intros Hreg. unfold start_another.
  destruct (queueStarted s); [|reflexivity].
  destruct (inflight s) eqn:Hi; [reflexivity|].
  destruct (queue s) as [|job rest]; [reflexivity|].
  set (s0 := set_queue rest s).
  assert (Hreg0 : registry_ok s0) by (apply (registry_ok_frame s); auto).
  assert (Hi0 : inflight s0 = None) by exact Hi.
  change (accounted s) with (accounted s0).
  unfold run_task.
  pose proof (call_task_accounted job s0 Hreg0 Hi0) as Hc.
  destruct (call_task job s0) as [r s1]. cbn [snd] in Hc.
  destruct (inflight s1) as [p|]; [|intros _; exact Hc].
  destruct (requests_assets (verbose s1) (susp_message p)); [intros _; exact Hc|].
  pose proof (resume_task_accounted unasked s1) as Hr.
  intros E. rewrite E in Hr. congruence.
Qed.

(** The checks accounted for are checks of the run, each counted once. *)
Lemma accounted_bound cs fin s :
  progress cs fin s -> registry_ok s -> accounted s <= size cs.
Proof.
  intros Hpr Hreg. unfold accounted.
  rewrite (progress_finished _ _ _ Hpr), length_map.
  set (A := list_to_set fin : gset string).
  set (B := dom (timeouts s) : gset string).
  assert (HA : size A = length fin)
    by (apply size_list_to_set, (progress_nodup _ _ _ Hpr)).
  assert (HB : size B = size (timeouts s)) by apply size_dom.
  assert (HAB : A ## B).
  { apply elem_of_disjoint. intros k Hk1 Hk2.
    apply elem_of_list_to_set in Hk1. apply elem_of_dom in Hk2 as [t Ht].
    destruct (progress_done _ _ _ Hpr k Hk1). congruence. }
  assert (HAc : A ⊆ dom cs).
  { intros k Hk. apply elem_of_list_to_set in Hk. apply elem_of_dom.
    now destruct (progress_done _ _ _ Hpr k Hk). }
  assert (HBc : B ⊆ dom cs).
  { intros k Hk. apply elem_of_dom in Hk as [t Ht]. apply elem_of_dom.
    destruct (entry_check _ Hreg _ _ Ht) as (cs' & Hcs' & Hk).
    rewrite (progress_checks _ _ _ Hpr) in Hcs'. injection Hcs' as <-. eauto. }
  rewrite <- HA, <- HB, <- (size_dom (D := gset string) cs).
  unfold inflight_count.
  destruct (inflight s) as [p|] eqn:Hi.
  - destruct (progress_inflight _ _ _ Hpr p Hi) as (k & K1 & K2 & K3).
    assert (HC : A ∪ B ## ({[k]} : gset string)).
    { apply disjoint_singleton_r. intros Hin.
      apply elem_of_union in Hin as [Hin|Hin].
      - apply K1. now apply elem_of_list_to_set in Hin.
      - apply elem_of_dom in Hin as [t Ht]. congruence. }
    rewrite <- (size_union A B HAB).
    replace 1 with (size ({[k]} : gset string)) by apply size_singleton.
    rewrite <- (size_union _ _ HC).
    apply subseteq_size. apply union_subseteq. split.
    + apply union_subseteq. auto.
    + intros x Hx. apply elem_of_singleton in Hx as ->.
      apply elem_of_dom. eauto.
  - rewrite Nat.add_0_r, <- (size_union A B HAB).
    apply subseteq_size. apply union_subseteq. auto.
Qed.

Lemma no_RUN_FINISHED_yet evs :
  forallb is_check_event evs = true -> existsb is_RUN_FINISHED evs = false.
Proof.
  induction evs as [|e evs IH]; [reflexivity|]. simpl.
  intros H. apply andb_true_iff in H as [He H].
  rewrite (IH H). destruct e; try discriminate He; reflexivity.
Qed.

Lemma started_log_unfinished sid log :
  started_log sid log -> existsb is_RUN_FINISHED log = false.
Proof.
  intros (rids & pre & evs & -> & Hp & He).
  rewrite existsb_app. cbn [existsb is_RUN_FINISHED orb].
  now rewrite !no_RUN_FINISHED_yet.
Qed.

Lemma same_size (cs : gmap string JsVal) (ts : gmap string Timeout) :
  (forall k, is_Some (cs !! k) <-> is_Some (ts !! k)) -> size ts = size cs.
Proof.
  intros H.
  rewrite <- (size_dom (D := gset string) ts), <- (size_dom (D := gset string) cs).
  f_equal. apply set_eq. intros k. rewrite !elem_of_dom. symmetry. apply H.
Qed.

(** While [run] awaits the completion of the checks, every check of the
    run is accounted for. *)
(** The setup of the run does not bring [run] to its [await] for the
    checks, but for the answer of the dispatch. *)
Lemma setup_step_stays l s sid :
  match l with
  | Connected _ _ | Subscribed _ | Dispatched (Throws _) => True
  | _ => False
  end ->
  phase (step l s) = Awaiting sid -> step l s = s.
Proof.
  intros Hl.
  destruct l as [r v4|r|r| | | | |]; try contradiction;
    unfold step, run_finally; destruct r, (phase s);
    cbn [phase set_phase]; intros Hx;
    try reflexivity; try discriminate Hx; contradiction.
Qed.

Lemma accounted_step l s :
  Inv s ->
  (forall sid cs, phase s = Awaiting sid -> checks s = Some cs ->
                  accounted s = size cs) ->
  forall sid cs, phase (step l s) = Awaiting sid -> checks (step l s) = Some cs ->
                 accounted (step l s) = size cs.
Proof.
  intros Hinv Hacc sid cs.
  pose proof (inv_registry _ Hinv) as Hreg.
  assert (Hturn : forall turn,
            handled s (snd turn) ->
            (fst turn = None -> accounted (snd turn) = accounted s) ->
            phase (settle turn) = Awaiting sid ->
            checks (settle turn) = Some cs ->
            accounted (settle turn) = size cs).
  { intros [[e|] s1] H Ha; cbn [settle fst snd] in *.
    - unfold process_exit. fields. intros Hx. discriminate Hx.
    - destruct (handled_same_run s s1 H) as [Hp _ _ _ Hc _ _].
      rewrite Hp, Hc, Ha by reflexivity. apply Hacc. }
  assert (Hsetup : forall l0,
            match l0 with
            | Connected _ _ | Subscribed _ | Dispatched (Throws _) => True
            | _ => False
            end ->
            phase (step l0 s) = Awaiting sid -> checks (step l0 s) = Some cs ->
            accounted (step l0 s) = size cs).
  { intros l0 Hl0 Hx. pose proof (setup_step_stays l0 s sid Hl0 Hx) as Es.
    rewrite Es in Hx |- *. intros Hc. now apply (Hacc sid cs). }
  destruct l.
  - now apply Hsetup.
  - now apply Hsetup.
  - destruct r as [r|e]; [|now apply Hsetup].
    assert (Hcases : phase s = Scheduling \/ phase s <> Scheduling)
      by (destruct (phase s); auto; right; discriminate).
    destruct Hcases as [E|E].
    + assert (Hp : pristine s).
      { apply (inv_setting_up _ Hinv). unfold setting_up. auto. }
      destruct (step_Dispatched r s E Hp) as (s3 & Hd & ->).
      pose proof (start_another_accounted s3 (dispatched_registry _ _ _ Hd)) as Ha.
      destruct (handled_same_run _ _ (start_another_handled s3))
        as [_ _ _ _ Hc _ _].
      destruct (start_another s3) as [[e|] s4]; cbn [settle fst snd] in *.
      * unfold process_exit. fields. intros Hx. discriminate Hx.
      * fields. intros _. rewrite Hc, (dispatched_checks _ _ _ Hd).
        intros [= <-].
        unfold accounted, inflight_count in *. fields.
        rewrite finished_checks_other by discriminate.
        rewrite Ha by reflexivity.
        rewrite (dispatched_emitted _ _ _ Hd), (dispatched_inflight _ _ _ Hd).
        simpl. rewrite Nat.add_0_r.
        apply same_size, (dispatched_armed _ _ _ Hd).
    + assert (Es : step (Dispatched (Returns r)) s = s).
      { unfold step. destruct (phase s); try reflexivity. now destruct E. }
      rewrite Es. apply Hacc.
  - rewrite step_Arrive. destruct (listening s); apply Hacc.
  - rewrite step_Next. apply Hturn.
    + apply start_another_handled.
    + now apply start_another_accounted.
  - rewrite step_Fetched. apply Hturn.
    + apply resume_task_handled.
    + intros E. pose proof (resume_task_accounted o s) as Ha.
      now rewrite E in Ha.
  - rewrite step_Expire. destruct (timers s !! id) as [t|] eqn:Hid; [|apply Hacc].
    destruct (timer_entry _ Hreg _ _ Hid) as [_ Hk].
    pose proof (size_delete_armed _ _ _ Hk) as Hsz.
    unfold timeout_callback. fields. intros Hp Hc.
    rewrite <- (Hacc sid cs Hp Hc).
    unfold accounted, inflight_count. fields.
    rewrite finished_checks_snoc, finished_checks_other by discriminate.
    lia.
  - assert (Hcases : step Resume s = s \/ phase (step Resume s) = Returned).
    { rewrite step_Resume. destruct (phase s); auto.
      destruct (Nat.ltb 0 (resolutions s)); auto. }
    destruct Hcases as [->|Hret]; [apply Hacc|].
    rewrite Hret. intros Hx. discriminate Hx.
Qed.

Lemma accounted_running s sid cs :
  reachable s -> phase s = Awaiting sid -> checks s = Some cs ->
  accounted s = size cs.
Proof.
  intros (a & t & v & ls & ->). revert sid cs.
  induction ls as [|l ls IH] using rev_ind; [discriminate|].
  rewrite exec_app. cbn [exec foldl].
  apply accounted_step; [|exact IH].
  apply Inv_exec, Inv_constructor.
Qed.

(** X10. When the handler of a [run-end] message that is suspended
    throws (the logs or the check-run data cannot be fetched), it emits
    nothing, and the promise of [queue.add] is rejected with nobody to
    handle it: the queue still runs the tasks it holds, up to the first
    that asks the asset service for something, and the process ends.  Fewer checks have been
    reported finished than the run has, the promise of
    [allChecksFinished] was not resolved and [RUN_FINISHED] was not
    emitted; and nothing happens any more. *)
Theorem X10_failed_handler_ends_process (o : Assets) (p : Suspended)
    (e : Thrown) (s : State) (cs : gmap string JsVal) :
  reachable s ->
  inflight s = Some p ->
  checks s = Some cs ->
  enrich o (verbose s) (susp_message p) = Throws e ->
  let s' := step (Fetched o) s in
  s' = process_exit e (run_queue (set_inflight None s))
  /\ phase s' = Exited e
  /\ length (finished_checks (emitted s')) < size cs
  /\ resolutions s' = 0
  /\ existsb is_RUN_FINISHED (emitted s') = false
  /\ forall ls, exec ls s' = s'.
Proof.
  intros Hr Hi Hcs He s'.
  pose proof (reachable_Inv s Hr) as Hinv.
  pose proof (inv_registry _ Hinv) as Hreg.
  assert (Hrun : running s).
  { destruct (Inv_cases s Hinv) as [[_ Hp]|[Hrun|[[e' Hf]|[Hf|[e' Hx]]]]].
    - rewrite (pristine_inflight _ Hp) in Hi. discriminate.
    - assumption.
    - rewrite (failed_inflight _ _ Hf) in Hi. discriminate.
    - destruct Hf as (? & ? & ? & ? & _ & _ & _ & _ & _ & _ & _ & _ & Hn).
      congruence.
    - destruct Hx as (? & ? & ? & _ & _ & _ & _ & _ & Hn & _). congruence. }
  destruct Hrun as (sid & cs' & fin & Hph & Hpr & _).
  assert (cs' = cs) by (pose proof (progress_checks _ _ _ Hpr); congruence).
  subst cs'.
  pose proof (accounted_running s sid cs Hr Hph Hcs) as Hacc.
  set (s0 := set_inflight None s).
  assert (E : s' = process_exit e (run_queue s0)).
  { unfold s'. rewrite step_Fetched. unfold resume_task, report_run_end.
    rewrite Hi. cbn [verbose set_inflight]. now rewrite He. }
  assert (Hreg0 : registry_ok s0) by (apply (registry_ok_frame s); auto).
  assert (Hacc0 : S (accounted s0) = size cs).
  { rewrite <- Hacc. unfold accounted, inflight_count, s0. fields.
    rewrite Hi. lia. }
  pose proof (handled_accounted s0 _ (run_queue_handled s0) Hreg0) as Hle.
  assert (Hinv' : Inv s') by (apply Inv_step, Hinv).
  assert (Hph' : phase s' = Exited e) by now rewrite E.
  pose proof (inv_exited _ Hinv' _ Hph') as Hx.
  assert (Hlen : length (finished_checks (emitted s')) < size cs).
  { rewrite E. unfold process_exit. fields.
    assert (Hf : length (finished_checks (emitted (run_queue s0)))
                 <= accounted (run_queue s0)) by (unfold accounted; lia).
    lia. }
  split; [exact E|]. split; [exact Hph'|]. split; [exact Hlen|].
  destruct Hx as (sid' & cs' & fin' & _ & Hpr' & Hlog & _).
  assert (Hc' : checks s' = Some cs).
  { rewrite E. unfold process_exit. fields.
    destruct (handled_same_run _ _ (run_queue_handled s0)) as [_ _ _ _ Hc _ _].
    now rewrite Hc. }
  assert (cs' = cs) by (pose proof (progress_checks _ _ _ Hpr'); congruence).
  subst cs'.
  split; [|split].
  - rewrite (progress_finished _ _ _ Hpr'), length_map in Hlen.
    pose proof (progress_tracker _ _ _ Hpr') as Ht. unfold tracker_ok in Ht.
    destruct (Nat.eqb_spec (size cs) 0); [lia|]. destruct Ht as [_ Ht].
    destruct (Nat.leb_spec (size cs) (length fin')); [lia | assumption].
  - now apply (started_log_unfinished sid').
  - intros ls. apply (exec_exited e). exact (inv_exited _ Hinv' _ Hph').
Qed.

(** The result of check ["a"] reports failures, and its logs cannot be
    fetched. *)
Lemma X10_failed_handler_ends_process_witness :
  inflight (exec [Arrive "a" "run-end" message_failed; Next] demo_state)
  = Some (mkSuspended (JStr "A") message_failed)
  /\ phase (step (Fetched assets_logs_down)
              (exec [Arrive "a" "run-end" message_failed; Next] demo_state))
     = Exited (Rejected "getLogs: 503")
  /\ emitted (exec [Expire 1; Resume]
                (step (Fetched assets_logs_down)
                   (exec [Arrive "a" "run-end" message_failed; Next] demo_state)))
     = [demo_started].
Proof.
  split; [vm_compute; reflexivity|].
  destruct (X10_failed_handler_ends_process assets_logs_down
              (mkSuspended (JStr "A") message_failed) (Rejected "getLogs: 503")
              (exec [Arrive "a" "run-end" message_failed; Next] demo_state)
              demo_checks)
    as (_ & H1 & _ & _ & _ & H2).
  - exists "acc", 5%Z, false,
      (demo_setup ++ [Arrive "a" "run-end" message_failed; Next]).
    unfold demo_state. now rewrite exec_app.
  - vm_compute. reflexivity.
  - vm_compute. reflexivity.
  - vm_compute. reflexivity.
  - split; [exact H1|]. rewrite H2. vm_compute. reflexivity.
Defined.

(** Where each check of a run is, when the count is right. *)
Lemma accounted_each s cs fin :
  registry_ok s -> progress cs fin s -> accounted s = size cs ->
  forall k c, cs !! k = Some c ->
    k ∈ fin \/ is_Some (timeouts s !! k)
    \/ exists p, inflight s = Some p /\ susp_check p = c.
Proof.
  intros Hreg Hpr Hacc k c Hk.
  set (F := list_to_set fin : gset string).
  set (T := dom (timeouts s) : gset string).
  assert (HF : size F = length fin)
    by (apply size_list_to_set, (progress_nodup _ _ _ Hpr)).
  assert (HT : size T = size (timeouts s)) by apply size_dom.
  assert (HFT : F ## T).
  { intros x Hx Hy. apply elem_of_list_to_set in Hx. apply elem_of_dom in Hy.
    destruct (progress_done _ _ _ Hpr x Hx) as [_ E]. rewrite E in Hy.
    now destruct Hy. }
  assert (HFc : F ⊆ dom cs).
  { intros x Hx. apply elem_of_list_to_set in Hx. apply elem_of_dom.
    now destruct (progress_done _ _ _ Hpr x Hx). }
  assert (HTc : T ⊆ dom cs).
  { intros x Hx. apply elem_of_dom in Hx as [t Hx]. apply elem_of_dom.
    destruct (entry_check _ Hreg _ _ Hx) as (cs' & E & Hc).
    rewrite (progress_checks _ _ _ Hpr) in E. injection E as <-. eauto. }
  assert (Hlen : length (finished_checks (emitted s)) = length fin)
    by (rewrite (progress_finished _ _ _ Hpr); apply length_map).
  assert (Hin : k ∈ dom cs) by (apply elem_of_dom; eauto).
  unfold accounted, inflight_count in Hacc.
  destruct (inflight s) as [p|] eqn:Hi.
  - destruct (progress_inflight _ _ _ Hpr p Hi) as (k' & Hn & Ht & Hc).
    assert (HI : (F ∪ T) ## ({[k']} : gset string)).
    { intros x Hx Hy. apply elem_of_singleton in Hy. subst x.
      apply elem_of_union in Hx as [Hx|Hx].
      - apply elem_of_list_to_set in Hx. contradiction.
      - apply elem_of_dom in Hx. rewrite Ht in Hx. now destruct Hx. }
    assert (Hsub : F ∪ T ∪ {[k']} ⊆ dom cs).
    { apply union_least; [apply union_least; assumption|].
      apply singleton_subseteq_l, elem_of_dom. eauto. }
    assert (Hsize : size (dom cs) <= size (F ∪ T ∪ {[k']})).
    { rewrite size_union by exact HI. rewrite size_union by exact HFT.
      rewrite size_singleton, size_dom. lia. }
    rewrite <- (set_subseteq_size_eq _ _ Hsub Hsize) in Hin.
    apply elem_of_union in Hin as [Hin|Hin];
      [apply elem_of_union in Hin as [Hin|Hin]|].
    + left. now apply elem_of_list_to_set in Hin.
    + right. left. now apply elem_of_dom in Hin.
    + right. right. apply elem_of_singleton in Hin. subst k'.
      exists p. split; [reflexivity | congruence].
  - assert (Hsub : F ∪ T ⊆ dom cs) by (apply union_least; assumption).
    assert (Hsize : size (dom cs) <= size (F ∪ T)).
    { rewrite size_union by exact HFT. rewrite size_dom. lia. }
    rewrite <- (set_subseteq_size_eq _ _ Hsub Hsize) in Hin.
    apply elem_of_union in Hin as [Hin|Hin].
    + left. now apply elem_of_list_to_set in Hin.
    + right. left. now apply elem_of_dom in Hin.
Qed.

(** X20. While [run] awaits the completion of the checks, every check of
    the run is accounted for: it is one of the checks reported finished,
    which are reported once each, or it has its entry in the registry, or
    its [run-end] message is being handled; and these add up to the
    number of the checks.  So, as soon as no check is pending (no entry
    is left in the registry and no handler is suspended), every check is
    reported finished and the promise of [allChecksFinished] is resolved:
    [run] goes on, and [RUN_FINISHED] is the next event. *)
Theorem X20_run_ends_when_nothing_pending (s : State)
    (cs : gmap string JsVal) (sid : option string) :
  reachable s ->
  phase s = Awaiting sid ->
  checks s = Some cs ->
  (exists fin,
      NoDup fin
      /\ finished_checks (emitted s) = map (get_check cs) fin
      /\ forall k c, cs !! k = Some c ->
           k ∈ fin \/ is_Some (timeouts s !! k)
           \/ exists p, inflight s = Some p /\ susp_check p = c)
  /\ accounted s = size cs
  /\ (timeouts s = ∅ -> inflight s = None ->
      length (finished_checks (emitted s)) = size cs
      /\ 0 < resolutions s
      /\ phase (step Resume s) = Returned
      /\ emitted (step Resume s) = emitted s ++ [RUN_FINISHED sid]).
Proof.
  intros Hr Hph Hcs.
  pose proof (accounted_running s sid cs Hr Hph Hcs) as Hacc.
  destruct (inv_awaiting _ (reachable_Inv s Hr) _ Hph)
    as (sid' & cs' & fin & _ & Hpr & _).
  assert (cs' = cs) by (pose proof (progress_checks _ _ _ Hpr); congruence).
  subst cs'.
  split.
  { exists fin. split; [exact (progress_nodup _ _ _ Hpr)|].
    split; [exact (progress_finished _ _ _ Hpr)|].
    apply accounted_each; [now apply reachable_registry_ok | exact Hpr | exact Hacc]. }
  split; [exact Hacc|]. intros Hts Hi.
  assert (Hfin : length (finished_checks (emitted s)) = size cs).
  { rewrite <- Hacc. unfold accounted, inflight_count.
    rewrite Hts, Hi, map_size_empty. lia. }
  assert (Hres : 0 < resolutions s).
  { rewrite (progress_finished _ _ _ Hpr), length_map in Hfin.
    pose proof (progress_tracker _ _ _ Hpr) as Ht. unfold tracker_ok in Ht.
    destruct (Nat.eqb_spec (size cs) 0); [lia|].
    destruct Ht as [_ Ht].
    destruct (Nat.leb_spec (size cs) (length fin)); lia. }
  destruct (run_completes sid s Hph Hres) as [R1 R2]. auto.
Qed.

(** Check ["a"] has passed and check ["b"] has timed out. *)
Lemma X20_run_ends_when_nothing_pending_witness :
  timeouts (exec [Arrive "a" "run-end" message_passed; Next; Expire 1] demo_state)
  = ∅
  /\ emitted (step Resume
               (exec [Arrive "a" "run-end" message_passed; Next; Expire 1]
                  demo_state))
     = emitted (exec [Arrive "a" "run-end" message_passed; Next; Expire 1]
                  demo_state)
       ++ [RUN_FINISHED (Some "session")].
Proof.
  split; [vm_compute; reflexivity|].
  destruct (X20_run_ends_when_nothing_pending
              (exec [Arrive "a" "run-end" message_passed; Next; Expire 1]
                 demo_state)
              demo_checks (Some "session"))
    as (_ & _ & H).
  - exists "acc", 5%Z, false,
      (demo_setup ++ [Arrive "a" "run-end" message_passed; Next; Expire 1]).
    unfold demo_state. now rewrite exec_app.
  - vm_compute. reflexivity.
  - vm_compute. reflexivity.
  - destruct H as (_ & _ & _ & H); [vm_compute; reflexivity | reflexivity|].
    exact H.
Defined.

(** ** Cancelling a timer that is not there *)

(** X2. [disableTimeout] for a check that has no entry in the registry
    changes nothing ([clearTimeout(undefined)] and the [delete] of a key
    that is absent), so that disabling the timer of a check twice is
    disabling it once. *)
Theorem X2_disableTimeout_again (checkRunId : string) (s : State) :
  (timeouts s !! checkRunId = None -> disableTimeout checkRunId s = s)
  /\ disableTimeout checkRunId (disableTimeout checkRunId s)
     = disableTimeout checkRunId s.
Proof.
  assert (H : forall s0, timeouts s0 !! checkRunId = None ->
                disableTimeout checkRunId s0 = s0).
  { intros s0 Hk. unfold disableTimeout, clearTimeout. rewrite Hk.
    rewrite (delete_id _ _ Hk). now destruct s0. }
  split; [apply H|].
  apply H. rewrite disableTimeout_timeouts. apply lookup_delete_eq.
Qed.

(** ** The checks the events are about *)

Lemma known_checks_app cs log chunk :
  known_checks cs log -> known_checks cs chunk -> known_checks cs (log ++ chunk).
Proof.
  intros H1 H2 e c Hin. apply elem_of_app in Hin as [Hin|Hin]; eauto.
Qed.

Lemma known_checks_nil cs : known_checks cs [].
Proof. intros e c Hin. inversion Hin. Qed.

Lemma known_checks_pair cs k c e1 :
  cs !! k = Some c ->
  (event_check e1 = Some c \/ event_check e1 = None) ->
  known_checks cs [e1; CHECK_FINISHED c].
Proof.
  intros Hk H1 e c' Hin Hc'.
  apply elem_of_cons in Hin as [->|Hin].
  - destruct H1 as [H1|H1]; rewrite H1 in Hc'; [|discriminate].
    injection Hc' as <-. eauto.
  - apply list_elem_of_singleton in Hin as ->. simpl in Hc'.
    injection Hc' as <-. eauto.
Qed.

(** What the handlers emit is about checks of the run. *)
Lemma handled_known s s' cs fin :
  handled s s' -> registry_ok s -> progress cs fin s ->
  exists body, emitted s' = emitted s ++ body /\ known_checks cs body.
Proof.
  intros H. revert fin.
  induction H as [s|q s s' _ IH|job s s' Hi _ IH|o s s' _ IH];
    intros fin Hreg Hpr.
  - exists []. split; [now rewrite app_nil_r | apply known_checks_nil].
  - apply (IH fin).
    + apply (registry_ok_frame s); auto.
    + apply (progress_frame cs fin s); auto.
  - destruct (call_task_core job s cs fin Hreg Hpr Hi) as (Hreg1 & fin1 & Hpr1).
    destruct (IH fin1 Hreg1 Hpr1) as (body & E & Hb).
    assert (Hc : exists chunk,
               emitted (snd (call_task job s)) = emitted s ++ chunk
               /\ known_checks cs chunk).
    { destruct job as [k sub m]. unfold call_task, processMessage_begin.
      cbn [job_checkRunId job_subtopic job_message].
      destruct (timeouts s !! k) as [t|] eqn:Hk;
        [|exists []; split; [now rewrite app_nil_r | apply known_checks_nil]].
      rewrite (progress_checks _ _ _ Hpr).
      destruct (armed_check s k t cs Hreg Hk (progress_checks _ _ _ Hpr))
        as [Hc Hg].
      rewrite Hg.
      destruct (String.eqb sub "run-start").
      { eexists. cbn [snd]. fields. split; [reflexivity|].
        intros e c Hin Hc'. apply list_elem_of_singleton in Hin as ->.
        injection Hc' as <-. eauto. }
      destruct (String.eqb sub "run-end").
      { exists []. cbn [snd]. fields.
        split; [now rewrite app_nil_r | apply known_checks_nil]. }
      destruct (String.eqb sub "error");
        [|exists []; split; [now rewrite app_nil_r | apply known_checks_nil]].
      eexists. cbn [snd]. fields. rewrite <- app_assoc. split; [reflexivity|].
      apply (known_checks_pair cs k); auto. }
    destruct Hc as (chunk & Ec & Hc).
    exists (chunk ++ body). rewrite E, Ec, app_assoc.
    split; [reflexivity | now apply known_checks_app].
  - destruct (resume_task_core o s cs fin Hreg Hpr) as (Hreg1 & fin1 & Hpr1).
    destruct (IH fin1 Hreg1 Hpr1) as (body & E & Hb).
    assert (Hc : exists chunk,
               emitted (snd (resume_task o s)) = emitted s ++ chunk
               /\ known_checks cs chunk).
    { unfold resume_task. destruct (inflight s) as [p|] eqn:Hi;
        [|exists []; split; [now rewrite app_nil_r | apply known_checks_nil]].
      destruct (progress_inflight _ _ _ Hpr p Hi) as (k & _ & _ & Hc).
      unfold report_run_end. destruct (enrich _ _ _); cbn [snd].
      + eexists. fields. rewrite <- app_assoc. split; [reflexivity|].
        apply (known_checks_pair cs k); auto.
      + exists []. split; [now rewrite app_nil_r | apply known_checks_nil]. }
    destruct Hc as (chunk & Ec & Hc).
    exists (chunk ++ body). rewrite E, Ec, app_assoc.
    split; [reflexivity | now apply known_checks_app].
Qed.

Lemma known_checks_RUN_STARTED cs sid rids : known_checks cs [RUN_STARTED sid rids].
Proof.
  intros ev c Hin Hc. apply list_elem_of_singleton in Hin as ->. discriminate Hc.
Qed.

Lemma known_checks_step l s :
  Inv s -> known_checks (run_checks s) (emitted s) ->
  known_checks (run_checks (step l s)) (emitted (step l s)).
Proof.
  intros Hinv H. pose proof (inv_registry _ Hinv) as Hreg.
  assert (Hfail : forall e b, setting_up s ->
            known_checks (run_checks (run_finally b (run_catch e s)))
              (emitted (run_finally b (run_catch e s)))).
  { intros e b Hs.
    pose proof (run_catch_pristine e b s (pristine_of_phase s Hinv Hs)) as Hf.
    rewrite (failed_emitted _ _ Hf). intros ev c Hin Hc.
    apply list_elem_of_singleton in Hin as ->. discriminate Hc. }
  assert (Hturn : forall l0, l0 = Next \/ (exists o, l0 = Fetched o) ->
            known_checks (run_checks (step l0 s)) (emitted (step l0 s))).
  { intros l0 Hl0.
    assert (Hcases : (exists sid, phase s = Awaiting sid)
                     \/ (forall sid, phase s <> Awaiting sid)).
    { destruct (phase s); eauto; right; discriminate. }
    destruct Hcases as [[sid Hp]|Hp].
    - destruct (inv_awaiting _ Hinv _ Hp) as (sid' & cs & fin & _ & Hpr & _).
      destruct (step_queue_turn l0 s Hinv Hl0) as (s' & Hh & Hs1).
      destruct (handled_known s s' cs fin Hh Hreg Hpr) as (body & E & Hb).
      destruct (handled_same_run s s' Hh) as [_ _ _ _ Hc _ _].
      assert (Hk : known_checks (run_checks s') (emitted s')).
      { unfold run_checks in *. rewrite Hc, E.
        apply known_checks_app; [assumption|].
        now rewrite (progress_checks _ _ _ Hpr). }
      destruct Hs1 as [->|(e & _ & _ & ->)]; [exact Hk|].
      unfold run_checks, process_exit in *. now fields.
    - destruct (quiet_turn l0 s Hinv Hp Hl0) as [q ->]. exact H. }
  destruct l.
  - unfold step. destruct r as [[]|e], (phase s) eqn:E; try exact H.
    apply Hfail. unfold setting_up. auto.
  - unfold step. destruct r as [[]|e], (phase s) eqn:E; try exact H.
    apply Hfail. unfold setting_up. auto.
  - destruct r as [r|e].
    + destruct (phase s) eqn:E; try (unfold step; rewrite E; exact H).
      assert (Hp : pristine s).
      { apply pristine_of_phase; [assumption|]. unfold setting_up. auto. }
      destruct (step_Dispatched r s E Hp) as (s3 & Hd & ->).
      destruct (dispatched_running r s s3 Hd) as [Hreg6 Hrun6].
      set (s6 := set_phase _ _) in *.
      destruct (handled_known s3 _ (sched_checks r) []
                  (start_another_handled s3) (dispatched_registry _ _ _ Hd)
                  (dispatched_progress _ _ _ Hd)) as (first & E1 & Hfirst).
      rewrite (dispatched_emitted _ _ _ Hd) in E1. simpl in E1.
      destruct (handled_same_run _ _ (start_another_handled s3))
        as [_ _ _ _ Hc4 _ _].
      assert (Hc6 : checks s6 = Some (sched_checks r)).
      { subst s6. fields. now rewrite Hc4, (dispatched_checks _ _ _ Hd). }
      assert (Hk6 : known_checks (sched_checks r) (emitted s6)).
      { subst s6. fields. rewrite E1.
        apply known_checks_app; [assumption | apply known_checks_RUN_STARTED]. }
      destruct (fst (start_another s3)) as [e|]; cbn [settle].
      * destruct Hrun6 as (sid & cs & fin & _ & Hpr6 & _).
        assert (cs = sched_checks r)
          by (pose proof (progress_checks _ _ _ Hpr6); congruence).
        subst cs.
        destruct (handled_known s6 _ _ fin (run_queue_handled s6) Hreg6 Hpr6)
          as (body & E7 & Hb).
        destruct (handled_same_run _ _ (run_queue_handled s6))
          as [_ _ _ _ Hc7 _ _].
        unfold run_checks, process_exit. fields. rewrite Hc7, Hc6, E7.
        now apply known_checks_app.
      * unfold run_checks. now rewrite Hc6.
    + unfold step. destruct (phase s) eqn:E; try exact H.
      apply Hfail. unfold setting_up. auto.
  - rewrite step_Arrive. destruct (listening s); exact H.
  - apply Hturn. auto.
  - apply Hturn. eauto.
  - rewrite step_Expire. destruct (timers s !! id) as [t|] eqn:Hid; [|exact H].
    destruct (timer_entry _ Hreg _ _ Hid) as [_ Hk].
    destruct (entry_check _ Hreg _ _ Hk) as (cs & Hcs & Hc).
    unfold run_checks in *. rewrite timeout_callback_emitted.
    unfold timeout_callback. fields. rewrite Hcs in *.
    apply known_checks_app; [assumption|].
    apply (known_checks_pair cs (timer_checkRunId t)); auto.
  - rewrite step_Resume. destruct (phase s); try exact H.
    destruct (Nat.ltb 0 (resolutions s)); [|exact H].
    unfold run_finally, run_checks in *. fields.
    apply known_checks_app; [assumption|].
    intros ev c Hin Hc.
    apply list_elem_of_singleton in Hin as ->. discriminate Hc.
Qed.

(** X8. Every event of a run that is about a check carries a check of
    the run, one of the descriptors the dispatch answered with: the
    runner never reports a check it does not know, and never [undefined]
    in the place of a check. *)
Theorem X8_events_of_known_checks (s : State) (e : Event) (c : JsVal) :
  reachable s ->
  e ∈ emitted s ->
  event_check e = Some c ->
  exists k, run_checks s !! k = Some c.
Proof.
  intros (a & t & v & ls & ->).
  assert (H : known_checks
                (run_checks (exec ls (constructor a t v)))
                (emitted (exec ls (constructor a t v)))).
  { induction ls as [|l ls IH] using rev_ind; [apply known_checks_nil|].
    rewrite exec_app. simpl. apply known_checks_step; [|assumption].
    apply Inv_exec, Inv_constructor. }
  apply H.
Qed.

Lemma X8_events_of_known_checks_witness :
  CHECK_FINISHED (JStr "B") ∈ emitted demo_final
  /\ exists k, run_checks demo_final !! k = Some (JStr "B").
Proof.
  assert (Hin : CHECK_FINISHED (JStr "B") ∈ emitted demo_final).
  { rewrite demo_final_emitted. repeat constructor. }
  split; [exact Hin|].
  apply (X8_events_of_known_checks demo_final (CHECK_FINISHED (JStr "B"))).
  - exists "acc", 5%Z, false, (demo_setup ++ demo_events).
    unfold demo_final, demo_state. now rewrite exec_app.
  - exact Hin.
  - reflexivity.
Defined.

(** ** The end of the process *)

(** X22. A process that has ended on an unhandled rejection has emitted
    [RUN_STARTED] and never [RUN_FINISHED] nor [ERROR]; no timer of it is
    left, and whatever comes after changes nothing. *)
Theorem X22_exit_is_final (s : State) (e : Thrown) (ls : list Label) :
  reachable s ->
  phase s = Exited e ->
  exec ls s = s
  /\ timers s = ∅
  /\ timeouts s = ∅
  /\ existsb is_RUN_FINISHED (emitted s) = false
  /\ existsb is_ERROR (emitted s) = false
  /\ exists sid rids, RUN_STARTED sid rids ∈ emitted s.
Proof.
  intros Hr Hph.
  pose proof (inv_exited _ (reachable_Inv s Hr) _ Hph) as Hx.
  split; [now apply (exec_exited e)|].
  destruct Hx as (sid & cs & fin & _ & _ & Hlog & Hts & Htm & _).
  split; [assumption|]. split; [assumption|].
  destruct Hlog as (rids & pre & evs & E & Hp & He).
  split; [|split].
  - apply (started_log_unfinished sid). now exists rids, pre, evs.
  - rewrite E, existsb_app. cbn [existsb is_ERROR orb].
    assert (Hno : forall l, forallb is_check_event l = true ->
                            existsb is_ERROR l = false).
    { induction l as [|x l IH]; [reflexivity|]. simpl.
      intros H. apply andb_true_iff in H as [Hx H].
      rewrite (IH H). destruct x; try discriminate Hx; reflexivity. }
    now rewrite !Hno.
  - exists sid, rids. rewrite E. apply elem_of_app. right. constructor.
Qed.

(** A [run-end] message without [result.assets] for check ["a"]. *)
Lemma X22_exit_is_final_witness :
  phase (exec [Arrive "a" "run-end" (JObj [("result", JNull)]); Next] demo_state)
  = Exited TypeError
  /\ emitted (exec [Expire 1; Resume]
                (exec [Arrive "a" "run-end" (JObj [("result", JNull)]); Next]
                   demo_state))
     = [demo_started].
Proof.
  split; [vm_compute; reflexivity|].
  destruct (X22_exit_is_final
              (exec [Arrive "a" "run-end" (JObj [("result", JNull)]); Next]
                 demo_state)
              TypeError [Expire 1; Resume])
    as (H & _).
  - apply reachable_exec, demo_state_reachable.
  - vm_compute. reflexivity.
  - rewrite H. vm_compute. reflexivity.
Defined.

